(** * DynamicForm: the schema-driven state engine of the banking form

    A shallow embedding of [src/components/DynamicForm.tsx] (the engine:
    [getFieldKey], the initialising effect, [handleFieldChange],
    [checkDependentSections], [validateForm], [handleSubmit]) together with
    the schema types of [src/types/form.types.ts], of which widgets
    [src/components/FormSection.tsx] mounts, and of the attachment and
    option handling of [src/components/FormFieldRenderer.tsx].

    Conventions.
    - A JavaScript string is a [string]: a sequence of code units, here
      restricted to the 256 values of [ascii].
    - A JavaScript [number] that the engine reads from the schema ([order],
      [minImageCapture], [maxImageCapture]) is an integer of [Z].
    - A plain object used as a dictionary whose key order is never observed
      ([formValues]) is a [gmap]; the error object, whose key order is
      observed by [Object.keys(...)[0]], is an insertion-ordered association
      list; a [Set] used only through [add], [delete] and [has] is a [gset].
    - React state is an explicit record; a handler is a function from the
      state it closes over to the state reached once its queued updaters
      have been applied in order, plus the calls it makes to the outside.
    - A thrown [TypeError] is the [Throw] outcome of [Result]. *)

From Stdlib Require Import ZArith Ascii String List Bool Lia DecimalString Sorted.
From stdpp Require Import base option list gmap strings fin_maps.

Local Open Scope string_scope.
Local Open Scope Z_scope.

(** ** JavaScript strings *)

Module Js.

Notation "a +++ b" := (String.append a b)
  (at level 60, right associativity) : string_scope.

Definition ascii_eqb (a b : ascii) : bool := Ascii.eqb a b.

(** [s.startsWith(p)] *)
Fixpoint startsWith (p s : string) : bool :=
  match p, s with
  | EmptyString, _ => true
  | String a p', String b s' => ascii_eqb a b && startsWith p' s'
  | String _ _, EmptyString => false
  end.

(** [s.includes(sub)] *)
Fixpoint includes (sub s : string) : bool :=
  startsWith sub s ||
  match s with
  | EmptyString => false
  | String _ s' => includes sub s'
  end.

(** [s.split('__')]: the parts between successive, non-overlapping
    occurrences of the two-underscore separator, scanning from the left.
    [cur] is the part being accumulated. *)
Fixpoint split_go (cur s : string) : list string :=
  match s with
  | EmptyString => [cur]
  | String a rest =>
      match rest with
      | String b rest' =>
          if ascii_eqb a "_" && ascii_eqb b "_"
          then cur :: split_go EmptyString rest'
          else split_go (cur +++ String a EmptyString) rest
      | EmptyString => [cur +++ String a EmptyString]
      end
  end.

Definition split_dunder (s : string) : list string := split_go EmptyString s.

(** The white space and line terminators of [String.prototype.trim] and of
    the regular-expression class [\s] that fit a one-byte code unit. *)
Definition isWhiteSpace (a : ascii) : bool :=
  let n := nat_of_ascii a in
  ((9 <=? n) && (n <=? 13) || (n =? 32) || (n =? 160))%nat.

Fixpoint trimStart (s : string) : string :=
  match s with
  | EmptyString => EmptyString
  | String a s' => if isWhiteSpace a then trimStart s' else s
  end.

(** [trimEnd] as a right fold: a white-space unit is dropped exactly when
    everything after it has been dropped. *)
Fixpoint trimEnd (s : string) : string :=
  match s with
  | EmptyString => EmptyString
  | String a s' =>
      match trimEnd s' with
      | EmptyString => if isWhiteSpace a then EmptyString else String a EmptyString
      | t => String a t
      end
  end.

Definition trim (s : string) : string := trimEnd (trimStart s).

Definition isEmpty (s : string) : bool :=
  match s with EmptyString => true | _ => false end.

Definition isDigit (a : ascii) : bool :=
  let n := nat_of_ascii a in ((48 <=? n) && (n <=? 57))%nat.

Fixpoint filter_chars (p : ascii -> bool) (s : string) : string :=
  match s with
  | EmptyString => EmptyString
  | String a s' => if p a then String a (filter_chars p s') else filter_chars p s'
  end.

Fixpoint forall_chars (p : ascii -> bool) (s : string) : bool :=
  match s with
  | EmptyString => true
  | String a s' => p a && forall_chars p s'
  end.

(** [s.replace(/\D/g, '')] *)
Definition stripNonDigits (s : string) : string := filter_chars isDigit s.

Definition lowerChar (a : ascii) : ascii :=
  let n := nat_of_ascii a in
  if ((65 <=? n) && (n <=? 90) ||
      (192 <=? n) && (n <=? 222) && negb (n =? 215))%nat
  then ascii_of_nat (n + 32) else a.

(** [s.toLowerCase()] *)
Fixpoint toLowerCase (s : string) : string :=
  match s with
  | EmptyString => EmptyString
  | String a s' => String (lowerChar a) (toLowerCase s')
  end.

(** The integers that a JavaScript number holds exactly. *)
Definition safeInteger (n : Z) : bool := Z.abs n <? 2 ^ 53.

(** [String(n)] for an integer [n].  It is the text the source prints for
    a [safeInteger]; a number read from a longer run of digits is rounded
    by the source to the nearest double, and printed with an exponent from
    [1e21] on. *)
Definition numberToString (n : Z) : string := NilZero.string_of_int (Z.to_int n).

(** [Array.prototype.join] *)
Fixpoint join (sep : string) (l : list string) : string :=
  match l with
  | [] => EmptyString
  | [x] => x
  | x :: l' => x +++ sep +++ join sep l'
  end.

Fixpoint takeWhile (p : ascii -> bool) (s : string) : string :=
  match s with
  | EmptyString => EmptyString
  | String a s' => if p a then String a (takeWhile p s') else EmptyString
  end.

Fixpoint dropWhile (p : ascii -> bool) (s : string) : string :=
  match s with
  | EmptyString => EmptyString
  | String a s' => if p a then dropWhile p s' else s
  end.

Definition isChar (c a : ascii) : bool := ascii_eqb a c.

Definition isSign (a : ascii) : bool := isChar "+" a || isChar "-" a.

Definition dropSign (s : string) : string :=
  match s with
  | String a s' => if isSign a then s' else s
  | EmptyString => s
  end.

(** The value of a digit in the given radix, if it is one. *)
Definition digitValue (radix : Z) (a : ascii) : option Z :=
  let n := Z.of_nat (nat_of_ascii a) in
  let d := if (48 <=? n) && (n <=? 57) then Some (n - 48)
           else if (97 <=? n) && (n <=? 122) then Some (n - 87)
           else if (65 <=? n) && (n <=? 90) then Some (n - 55)
           else None in
  match d with
  | Some d => if d <? radix then Some d else None
  | None => None
  end.

Definition isRadixDigit (radix : Z) (a : ascii) : bool :=
  match digitValue radix a with Some _ => true | None => false end.

(** The value of the longest prefix of digits; [None] when it is empty. *)
Fixpoint parseDigits (radix : Z) (acc : option Z) (s : string) : option Z :=
  match s with
  | EmptyString => acc
  | String a s' =>
      match digitValue radix a with
      | Some d => parseDigits radix (Some (radix * default 0 acc + d)) s'
      | None => acc
      end
  end.

(** [parseInt(s)] with no radix argument; [None] is [NaN]. *)
Definition parseInt (s : string) : option Z :=
  let s1 := trimStart s in
  let sign := match s1 with
              | String a _ => if isChar "-" a then -1 else 1
              | EmptyString => 1
              end in
  let s2 := dropSign s1 in
  let hex := match s2 with
             | String a (String b _) => isChar "0" a && (isChar "x" b || isChar "X" b)
             | _ => false
             end in
  let s3 := match s2 with
            | String _ (String _ r) => if hex then r else s2
            | _ => s2
            end in
  (fun n => sign * n) <$> parseDigits (if hex then 16 else 10) None s3.

Definition isDigits (radix : Z) (s : string) : bool :=
  negb (isEmpty s) && forall_chars (isRadixDigit radix) s.

(** ExponentPart of the StringToNumber grammar, or nothing *)
Definition isExponentOpt (s : string) : bool :=
  match s with
  | EmptyString => true
  | String a s' => (isChar "e" a || isChar "E" a) && isDigits 10 (dropSign s')
  end.

(** StrUnsignedDecimalLiteral *)
Definition isUnsignedDecimal (s : string) : bool :=
  String.eqb s "Infinity" ||
  let int := takeWhile isDigit s in
  match dropWhile isDigit s with
  | String a r =>
      if isChar "." a
      then (negb (isEmpty int) || negb (isEmpty (takeWhile isDigit r)))
           && isExponentOpt (dropWhile isDigit r)
      else negb (isEmpty int) && isExponentOpt (String a r)
  | EmptyString => negb (isEmpty int)
  end.

(** NonDecimalIntegerLiteral: binary, octal or hexadecimal, unsigned *)
Definition isNonDecimalInteger (s : string) : bool :=
  match s with
  | String a (String b r) =>
      isChar "0" a &&
      ((isChar "b" b || isChar "B" b) && isDigits 2 r ||
       (isChar "o" b || isChar "O" b) && isDigits 8 r ||
       (isChar "x" b || isChar "X" b) && isDigits 16 r)
  | _ => false
  end.

(** [isNaN(Number(s))] for a string [s]: StringToNumber yields a number
    exactly on white space alone or a StrNumericLiteral between optional
    white space. *)
Definition stringIsNaN (s : string) : bool :=
  let t := trim s in
  negb (isEmpty t || isNonDecimalInteger t || isUnsignedDecimal (dropSign t)).

(** A unit of the class [[^\s@]] *)
Definition isEmailUnit (a : ascii) : bool := negb (isWhiteSpace a) && negb (isChar "@" a).

(** Some full stop of [s] is followed by at least one more unit. *)
Fixpoint hasDotBeforeEnd (s : string) : bool :=
  match s with
  | EmptyString => false
  | String a s' => isChar "." a && negb (isEmpty s') || hasDotBeforeEnd s'
  end.

(** [/^[^\s@]+@[^\s@]+\.[^\s@]+$/.test(s)] *)
Definition emailRegexTest (s : string) : bool :=
  let local := takeWhile isEmailUnit s in
  negb (isEmpty local) &&
  match dropWhile isEmailUnit s with
  | String a (String b r) =>
      isChar "@" a && forall_chars isEmailUnit (String b r) && hasDotBeforeEnd r
  | _ => false
  end.

(** [/^[0-9]{10}$/.test(s)] *)
Definition phoneRegexTest (s : string) : bool :=
  forall_chars isDigit s && (String.length s =? 10)%nat.

End Js.

Import Js.

(** ** JavaScript values held by the form

    [FormValues] is [{ [key: string]: any }].  The widget layer stores a
    string (text, select, radio, date inputs), a boolean (checkbox), a
    [File] object, or an array of [File] objects (attachment inputs). *)

Record File := mkFile { fileName : string; fileSize : Z }.

Inductive JsValue :=
| VStr (s : string)
| VBool (b : bool)
| VFile (f : File)
| VList (l : list File).

(** The outcome of running a piece of code that may throw. *)
Inductive Result (A : Type) :=
| Ok (a : A)
| Throw (e : string).
Arguments Ok {A} a.
Arguments Throw {A} e.

#[global] Instance Result_bind : MBind Result := fun A B k r =>
  match r with
  | Ok a => k a
  | Throw e => Throw e
  end.

#[global] Instance Result_ret : MRet Result := fun A a => Ok a.

Module Value.

(** ToBoolean *)
Definition truthy (v : JsValue) : bool :=
  match v with
  | VStr s => negb (isEmpty s)
  | VBool b => b
  | VFile _ => true
  | VList _ => true
  end.

(** [v || ''] *)
Definition orEmpty (v : option JsValue) : JsValue :=
  match v with
  | Some v => if truthy v then v else VStr ""
  | None => VStr ""
  end.

(** ToString *)
Definition toString (v : JsValue) : string :=
  match v with
  | VStr s => s
  | VBool true => "true"
  | VBool false => "false"
  | VFile _ => "[object File]"
  | VList l => join "," (map (fun _ => "[object File]") l)
  end.

(** [v.trim()]: only a string has the method. *)
Definition trim (v : JsValue) : Result string :=
  match v with
  | VStr s => Ok (Js.trim s)
  | _ => Throw "TypeError: value.trim is not a function"
  end.

(** [v.length]: [None] is [undefined]. *)
Definition length (v : JsValue) : option Z :=
  match v with
  | VStr s => Some (Z.of_nat (String.length s))
  | VList l => Some (Z.of_nat (List.length l))
  | VBool _ | VFile _ => None
  end.

(** [v.length > n] and [v.length < n]; a comparison with [undefined] or
    [NaN] is false. *)
Definition lengthGt (v : JsValue) (n : option Z) : bool :=
  match length v, n with
  | Some len, Some n => n <? len
  | _, _ => false
  end.

Definition lengthLt (v : JsValue) (n : option Z) : bool :=
  match length v, n with
  | Some len, Some n => len <? n
  | _, _ => false
  end.

(** [v.includes('@')]: a string and an array have the method; no [File]
    is strictly equal to a string. *)
Definition includesAt (v : JsValue) : Result bool :=
  match v with
  | VStr s => Ok (Js.includes "@" s)
  | VList _ => Ok false
  | _ => Throw "TypeError: value.includes is not a function"
  end.

(** [v.replace(/\D/g, '')]: only a string has the method. *)
Definition stripNonDigits (v : JsValue) : Result string :=
  match v with
  | VStr s => Ok (Js.stripNonDigits s)
  | _ => Throw "TypeError: value.replace is not a function"
  end.

(** [Array.isArray(v) ? v : (v ? [v] : [])], then [.length] *)
Definition coercedCount (v : JsValue) : Z :=
  match v with
  | VList l => Z.of_nat (List.length l)
  | _ => if truthy v then 1 else 0
  end.

(** [v === s] for a string [s] *)
Definition strictEqStr (v : JsValue) (s : string) : bool :=
  match v with
  | VStr t => String.eqb t s
  | _ => false
  end.

End Value.

(** ** The schema ([form.types.ts])

    Only the members the engine reads are kept; [option] marks a member
    that may be absent ([?], [| null], or missing from the JSON). *)

Record FormField := mkField {
  value : option string;
  valueMinLength : option string;
  valueLength : option string;
  sfField : string;
  order : option Z;
  name : string;
  mandatory : bool;
  isHidden : bool;
  isFutureDate : bool;
  inputType : string;
  fieldType : string;
  dropDownValues : option string;
}.

Record SubSection := mkSubSection {
  subName : string;
  minImageCapture : Z;
  maxImageCapture : Z;
  subIsPrePopulateData : bool;
  fields : list FormField;
}.

Record Section := mkSection {
  secName : string;
  secIsPrePopulateData : bool;
  subSections : list SubSection;
}.

Record DependentSectionDetail := mkRule {
  ruleValue : string;
  sectionName : string;
  fieldName : string;
  dependentSectionValue : string;
}.

(** [formData.data.templateWrap] *)
Record FormData := mkFormData {
  sections : list Section;
  dependentSectionsDetails : list DependentSectionDetail;
}.

(** ** [getFieldKey] *)

(** [field.sfField || field.order], interpolated into the template.  The
    type declares [order] a number; [None] is a [null] in its place and is
    printed as one (a member missing altogether would be printed
    [undefined]). *)
Definition refOrOrder (field : FormField) : string :=
  if isEmpty (sfField field) then
    match order field with
    | Some n => numberToString n
    | None => "null"
    end
  else sfField field.

Definition getFieldKey (sectionName subSectionName : string) (field : FormField) : string :=
  sectionName +++ "__" +++ subSectionName +++ "__" +++ name field +++ "__" +++ refOrOrder field.

(** ** Objects whose key order is observed

    A plain object keeps its string keys in insertion order; assigning to a
    key that is already present keeps its place.  (Keys that are canonical
    array indices would come first; every key written by the engine comes
    from [getFieldKey] and contains the separator, so none is one.) *)

Module Obj.

Fixpoint set {A} (k : string) (v : A) (o : list (string * A)) : list (string * A) :=
  match o with
  | [] => [(k, v)]
  | (k', v') :: o' =>
      if decide (k' = k) then (k, v) :: o' else (k', v') :: set k v o'
  end.

Fixpoint get {A} (k : string) (o : list (string * A)) : option A :=
  match o with
  | [] => None
  | (k', v') :: o' => if decide (k' = k) then Some v' else get k o'
  end.

(** [delete o[k]]: no entry for [k] remains; the others keep their order. *)
Fixpoint delete {A} (k : string) (o : list (string * A)) : list (string * A) :=
  match o with
  | [] => []
  | (k', v') :: o' => if decide (k' = k) then delete k o' else (k', v') :: delete k o'
  end.

(** [Object.keys(o)] *)
Definition keys {A} (o : list (string * A)) : list string := map fst o.

End Obj.

(** ** Component state: the four [useState] cells *)

Record State := mkState {
  formValues : gmap string JsValue;
  errors : list (string * string);
  visibleSections : gset string;
  expandedSections : gset string;
}.

Definition initialState : State := mkState ∅ [] ∅ ∅.

Definition setFormValues (f : gmap string JsValue -> gmap string JsValue) (st : State) : State :=
  mkState (f (formValues st)) (errors st) (visibleSections st) (expandedSections st).

Definition setErrors (f : list (string * string) -> list (string * string)) (st : State) : State :=
  mkState (formValues st) (f (errors st)) (visibleSections st) (expandedSections st).

Definition setVisibleSections (f : gset string -> gset string) (st : State) : State :=
  mkState (formValues st) (errors st) (f (visibleSections st)) (expandedSections st).

Definition setExpandedSections (f : gset string -> gset string) (st : State) : State :=
  mkState (formValues st) (errors st) (visibleSections st) (f (expandedSections st)).

(** ** The initialising effect *)

Record InitAcc := mkInitAcc {
  initialValues : gmap string JsValue;
  initialVisible : gset string;
  initialExpanded : gset string;
}.

(** [field.value || ''] *)
Definition defaultValue (field : FormField) : string := default "" (value field).

Definition initField (section : Section) (subSection : SubSection)
    (acc : InitAcc) (field : FormField) : InitAcc :=
  let fieldKey := getFieldKey (secName section) (subName subSection) field in
  mkInitAcc (<[fieldKey := VStr (defaultValue field)]> (initialValues acc))
            (initialVisible acc) (initialExpanded acc).

Definition initSubSection (section : Section) (acc : InitAcc) (subSection : SubSection) : InitAcc :=
  let acc1 :=
    if subIsPrePopulateData subSection
    then mkInitAcc (initialValues acc) (initialVisible acc)
           ({[secName section +++ "-" +++ subName subSection]} ∪ initialExpanded acc)
    else acc in
  foldl (initField section subSection) acc1 (fields subSection).

Definition initSection (acc : InitAcc) (section : Section) : InitAcc :=
  let acc1 := mkInitAcc (initialValues acc) ({[secName section]} ∪ initialVisible acc)
                (initialExpanded acc) in
  let acc2 :=
    if secIsPrePopulateData section
    then mkInitAcc (initialValues acc1) (initialVisible acc1)
           ({[secName section]} ∪ initialExpanded acc1)
    else acc1 in
  foldl (initSubSection section) acc2 (subSections section).

(** The effect run when [formData] arrives: nothing for [null], else the
    three cells are replaced ([errors] is not touched). *)
Definition initialize (formData : option FormData) (st : State) : State :=
  match formData with
  | None => st
  | Some fd =>
      let acc := foldl initSection (mkInitAcc ∅ ∅ ∅) (sections fd) in
      mkState (initialValues acc) (errors st) (initialVisible acc) (initialExpanded acc)
  end.

(** ** [checkDependentSections] and [handleFieldChange] *)

Definition clearField (section : Section) (subSection : SubSection)
    (vals : gmap string JsValue) (field : FormField) : gmap string JsValue :=
  <[getFieldKey (secName section) (subName subSection) field := VStr ""]> vals.

Definition clearSubSection (section : Section)
    (vals : gmap string JsValue) (subSection : SubSection) : gmap string JsValue :=
  foldl (clearField section subSection) vals (fields subSection).

(** The body of the inner [sections.forEach]: clear the section when it
    carries the dependent name. *)
Definition clearSection (dependent : string)
    (vals : gmap string JsValue) (section : Section) : gmap string JsValue :=
  if decide (secName section = dependent)
  then foldl (clearSubSection section) vals (subSections section)
  else vals.

Definition ruleMatches (sectionName' fieldName' : option string)
    (rule : DependentSectionDetail) : bool :=
  bool_decide (Some (sectionName rule) = sectionName')
  && bool_decide (Some (fieldName rule) = fieldName').

(** The body of [dependentRules.forEach]; the queued updaters run in
    order, so the state is threaded through. *)
Definition applyRule (fd : FormData) (sectionName' fieldName' : option string)
    (v : JsValue) (st : State) (rule : DependentSectionDetail) : State :=
  if ruleMatches sectionName' fieldName' rule then
    if Value.strictEqStr v (ruleValue rule) then
      setVisibleSections (fun prev => {[dependentSectionValue rule]} ∪ prev) st
    else
      let st1 := setVisibleSections (fun prev => prev ∖ {[dependentSectionValue rule]}) st in
      setFormValues
        (fun prev => foldl (clearSection (dependentSectionValue rule)) prev (sections fd)) st1
  else st.

Definition checkDependentSections (formData : option FormData)
    (fieldKey : string) (v : JsValue) (st : State) : State :=
  match formData with
  | None => st
  | Some fd =>
      let fieldParts := split_dunder fieldKey in
      let sectionName' := fieldParts !! 0%nat in
      let fieldName' := fieldParts !! 3%nat in
      foldl (applyRule fd sectionName' fieldName' v) st (dependentSectionsDetails fd)
  end.

Definition handleFieldChange (formData : option FormData)
    (fieldKey : string) (v : JsValue) (st : State) : State :=
  let st1 := setFormValues (fun prev => <[fieldKey := v]> prev) st in
  let st2 :=
    match Obj.get fieldKey (errors st) with
    | Some msg =>
        if isEmpty msg then st1
        else setErrors (fun prev => Obj.delete fieldKey prev) st1
    | None => st1
    end in
  match formData with
  | Some _ => checkDependentSections formData fieldKey v st2
  | None => st2
  end.

(** ** [toggleSection] *)

Definition toggleSection (sectionName' : string) (st : State) : State :=
  setExpandedSections
    (fun prev =>
       if bool_decide (sectionName' ∈ prev)
       then prev ∖ {[sectionName']}
       else {[sectionName']} ∪ prev)
    st.

(** ** [validateForm] *)

(** [Array.prototype.forEach] with a body that may throw. *)
Fixpoint forEachM {A S} (f : S -> A -> Result S) (l : list A) (s : S) : Result S :=
  match l with
  | [] => Ok s
  | x :: l' => s' ← f s x; forEachM f l' s'
  end.

(** A schema string that is present and non-empty *)
Definition truthyStr (s : option string) : bool :=
  match s with
  | Some s => negb (isEmpty s)
  | None => false
  end.

(** [isNaN(Number(v))] *)
Definition numberIsNaN (v : JsValue) : bool :=
  match v with
  | VBool _ => false
  | _ => stringIsNaN (Value.toString v)
  end.

Definition nameSuggestsPhone (field : FormField) : bool :=
  includes "phone" (toLowerCase (name field))
  || includes "mobile" (toLowerCase (name field)).

Section Validation.

(** The host's [Date.parse] on a string ([None] is [NaN]); outside the ISO
    forms its result is left to the implementation by the language. *)
Variable dateParse : string -> option Z.

(** The reading of the clock taken by [new Date()], in milliseconds. *)
Variable now : Z.

(** The values and the visibility the function closes over. *)
Variable values : gmap string JsValue.
Variable visible : gset string.

(** The time value of [new Date(v)] *)
Definition timeValue (v : JsValue) : option Z :=
  match v with
  | VBool b => Some (if b then 1 else 0)
  | _ => dateParse (Value.toString v)
  end.

Definition mandatoryCheck (field : FormField) (fieldKey : string) (v : JsValue)
    (newErrors : list (string * string)) : Result (list (string * string)) :=
  if mandatory field then
    t ← Value.trim v;
    if isEmpty t
    then Ok (Obj.set fieldKey (name field +++ " is required") newErrors)
    else Ok newErrors
  else Ok newErrors.

Definition maxLengthCheck (field : FormField) (fieldKey : string) (v : JsValue)
    (newErrors : list (string * string)) : list (string * string) :=
  if Value.truthy v && truthyStr (valueLength field) then
    let maxLength := parseInt (default "" (valueLength field)) in
    if Value.lengthGt v maxLength
    then Obj.set fieldKey
           (name field +++ " must be at most "
              +++ numberToString (default 0 maxLength) +++ " characters") newErrors
    else newErrors
  else newErrors.

Definition minLengthCheck (field : FormField) (fieldKey : string) (v : JsValue)
    (newErrors : list (string * string)) : list (string * string) :=
  if Value.truthy v && truthyStr (valueMinLength field) then
    let minLength := parseInt (default "" (valueMinLength field)) in
    if Value.lengthLt v minLength
    then Obj.set fieldKey
           (name field +++ " must be at least "
              +++ numberToString (default 0 minLength) +++ " characters") newErrors
    else newErrors
  else newErrors.

Definition numberCheck (field : FormField) (fieldKey : string) (v : JsValue)
    (newErrors : list (string * string)) : list (string * string) :=
  if String.eqb (inputType field) "NUMBER" && Value.truthy v then
    if numberIsNaN v
    then Obj.set fieldKey (name field +++ " must be a valid number") newErrors
    else newErrors
  else newErrors.

Definition dateCheck (field : FormField) (fieldKey : string) (v : JsValue)
    (newErrors : list (string * string)) : list (string * string) :=
  if String.eqb (inputType field) "DATE" && Value.truthy v then
    let date := timeValue v in
    let e1 :=
      match date with
      | None => Obj.set fieldKey (name field +++ " must be a valid date") newErrors
      | Some _ => newErrors
      end in
    if negb (isFutureDate field) && match date with Some t => now <? t | None => false end
    then Obj.set fieldKey (name field +++ " cannot be a future date") e1
    else e1
  else newErrors.

Definition imageCheck (subSection : SubSection) (field : FormField) (fieldKey : string)
    (v : JsValue) (newErrors : list (string * string)) : list (string * string) :=
  if String.eqb (fieldType field) "IMAGE" && mandatory field then
    let count := Value.coercedCount v in
    let e1 :=
      if count =? 0
      then Obj.set fieldKey
             (name field +++ " is required. Please upload at least one image.") newErrors
      else newErrors in
    let minImages := minImageCapture subSection in
    let e2 :=
      if (0 <? minImages) && (count <? minImages)
      then Obj.set fieldKey
             (name field +++ " requires at least "
                +++ numberToString minImages +++ " image(s).") e1
      else e1 in
    let maxImages := maxImageCapture subSection in
    if (0 <? maxImages) && (maxImages <? count)
    then Obj.set fieldKey
           (name field +++ " allows maximum "
              +++ numberToString maxImages +++ " image(s).") e2
    else e2
  else newErrors.

Definition videoCheck (field : FormField) (fieldKey : string) (v : JsValue)
    (newErrors : list (string * string)) : list (string * string) :=
  if String.eqb (fieldType field) "VIDEO" && mandatory field then
    if Value.coercedCount v =? 0
    then Obj.set fieldKey
           (name field +++ " is required. Please upload at least one video.") newErrors
    else newErrors
  else newErrors.

Definition emailCheck (field : FormField) (fieldKey : string) (v : JsValue)
    (newErrors : list (string * string)) : Result (list (string * string)) :=
  if String.eqb (inputType field) "TEXT" && Value.truthy v then
    hasAt ← Value.includesAt v;
    if hasAt && negb (emailRegexTest (Value.toString v))
    then Ok (Obj.set fieldKey (name field +++ " must be a valid email address") newErrors)
    else Ok newErrors
  else Ok newErrors.

Definition phoneCheck (field : FormField) (fieldKey : string) (v : JsValue)
    (newErrors : list (string * string)) : Result (list (string * string)) :=
  if String.eqb (inputType field) "NUMBER" && Value.truthy v && nameSuggestsPhone field then
    digits ← Value.stripNonDigits v;
    if negb (phoneRegexTest digits)
    then Ok (Obj.set fieldKey
               (name field +++ " must be a valid 10-digit phone number") newErrors)
    else Ok newErrors
  else Ok newErrors.

(** The body of [subSection.fields.forEach] *)
Definition validateField (section : Section) (subSection : SubSection)
    (newErrors : list (string * string)) (field : FormField)
    : Result (list (string * string)) :=
  if isHidden field then Ok newErrors
  else
    let fieldKey := getFieldKey (secName section) (subName subSection) field in
    let v := Value.orEmpty (values !! fieldKey) in
    e1 ← mandatoryCheck field fieldKey v newErrors;
    let e2 := maxLengthCheck field fieldKey v e1 in
    let e3 := minLengthCheck field fieldKey v e2 in
    let e4 := numberCheck field fieldKey v e3 in
    let e5 := dateCheck field fieldKey v e4 in
    let e6 := imageCheck subSection field fieldKey v e5 in
    let e7 := videoCheck field fieldKey v e6 in
    e8 ← emailCheck field fieldKey v e7;
    phoneCheck field fieldKey v e8.

Definition validateSubSection (section : Section)
    (newErrors : list (string * string)) (subSection : SubSection)
    : Result (list (string * string)) :=
  forEachM (validateField section subSection) (fields subSection) newErrors.

(** The body of [sections.forEach] *)
Definition validateSection (newErrors : list (string * string)) (section : Section)
    : Result (list (string * string)) :=
  if bool_decide (secName section ∈ visible)
  then forEachM (validateSubSection section) (subSections section) newErrors
  else Ok newErrors.

(** The error object built by the walk *)
Definition collectErrors (fd : FormData) : Result (list (string * string)) :=
  forEachM validateSection (sections fd) [].

End Validation.

Record ValidationResult := mkValidation {
  isValid : bool;
  resultErrors : list (string * string);
}.

(** [validateForm], run at clock reading [now] in state [st]: the state it
    leaves and what it returns, or the exception it lets escape (before
    [setErrors] is reached). *)
Definition validateForm (dateParse : string -> option Z) (now : Z)
    (formData : option FormData) (st : State) : Result (State * ValidationResult) :=
  match formData with
  | None => Ok (st, mkValidation false [])
  | Some fd =>
      newErrors ← collectErrors dateParse now (formValues st) (visibleSections st) fd;
      Ok (setErrors (fun _ => newErrors) st,
          mkValidation (bool_decide (List.length (Obj.keys newErrors) = 0%nat)) newErrors)
  end.

(** ** The effects of [handleSubmit] *)

(** What the handler does to the outside: the submission callback, and
    what the callback of its timer does to the document.
    [ScrollIntoView k]: the first mounted element whose [data-field-key]
    is [k] is scrolled into view.  [QuerySelector sel]: the document is
    queried with [sel], which is not a plain test of the attribute, and the
    element found, if any, is scrolled into view; what such a selector
    finds is the host's to say. *)
Inductive Effect :=
| OnSubmit (submitted : gmap string JsValue)
| ScrollIntoView (fieldKey : string)
| QuerySelector (selector : string).

(** ** Walks over the schema *)

Definition Triple : Type := Section * SubSection * FormField.

Definition tripleKey (t : Triple) : string :=
  getFieldKey (secName t.1.1) (subName t.1.2) t.2.

Definition subSectionTriples (section : Section) (subSection : SubSection) : list Triple :=
  map (fun field => (section, subSection, field)) (fields subSection).

Definition sectionTriples (section : Section) : list Triple :=
  subSections section ≫= subSectionTriples section.

(** Every field with its section and subsection, in the order in which the
    nested [forEach] loops of the initialiser visit them. *)
Definition allFields (fd : FormData) : list Triple :=
  sections fd ≫= sectionTriples.

Definition fieldKeys (fd : FormData) : list string := map tripleKey (allFields fd).

Definition sectionVisible (visible : gset string) (section : Section) : bool :=
  bool_decide (secName section ∈ visible).

Definition notHidden (t : Triple) : bool := negb (isHidden t.2).

(** The fields [validateForm] checks, in the order in which it reaches
    them: visible sections, every subsection, fields that are not hidden,
    each list in its own order. *)
Definition validationWalk (visible : gset string) (fd : FormData) : list Triple :=
  filter (fun t => notHidden t = true)
    (filter (fun s => sectionVisible visible s = true) (sections fd) ≫= sectionTriples).

(** [(a.order || 0)], the sort key of [FormSection.tsx] *)
Definition orderOrZero (field : FormField) : Z := default 0 (order field).

Fixpoint insertByOrder (x : FormField) (l : list FormField) : list FormField :=
  match l with
  | [] => [x]
  | y :: l' =>
      if orderOrZero x <=? orderOrZero y then x :: y :: l'
      else y :: insertByOrder x l'
  end.

(** [fields.sort((a, b) => (a.order || 0) - (b.order || 0))]: ascending and
    stable, an earlier field staying before a later one of the same order. *)
Definition sortByOrder (l : list FormField) : list FormField :=
  foldr insertByOrder [] l.

(** The walk order of the specification (its section 4.5): sections and
    subsections in list order, fields of a subsection sorted by ascending
    order index, ties broken by list position. *)
Definition sortedWalk (visible : gset string) (fd : FormData) : list Triple :=
  filter (fun t => notHidden t = true)
    (filter (fun s => sectionVisible visible s = true) (sections fd) ≫=
       fun section => subSections section ≫=
       fun subSection =>
         map (fun field => (section, subSection, field)) (sortByOrder (fields subSection))).

(** The body of the innermost validation loop, on a walked field *)
Definition walkStep (dateParse : string -> option Z) (now : Z)
    (values : gmap string JsValue) (e : list (string * string)) (t : Triple)
    : Result (list (string * string)) :=
  validateField dateParse now values t.1.1 t.1.2 e t.2.

(** The value a walked field has in the store, as [validateForm] reads it *)
Definition storedValue (values : gmap string JsValue) (t : Triple) : JsValue :=
  Value.orEmpty (values !! tripleKey t).

(** ** Reading the outcome of the checks *)

(** The message, if any, that the checks of one field leave under its key
    when started on an empty error object. *)
Definition fieldMessage (dateParse : string -> option Z) (now : Z)
    (values : gmap string JsValue) (t : Triple) : Result (option string) :=
  e ← validateField dateParse now values t.1.1 t.1.2 [] t.2;
  Ok (Obj.get (tripleKey t) e).

(** The field fails: its checks run to the end and leave a message. *)
Definition fieldFails (dateParse : string -> option Z) (now : Z)
    (values : gmap string JsValue) (t : Triple) : bool :=
  match fieldMessage dateParse now values t with
  | Ok (Some _) => true
  | _ => false
  end.

(** [newErrors[key] = msg] when there is a message, nothing otherwise *)
Definition assign (key : string) (msg : option string)
    (e : list (string * string)) : list (string * string) :=
  match msg with
  | Some m => Obj.set key m e
  | None => e
  end.

(** A step on the error object that does nothing but assign, or not, one
    message under [key], whatever the object it is given. *)
Definition assignsOnly (key : string)
    (g : list (string * string) -> list (string * string)) : Prop :=
  exists msg, forall e, g e = assign key msg e.

(** The same for a step that may throw; whether it throws does not depend
    on the object either. *)
Definition assignsOnlyM (key : string)
    (g : list (string * string) -> Result (list (string * string))) : Prop :=
  (exists err, forall e, g e = Throw err)
  \/ (exists msg, forall e, g e = Ok (assign key msg e)).

Definition minCountMessage (subSection : SubSection) (field : FormField) : string :=
  name field +++ " requires at least "
    +++ numberToString (minImageCapture subSection) +++ " image(s).".

Definition maxCountMessage (subSection : SubSection) (field : FormField) : string :=
  name field +++ " allows maximum "
    +++ numberToString (maxImageCapture subSection) +++ " image(s).".

(** Every message of an error object is a non-empty string. *)
Definition messagesNonEmpty (e : list (string * string)) : Prop :=
  Forall (fun p => isEmpty p.2 = false) e.

(** Every stored value is a string. *)
Definition allStrings (values : gmap string JsValue) : Prop :=
  forall k v, values !! k = Some v -> exists s, v = VStr s.


(** What a handler did to the outside, without the state it left *)
Definition effectsOf (r : Result (State * list Effect)) : Result (list Effect) :=
  match r with
  | Ok p => Ok p.2
  | Throw e => Throw e
  end.

(** What [validateForm] returned, without the state it left *)
Definition returnedBy (r : Result (State * ValidationResult)) : Result ValidationResult :=
  match r with
  | Ok p => Ok p.2
  | Throw e => Throw e
  end.

(** The submission callback was invoked. *)
Definition submitted (effs : list Effect) : Prop :=
  exists vals, OnSubmit vals ∈ effs.

(** No date field of the schema forbids future dates. *)
Definition noFutureDateLimit (fd : FormData) : Prop :=
  Forall (fun t : Triple =>
            String.eqb (inputType t.2) "DATE" = true -> isFutureDate t.2 = true)
         (allFields fd).

(** ** Conditions on the parts of a key *)

(** [s.endsWith('_')] *)
Fixpoint endsWithUnderscore (s : string) : bool :=
  match s with
  | EmptyString => false
  | String a EmptyString => isChar "_" a
  | String _ s' => endsWithUnderscore s'
  end.

Definition hasSeparator (s : string) : bool := includes "__" s.

(** A name that the separator cannot run into: it holds no separator and
    does not end in an underscore. *)
Definition separable (s : string) : bool :=
  negb (hasSeparator s) && negb (endsWithUnderscore s).

(** The four strings [getFieldKey] joins *)
Definition keyParts (sectionName subSectionName : string) (field : FormField)
    : string * string * string * string :=
  (sectionName, subSectionName, name field, refOrOrder field).

(** The four parts of a walked field, and the key as their join *)
Definition tripleParts (t : Triple) : string * string * string * string :=
  keyParts (secName t.1.1) (subName t.1.2) t.2.

Definition joinParts (p : string * string * string * string) : string :=
  p.1.1.1 +++ "__" +++ p.1.1.2 +++ "__" +++ p.1.2 +++ "__" +++ p.2.

Definition separableNames (t : Triple) : Prop :=
  separable (secName t.1.1) = true /\ separable (subName t.1.2) = true
  /\ separable (name t.2) = true.

(** ** Reading the initialiser *)

(** [initialValues[fieldKey] = field.value || ''] on a walked field *)
Definition writeDefault (m : gmap string JsValue) (t : Triple) : gmap string JsValue :=
  <[tripleKey t := VStr (defaultValue t.2)]> m.

(** The key under which a subsection is expanded *)
Definition subSectionKey (section : Section) (subSection : SubSection) : string :=
  secName section +++ "-" +++ subName subSection.

Definition expandedOfSubSection (section : Section) (subSection : SubSection) : list string :=
  if subIsPrePopulateData subSection then [subSectionKey section subSection] else [].

Definition expandedOfSection (section : Section) : list string :=
  (if secIsPrePopulateData section then [secName section] else [])
  ++ (subSections section ≫= expandedOfSubSection section).

(** The fields of the walk that carry the key [k] *)
Definition fieldsWithKey (k : string) (l : list Triple) : list Triple :=
  filter (fun t => tripleKey t = k) l.

(** ** Reading the resolver *)

(** [formValues[key] = ''] on a walked field *)
Definition clearTriple (m : gmap string JsValue) (t : Triple) : gmap string JsValue :=
  <[tripleKey t := VStr ""]> m.

(** The fields of the sections that carry the name [dependent] *)
Definition dependentTriples (dependent : string) (fd : FormData) : list Triple :=
  filter (fun s => secName s = dependent) (sections fd) ≫= sectionTriples.

(** The rule is triggered by the changed field. *)
Definition triggeredBy (fieldKey : string) (rule : DependentSectionDetail) : bool :=
  ruleMatches (split_dunder fieldKey !! 0%nat) (split_dunder fieldKey !! 3%nat) rule.

(** The rule is triggered, names the section [dependent], and the new value
    is its trigger value: it shows the section. *)
Definition shows (fieldKey : string) (v : JsValue) (dependent : string)
    (rule : DependentSectionDetail) : Prop :=
  triggeredBy fieldKey rule = true
  /\ dependentSectionValue rule = dependent
  /\ Value.strictEqStr v (ruleValue rule) = true.

(** No rule is triggered by the field with this key. *)
Definition noRuleMatches (fd : FormData) (fieldKey : string) : Prop :=
  Forall (fun rule =>
            ruleMatches (split_dunder fieldKey !! 0%nat) (split_dunder fieldKey !! 3%nat) rule
            = false)
         (dependentSectionsDetails fd).

(** The body of the rule loop for the field with key [fieldKey] *)
Definition ruleStep (fd : FormData) (fieldKey : string) (v : JsValue)
    : State -> DependentSectionDetail -> State :=
  applyRule fd (split_dunder fieldKey !! 0%nat) (split_dunder fieldKey !! 3%nat) v.

(** ** A concrete host and concrete schemas, for evaluation *)

(** Days from 1970-01-01 to the given civil date (proleptic Gregorian). *)
Definition daysFromCivil (y m d : Z) : Z :=
  let y' := if m <=? 2 then y - 1 else y in
  let era := y' / 400 in
  let yoe := y' - era * 400 in
  let doy := (153 * (if 2 <? m then m - 3 else m + 9) + 2) / 5 + d - 1 in
  let doe := yoe * 365 + yoe / 4 - yoe / 100 + doy in
  era * 146097 + doe - 719468.

Definition isLeapYear (y : Z) : bool :=
  ((y mod 4 =? 0) && negb (y mod 100 =? 0)) || (y mod 400 =? 0).

Definition daysInMonth (y m : Z) : Z :=
  if m =? 2 then (if isLeapYear y then 29 else 28)
  else if (m =? 4) || (m =? 6) || (m =? 9) || (m =? 11) then 30
  else 31.

Definition digitsValue (s : string) : option Z :=
  if isDigits 10 s then parseDigits 10 None s else None.

(** [Date.parse] on the date-only ISO form [YYYY-MM-DD] (midnight UTC), the
    form a date input produces; this host rejects every other string. *)
Definition isoDateParse (s : string) : option Z :=
  if (String.length s =? 10)%nat
     && String.eqb (substring 4 1 s) "-" && String.eqb (substring 7 1 s) "-"
  then
    y ← digitsValue (substring 0 4 s);
    m ← digitsValue (substring 5 2 s);
    d ← digitsValue (substring 8 2 s);
    if (1 <=? m) && (m <=? 12) && (1 <=? d) && (d <=? daysInMonth y m)
    then Some (daysFromCivil y m d * 86400000)
    else None
  else None.

(** A Salesforce custom field: its API name ends in [__c]. *)
Definition genderField : FormField :=
  mkField None None None "Gender__c" (Some 1) "Gender" true false true "TEXT" "DROPDOWN"
    (Some "Male, Female").

(** A section meant for one answer of a dropdown that is bound to a
    Salesforce custom field *)
Definition leaveField : FormField :=
  mkField None None None "Weeks" (Some 1) "Weeks of leave" false false true "NUMBER" "INPUT" None.

Definition genderSchema : FormData :=
  mkFormData
    [mkSection "Personal" true [mkSubSection "Basic" 0 0 true [genderField]];
     mkSection "Maternity" true [mkSubSection "Leave" 0 0 true [leaveField]]]
    [mkRule "Female" "Personal" "Gender__c" "Maternity"].

Definition genderKey : string := "Personal__Basic__Gender__Gender__c".

(** Two different fields of one subsection that share name and reference. *)
Definition nameField : FormField :=
  mkField (Some "x") None None "Name" (Some 1) "Name" true false true "TEXT" "INPUT" None.

Definition nameFieldAgain : FormField :=
  mkField (Some "y") None None "Name" (Some 2) "Name" false false true "TEXT" "INPUT" None.

Definition collidingSchema : FormData :=
  mkFormData [mkSection "A" false [mkSubSection "s" 0 0 false [nameField; nameFieldAgain]]] [].

(** Two mandatory fields listed against their order indices: the first in
    the list has the larger index. *)
Definition firstInList : FormField :=
  mkField None None None "First" (Some 2) "First" true false true "TEXT" "INPUT" None.

Definition secondInList : FormField :=
  mkField None None None "Second" (Some 1) "Second" true false true "TEXT" "INPUT" None.

Definition unorderedSchema : FormData :=
  mkFormData
    [mkSection "A" true [mkSubSection "s" 0 0 true [firstInList; secondInList]]] [].

Definition unorderedState : State := initialize (Some unorderedSchema) initialState.

Definition unorderedErrors : list (string * string) :=
  [("A__s__First__First", "First is required");
   ("A__s__Second__Second", "Second is required")].

(** A mandatory image field in a subsection asking for two to three images *)
Definition photoField : FormField :=
  mkField None None None "Photo" (Some 1) "Photo" true false true "IMAGE" "IMAGE" None.

Definition photoSubSection : SubSection := mkSubSection "Docs" 2 3 true [photoField].

Definition photoSchema : FormData :=
  mkFormData [mkSection "KYC" true [photoSubSection]] [].

Definition photoKey : string := "KYC__Docs__Photo__Photo".

Definition twoPhotos : JsValue :=
  VList [mkFile "front.png" 1024; mkFile "back.png" 2048].

(** The state after the schema has arrived and the widget has stored two
    selected files under the photo field. *)
Definition twoPhotosState : State :=
  handleFieldChange (Some photoSchema) photoKey twoPhotos
    (initialize (Some photoSchema) initialState).

Definition onePhotoState : State :=
  handleFieldChange (Some photoSchema) photoKey (VFile (mkFile "front.png" 1024))
    (initialize (Some photoSchema) initialState).

(** A date of birth that may not lie in the future *)
Definition birthField : FormField :=
  mkField None None None "DOB" (Some 1) "Date of birth" false false false "DATE" "DATE_PICKER" None.

Definition birthSchema : FormData :=
  mkFormData [mkSection "Personal" true [mkSubSection "Basic" 0 0 true [birthField]]] [].

Definition birthKey : string := "Personal__Basic__Date of birth__DOB".

Definition birthState : State :=
  handleFieldChange (Some birthSchema) birthKey (VStr "2030-01-01")
    (initialize (Some birthSchema) initialState).

(** 2020-01-01 and 2031-01-01, midnight UTC *)
Definition clock2020 : Z := 1577836800000.
Definition clock2031 : Z := 1924992000000.

(** The photo field with its mandatory flag cleared *)
Definition optionalPhotoField : FormField :=
  mkField None None None "Photo" (Some 1) "Photo" false false true "IMAGE" "IMAGE" None.

Definition optionalPhotoSchema : FormData :=
  mkFormData [mkSection "KYC" true [mkSubSection "Docs" 2 3 true [optionalPhotoField]]] [].

Definition optionalOnePhotoState : State :=
  handleFieldChange (Some optionalPhotoSchema) photoKey (VFile (mkFile "front.png" 1024))
    (initialize (Some optionalPhotoSchema) initialState).

(** The mandatory photo field holding one image given by its address *)
Definition urlPhotoState : State :=
  handleFieldChange (Some photoSchema) photoKey (VStr "https://cdn.example/front.png")
    (initialize (Some photoSchema) initialState).

Definition urlPhotoErrors : list (string * string) :=
  [(photoKey, "Photo requires at least 2 image(s).")].

Definition photoTriple : Triple :=
  (mkSection "KYC" true [photoSubSection], photoSubSection, photoField).

(** Section B depends on a field of section A through two rules. *)
Definition loanField : FormField :=
  mkField None None None "HasLoan" (Some 1) "Has loan" true false true "TEXT" "RADIO"
    (Some "Yes,No,Maybe").

Definition amountField : FormField :=
  mkField (Some "1000") None None "Amount" (Some 1) "Amount" true false true "NUMBER" "INPUT" None.

Definition loanKey : string := "A__s__Has loan__HasLoan".
Definition amountKey : string := "B__t__Amount__Amount".

Definition loanSections : list Section :=
  [mkSection "A" true [mkSubSection "s" 0 0 true [loanField]];
   mkSection "B" true [mkSubSection "t" 0 0 true [amountField]]].

Definition twoRuleSchema : FormData :=
  mkFormData loanSections
    [mkRule "Yes" "A" "HasLoan" "B"; mkRule "Maybe" "A" "HasLoan" "B"].

Definition oneRuleSchema : FormData :=
  mkFormData loanSections [mkRule "Yes" "A" "HasLoan" "B"].

Definition loanState (fd : FormData) : State := initialize (Some fd) initialState.

(** The state of [unorderedSchema] after a failed validation *)
Definition failedState : State := setErrors (fun _ => unorderedErrors) unorderedState.

(** [unorderedSchema] with both mandatory fields filled in *)
Definition filledState : State :=
  handleFieldChange (Some unorderedSchema) "A__s__Second__Second" (VStr "b")
    (handleFieldChange (Some unorderedSchema) "A__s__First__First" (VStr "a") unorderedState).

(** A date that may lie in the future *)
Definition dueField : FormField :=
  mkField None None None "Due" (Some 1) "Due date" true false true "DATE" "DATE_PICKER" None.

Definition dueSchema : FormData :=
  mkFormData [mkSection "Loan" true [mkSubSection "Terms" 0 0 true [dueField]]] [].

Definition dueState : State :=
  handleFieldChange (Some dueSchema) "Loan__Terms__Due date__Due" (VStr "2030-01-01")
    (initialize (Some dueSchema) initialState).

(** ** Reading a whole validation pass *)

(** The entry a walked field contributes to the error object: its key with
    the message its checks leave, if they leave one. *)
Definition fieldEntry (dateParse : string -> option Z) (now : Z)
    (values : gmap string JsValue) (t : Triple) : option (string * string) :=
  match fieldMessage dateParse now values t with
  | Ok (Some m) => Some (tripleKey t, m)
  | _ => None
  end.

Definition isString (v : JsValue) : bool :=
  match v with VStr _ => true | _ => false end.

(** The checks of a field, run on the value [v] read from the store, call a
    string method on something that is not a string: [trim] under the
    mandatory flag, [includes] on a text input (an array has it, a [File]
    and a boolean do not), [replace] on a numeric input named like a phone
    number. *)
Definition fieldThrows (field : FormField) (v : JsValue) : bool :=
  mandatory field && negb (isString v)
  || String.eqb (inputType field) "TEXT" && Value.truthy v
     && match v with VBool _ | VFile _ => true | _ => false end
  || String.eqb (inputType field) "NUMBER" && Value.truthy v
     && nameSuggestsPhone field && negb (isString v).

(** The stored value is a string with something other than white space. *)
Definition filledIn (v : JsValue) : Prop :=
  exists s, v = VStr s /\ isEmpty (trim s) = false.

(** The messages of the checks *)
Definition requiredMessage (field : FormField) : string := name field +++ " is required".

Definition requiredImageMessage (field : FormField) : string :=
  name field +++ " is required. Please upload at least one image.".

Definition requiredVideoMessage (field : FormField) : string :=
  name field +++ " is required. Please upload at least one video.".

Definition maxLengthMessage (field : FormField) : string :=
  name field +++ " must be at most "
    +++ numberToString (default 0 (parseInt (default "" (valueLength field))))
    +++ " characters".

Definition minLengthMessage (field : FormField) : string :=
  name field +++ " must be at least "
    +++ numberToString (default 0 (parseInt (default "" (valueMinLength field))))
    +++ " characters".

Definition numberMessage (field : FormField) : string :=
  name field +++ " must be a valid number".

Definition invalidDateMessage (field : FormField) : string :=
  name field +++ " must be a valid date".

Definition futureDateMessage (field : FormField) : string :=
  name field +++ " cannot be a future date".

Definition emailMessage (field : FormField) : string :=
  name field +++ " must be a valid email address".

Definition phoneMessage (field : FormField) : string :=
  name field +++ " must be a valid 10-digit phone number".

(** [value.length > parseInt(field.valueLength)] on a string, when the
    bound is declared and non-empty *)
Definition tooLong (field : FormField) (s : string) : bool :=
  truthyStr (valueLength field)
  && Value.lengthGt (VStr s) (parseInt (default "" (valueLength field))).

Definition tooShort (field : FormField) (s : string) : bool :=
  truthyStr (valueMinLength field)
  && Value.lengthLt (VStr s) (parseInt (default "" (valueMinLength field))).

(** The mandatory image check can fire on a field. *)
Definition mandatoryImage (field : FormField) : bool :=
  String.eqb (fieldType field) "IMAGE" && mandatory field.

(** The numbers that the messages of a field can show are ones that the
    source prints digit by digit: the two length bounds as [parseInt] reads
    them, and the minimum image count of the subsection. *)
Definition safeLimit (bound : option string) : bool :=
  match parseInt (default "" bound) with
  | Some n => safeInteger n
  | None => true
  end.

Definition printsExactly (subSection : SubSection) (field : FormField) : Prop :=
  safeLimit (valueLength field) = true /\ safeLimit (valueMinLength field) = true
  /\ safeInteger (minImageCapture subSection) = true.

(** What the mandatory and the two length checks leave for a non-empty
    string, the later check winning. *)
Definition lengthOutcome (field : FormField) (s : string) : option string :=
  if tooShort field s then Some (minLengthMessage field)
  else if tooLong field s then Some (maxLengthMessage field)
  else if mandatory field && isEmpty (trim s) then Some (requiredMessage field)
  else None.

(** What the checks of a field leave for a non-empty string [s], read from
    the last check to the first: the last check that fires wins. *)
Definition stringOutcome (dateParse : string -> option Z) (now : Z)
    (subSection : SubSection) (field : FormField) (s : string) : option string :=
  if String.eqb (inputType field) "NUMBER" && nameSuggestsPhone field
     && negb (phoneRegexTest (stripNonDigits s))
  then Some (phoneMessage field)
  else if String.eqb (inputType field) "TEXT" && includes "@" s && negb (emailRegexTest s)
  then Some (emailMessage field)
  else if mandatoryImage field && (1 <? minImageCapture subSection)
  then Some (minCountMessage subSection field)
  else if String.eqb (inputType field) "DATE" then
    match dateParse s with
    | None => Some (invalidDateMessage field)
    | Some d =>
        if negb (isFutureDate field) && (now <? d) then Some (futureDateMessage field)
        else lengthOutcome field s
    end
  else if String.eqb (inputType field) "NUMBER" && stringIsNaN s
  then Some (numberMessage field)
  else lengthOutcome field s.

(** A numeric field named like a phone number, holding five digits *)
Definition mobileField : FormField :=
  mkField None None (Some "15") "Mobile" (Some 1) "Mobile Number" true false true
    "NUMBER" "INPUT" None.

Definition mobileSchema : FormData :=
  mkFormData [mkSection "Contact" true [mkSubSection "Phone" 0 0 true [mobileField]]] [].

Definition mobileTriple : Triple :=
  (mkSection "Contact" true [mkSubSection "Phone" 0 0 true [mobileField]],
   mkSubSection "Phone" 0 0 true [mobileField], mobileField).

Definition mobileKey : string := "Contact__Phone__Mobile Number__Mobile".

Definition mobileState (s : string) : State :=
  handleFieldChange (Some mobileSchema) mobileKey (VStr s)
    (initialize (Some mobileSchema) initialState).

(** A mandatory checkbox, ticked *)
Definition consentField : FormField :=
  mkField None None None "Consent" (Some 1) "Consent" true false true "" "CHECKBOX" None.

Definition consentSchema : FormData :=
  mkFormData [mkSection "Terms" true [mkSubSection "Agree" 0 0 true [consentField]]] [].

Definition consentTriple : Triple :=
  (mkSection "Terms" true [mkSubSection "Agree" 0 0 true [consentField]],
   mkSubSection "Agree" 0 0 true [consentField], consentField).

Definition consentState : State :=
  handleFieldChange (Some consentSchema) "Terms__Agree__Consent__Consent" (VBool true)
    (initialize (Some consentSchema) initialState).

Definition firstTriple : Triple :=
  (mkSection "A" true [mkSubSection "s" 0 0 true [firstInList; secondInList]],
   mkSubSection "s" 0 0 true [firstInList; secondInList], firstInList).

(** A run of edits that store strings *)
Definition typeAll (fd : FormData) (edits : list (string * string)) (st : State) : State :=
  foldl (fun st edit => handleFieldChange (Some fd) edit.1 (VStr edit.2) st) st edits.

Definition secondTriple : Triple :=
  (mkSection "A" true [mkSubSection "s" 0 0 true [firstInList; secondInList]],
   mkSubSection "s" 0 0 true [firstInList; secondInList], secondInList).

Definition mobileErrors : list (string * string) :=
  [(mobileKey, "Mobile Number must be a valid 10-digit phone number")].

(** ** Reading the resolver, continued *)

(** The rule, triggered by the changed field, hides and clears its section. *)
Definition hides (fieldKey : string) (v : JsValue) (rule : DependentSectionDetail) : Prop :=
  triggeredBy fieldKey rule = true /\ Value.strictEqStr v (ruleValue rule) = false.

(** A triggered rule of the list names the section [x]. *)
Definition namedByTriggered (fieldKey : string) (x : string)
    (rules : list DependentSectionDetail) : Prop :=
  exists rule, rule ∈ rules /\ triggeredBy fieldKey rule = true
               /\ dependentSectionValue rule = x.

(** ** Rendering: [FormSection.tsx] and the [return] of [DynamicForm]

    What is painted is left out; kept is which field widgets are mounted,
    in which order, and with which key, value and error. *)

Record Widget := mkWidget {
  widgetField : FormField;
  widgetKey : string;
  widgetValue : JsValue;
  widgetError : option string;
}.

(** [FormFieldRenderer]: [null] for a hidden field *)
Definition renderField (w : Widget) : option Widget :=
  if isHidden (widgetField w) then None else Some w.

(** [subSection.fields.filter((field) => !field.isHidden)] *)
Definition visibleFields (subSection : SubSection) : list FormField :=
  filter (fun field => isHidden field = false) (fields subSection).

(** [SubSectionComponent]: [null] without a field to show; the fields,
    sorted on a copy, when the subsection is expanded. *)
Definition renderSubSection (st : State) (sectionName' : string)
    (subSection : SubSection) : list Widget :=
  let subSectionKey' := sectionName' +++ "-" +++ subName subSection in
  let isExpanded := bool_decide (subSectionKey' ∈ expandedSections st) in
  if (List.length (visibleFields subSection) =? 0)%nat then []
  else if isExpanded then
    omap (fun field =>
            let fieldKey := getFieldKey sectionName' (subName subSection) field in
            renderField
              (mkWidget field fieldKey (Value.orEmpty (formValues st !! fieldKey))
                 (Obj.get fieldKey (errors st))))
         (sortByOrder (visibleFields subSection))
  else [].

(** [FormSection] *)
Definition renderSection (st : State) (section : Section) : list Widget :=
  if bool_decide (secName section ∈ expandedSections st)
  then subSections section ≫= renderSubSection st (secName section)
  else [].

(** The form of [DynamicForm], or the loading placeholder *)
Definition renderForm (formData : option FormData) (st : State) : list Widget :=
  match formData with
  | None => []
  | Some fd =>
      filter (fun section => secName section ∈ visibleSections st) (sections fd)
        ≫= renderSection st
  end.

(** The widget of a field in a state *)
Definition widgetOf (st : State) (section : Section) (subSection : SubSection)
    (field : FormField) : Widget :=
  mkWidget field (getFieldKey (secName section) (subName subSection) field)
    (Value.orEmpty (formValues st !! getFieldKey (secName section) (subName subSection) field))
    (Obj.get (getFieldKey (secName section) (subName subSection) field) (errors st)).

(** Ascending order index *)
Definition byOrder (a b : FormField) : Prop := orderOrZero a <= orderOrZero b.

(** No section and no subsection is flagged to start expanded. *)
Definition nothingPrePopulated (fd : FormData) : Prop :=
  Forall (fun section =>
            secIsPrePopulateData section = false
            /\ Forall (fun subSection => subIsPrePopulateData subSection = false)
                 (subSections section))
         (sections fd).

(** ** The attachment widgets ([FormFieldRenderer.tsx])

    [renderImageUpload] and [renderVideoUpload] are the same code up to
    their constants, kept here in an [AttachmentKind].  The value prop is
    taken in the shapes the handlers themselves and the initialiser store:
    a string (an address, or the empty string), one picked file, or an
    array of such items. *)

(** A file picked in the browser: the [File] and the MIME type it reports *)
Record Picked := mkPicked { pickedFile : File; pickedType : string }.

Inductive Item :=
| IUrl (s : string)
| IFile (p : Picked).

Inductive Held :=
| HStr (s : string)
| HFile (p : Picked)
| HList (l : list Item).

Record AttachmentKind := mkKind {
  acceptedTypes : list string;
  maxSizeMB : Z;
  defaultMaxFiles : Z;
  kindWords : string;
}.

Definition imageKind : AttachmentKind :=
  mkKind ["image/jpeg"; "image/jpg"; "image/png"; "image/gif"; "image/webp"] 5 10
    "images (JPEG, PNG, GIF, WebP)".

Definition videoKind : AttachmentKind :=
  mkKind ["video/mp4"; "video/webm"; "video/ogg"; "video/quicktime"] 50 5
    "videos (MP4, WebM, OGG, MOV)".

(** [Array.isArray(value) ? value : (value ? [value] : [])] *)
Definition fileList (value : Held) : list Item :=
  match value with
  | HList l => l
  | HStr s => if isEmpty s then [] else [IUrl s]
  | HFile p => [IFile p]
  end.

(** [field.valueLength ? parseInt(field.valueLength) : <default>];
    [None] is [NaN] *)
Definition maxFiles (kind : AttachmentKind) (field : FormField) : option Z :=
  if truthyStr (valueLength field) then parseInt (default "" (valueLength field))
  else Some (defaultMaxFiles kind).

Definition typeAccepted (kind : AttachmentKind) (p : Picked) : bool :=
  bool_decide (pickedType p ∈ acceptedTypes kind).

Definition sizeAccepted (kind : AttachmentKind) (p : Picked) : bool :=
  negb (maxSizeMB kind * 1024 * 1024 <? fileSize (pickedFile p)).

(** The body of [files.forEach]: the valid files and the complaints so far *)
Definition checkFile (kind : AttachmentKind)
    (acc : list Picked * list string) (p : Picked) : list Picked * list string :=
  if negb (typeAccepted kind p) then
    (acc.1,
     (acc.2 ++ [fileName (pickedFile p) +++ ": Invalid file type. Only "
                  +++ kindWords kind +++ " are allowed."])%list)
  else if negb (sizeAccepted kind p) then
    (acc.1,
     (acc.2 ++ [fileName (pickedFile p) +++ ": File size exceeds "
                  +++ numberToString (maxSizeMB kind) +++ "MB limit."])%list)
  else ((acc.1 ++ [p])%list, acc.2).

(** [newFiles.length === 1 ? newFiles[0] : newFiles] *)
Definition shape (newFiles : list Item) : Held :=
  match newFiles with
  | [IUrl s] => HStr s
  | [IFile p] => HFile p
  | _ => HList newFiles
  end.

Definition newline : string := String (ascii_of_nat 10) EmptyString.

(** [handleFileChange]: the text of the alert, if one is raised, and the
    value handed to [onChange]. *)
Definition handleFileChange (kind : AttachmentKind) (field : FormField)
    (value : Held) (files : list Picked) : option string * Held :=
  let checked := foldl (checkFile kind) ([], []) files in
  let validFiles := checked.1 in
  let totalFiles := Z.of_nat (List.length (fileList value) + List.length validFiles) in
  let errors' :=
    match maxFiles kind field with
    | Some m =>
        if m <? totalFiles
        then (checked.2 ++ ["Maximum " +++ numberToString m +++ " file(s) allowed."])%list
        else checked.2
    | None => checked.2
    end in
  (match errors' with [] => None | _ => Some (join newline errors') end,
   shape (fileList value ++ map IFile validFiles)%list).

(** [removeFile]: the value handed to [onChange] *)
Definition removeFile (value : Held) (index : nat) : Held :=
  let newFiles :=
    match value with
    | HList l => l
    | HStr s => [IUrl s]
    | HFile p => [IFile p]
    end in
  match delete index newFiles with
  | [] => HStr ""
  | rest => shape rest
  end.

(** The same value as the engine's model of stored values sees it; a list
    that mixes addresses and files has no counterpart there. *)
Definition itemFile (i : Item) : option File :=
  match i with IFile p => Some (pickedFile p) | IUrl _ => None end.

Definition toJsValue (value : Held) : option JsValue :=
  match value with
  | HStr s => Some (VStr s)
  | HFile p => Some (VFile (pickedFile p))
  | HList l => VList <$> mapM itemFile l
  end.

(** No item is the empty address. *)
Definition noEmptyUrl (l : list Item) : Prop := IUrl "" ∉ l.

Definition validPick (kind : AttachmentKind) (p : Picked) : bool :=
  typeAccepted kind p && sizeAccepted kind p.

(** A value without a stored address: empty, one file, or a list of files *)
Definition holdsFilesOnly (value : Held) : Prop :=
  value = HStr "" \/ (exists p, value = HFile p) \/ (exists ps, value = HList (map IFile ps)).

Definition frontPng : Picked := mkPicked (mkFile "front.png" 1024) "image/png".
Definition notesPdf : Picked := mkPicked (mkFile "notes.pdf" 1024) "application/pdf".
Definition hugePng : Picked := mkPicked (mkFile "huge.png" 6000000) "image/png".

(** ** The options of a dropdown or of a radio group *)

Definition isComma (a : ascii) : bool := Ascii.eqb a ",".

(** [s.split(',')] *)
Fixpoint splitComma (s : string) : list string :=
  match s with
  | EmptyString => [EmptyString]
  | String a s' =>
      if isComma a then EmptyString :: splitComma s'
      else
        match splitComma s' with
        | p :: ps => String a p :: ps
        | [] => [String a EmptyString]
        end
  end.

(** [field.dropDownValues
       ? field.dropDownValues.split(',').map((opt) => opt.trim()).filter(Boolean)
       : []] *)
Definition options (dropDownValues : option string) : list string :=
  if truthyStr dropDownValues then
    filter (fun o => isEmpty o = false)
      (map trim (splitComma (default "" dropDownValues)))
  else [].

(** An option as an author means it: not empty, no white space around it,
    no comma in it. *)
Definition cleanOption (o : string) : bool :=
  negb (isEmpty o) && String.eqb (trim o) o && forall_chars (fun a => negb (isComma a)) o.

(** ** [handleSubmit]

    The handler needs the document: its timer looks the first error key up
    among the mounted elements. *)

(** The radio buttons of a group, by value *)
Definition radioChoices (field : FormField) : list string :=
  options (dropDownValues field).

(** The [option] elements of a dropdown, by value: the empty placeholder
    [Select <name>], then the options *)
Definition dropdownChoices (field : FormField) : list string :=
  "" :: options (dropDownValues field).

(** The [data-field-key] attributes of the document, in document order.
    Every widget puts the key on its one control; a radio group puts it on
    each of its buttons, so a group without options has no such element. *)
Definition keyedElements (formData : option FormData) (st : State) : list string :=
  renderForm formData st ≫= fun w =>
    if String.eqb (fieldType (widgetField w)) "RADIO"
    then map (fun _ => widgetKey w) (radioChoices (widgetField w))
    else [widgetKey w].

Definition doubleQuote : string := String (ascii_of_nat 34) EmptyString.

(** [`[data-field-key="${firstErrorKey}"]`] *)
Definition fieldSelector (fieldKey : string) : string :=
  "[data-field-key=" +++ doubleQuote +++ fieldKey +++ doubleQuote +++ "]".

(** The key can stand between the double quotes of the selector as it is:
    it holds no double quote (which would end the string), no backslash
    (which would start an escape), no line feed, carriage return or form
    feed (which would break the string) and no NUL (which would be
    replaced).  The selector then tests the attribute for this very key. *)
Definition selectorSafe (fieldKey : string) : bool :=
  forall_chars
    (fun a => negb (existsb (Nat.eqb (nat_of_ascii a)) [0; 10; 12; 13; 34; 92]%nat))
    fieldKey.

(** The callback of the timer, run on a document with the keyed elements
    [elements]:
    [const firstErrorKey = Object.keys(validation.errors)[0];
     if (firstErrorKey) {
       const element = document.querySelector(...);
       element?.scrollIntoView(...) }] *)
Definition scrollToFirstError (errors' : list (string * string))
    (elements : list string) : list Effect :=
  match head (Obj.keys errors') with
  | Some firstErrorKey =>
      if isEmpty firstErrorKey then []
      else if selectorSafe firstErrorKey then
        if bool_decide (firstErrorKey ∈ elements) then [ScrollIntoView firstErrorKey]
        else []
      else [QuerySelector (fieldSelector firstErrorKey)]
  | None => []
  end.

(** [handleSubmit].  The timer fires 100 ms after the handler; the document
    it queries is the one rendered from the state the handler leaves (the
    schema and the visible and expanded sets as they are at the submit). *)
Definition handleSubmit (dateParse : string -> option Z) (now : Z)
    (formData : option FormData) (st : State) : Result (State * list Effect) :=
  r ← validateForm dateParse now formData st;
  let validation := r.2 in
  if isValid validation then Ok (r.1, [OnSubmit (formValues st)])
  else
    Ok (r.1, scrollToFirstError (resultErrors validation) (keyedElements formData r.1)).

(** * Properties *)

Example js_examples :
  split_dunder "Personal__Basic__Gender__Gender__c" = ["Personal"; "Basic"; "Gender"; "Gender"; "c"]
  /\ trim "  a b  " = "a b" /\ trim "   " = "" /\ numberToString (-12) = "-12"
  /\ parseInt " -12px" = Some (-12) /\ parseInt "0x1F" = Some 31 /\ parseInt "abc" = None
  /\ map stringIsNaN ["12"; " 1.5e3 "; ""; "."; "1."; ".5"; "-Infinity"; "0x1f"; "-0x1f"; "1e"; "12a"; "+.5E-2"]
     = [false; false; false; true; false; false; false; false; true; true; true; false]
  /\ map emailRegexTest ["a@b.c"; "a@b"; "a@b."; "a@.c"; "@b.c"; "a b@c.d"; "a@b@c.d"; "a@b.c.d"; "a@b..c"]
     = [true; false; false; false; false; false; false; true; true]
  /\ phoneRegexTest (stripNonDigits "98-7654 3210") = true.
Proof. repeat split; reflexivity. Qed.

(** ** Strings *)

(** stdpp freezes [String.append]; the lemmas below compute with it. *)
#[local] Arguments String.append !_ _ / : simpl nomatch.

Section StringFacts.

Implicit Types s t r cur rest : string.

Lemma append_empty_r s : s +++ "" = s.
Proof. induction s as [|a s IH]; simpl; [done | by rewrite IH]. Qed.

Lemma append_assoc s t r : (s +++ t) +++ r = s +++ t +++ r.
Proof. induction s as [|a s IH]; simpl; [done | by rewrite IH]. Qed.

Lemma append_cancel_l s t r : s +++ t = s +++ r -> t = r.
Proof. induction s as [|a s IH]; simpl; [done | intros [= H]; auto]. Qed.

Lemma isEmpty_append_r s t : isEmpty t = false -> isEmpty (s +++ t) = false.
Proof. destruct s; simpl; [done|done]. Qed.

Lemma isChar_true c a : isChar c a = true <-> a = c.
Proof. unfold isChar, ascii_eqb. apply Ascii.eqb_eq. Qed.

Lemma startsWith_sep a b r :
  startsWith "__" (String a (String b r)) = isChar "_" a && isChar "_" b.
Proof.
  cbn [startsWith]. unfold isChar, ascii_eqb. rewrite andb_true_r.
  by rewrite (Ascii.eqb_sym "_" a), (Ascii.eqb_sym "_" b).
Qed.

Lemma hasSeparator_cons a s :
  hasSeparator (String a s) = false ->
  hasSeparator s = false /\ startsWith "__" (String a s) = false.
Proof.
  unfold hasSeparator. cbn [includes]. intros H%orb_false_elim.
  destruct H as [H1 H2]. split; [|done].
  destruct s; [done | exact H2].
Qed.

Lemma separable_cons a b s :
  separable (String a (String b s)) = true ->
  separable (String b s) = true /\ isChar "_" a && isChar "_" b = false.
Proof.
  unfold separable. intros [H1 H2]%andb_true_iff.
  apply negb_true_iff, hasSeparator_cons in H1 as [H1 H3].
  rewrite startsWith_sep in H3. split; [|done].
  apply andb_true_iff; split; [by apply negb_true_iff | exact H2].
Qed.

Lemma split_go_step cur a b r :
  split_go cur (String a (String b r)) =
  if isChar "_" a && isChar "_" b
  then cur :: split_go "" r
  else split_go (cur +++ String a "") (String b r).
Proof. reflexivity. Qed.

(** Scanning a separable name followed by the separator ends the current
    part exactly at the end of the name. *)
Lemma split_go_separable s : forall cur rest,
  separable s = true ->
  split_go cur (s +++ "__" +++ rest) = (cur +++ s) :: split_go "" rest.
Proof.
  induction s as [|a s IH]; intros cur rest Hs.
  - simpl. by rewrite append_empty_r.
  - destruct s as [|b s].
    + assert (isChar "_" a = false) as Ha.
      { unfold separable in Hs. apply andb_true_iff in Hs as [_ Hs].
        simpl in Hs. by apply negb_true_iff in Hs. }
      cbn [String.append split_go]. fold (isChar "_" a). by rewrite Ha.
    + apply separable_cons in Hs as [Hs Hab].
      change (String a (String b s) +++ "__" +++ rest)
        with (String a (String b (s +++ "__" +++ rest))).
      rewrite split_go_step, Hab.
      change (String b (s +++ "__" +++ rest)) with (String b s +++ "__" +++ rest).
      rewrite IH by done.
      by rewrite append_assoc.
Qed.

(** A string without separator is a single part. *)
Lemma split_go_no_separator s : forall cur,
  hasSeparator s = false -> split_go cur s = [cur +++ s].
Proof.
  induction s as [|a s IH]; intros cur Hs.
  - simpl. by rewrite append_empty_r.
  - destruct s as [|b s]; [done|].
    apply hasSeparator_cons in Hs as [Hs Hab]. rewrite startsWith_sep in Hab.
    rewrite split_go_step, Hab.
    rewrite IH by done. by rewrite append_assoc.
Qed.

(** The parts of a key whose three names are separable *)
Lemma split_getFieldKey sectionName' subSectionName' field :
  separable sectionName' = true ->
  separable subSectionName' = true ->
  separable (name field) = true ->
  split_dunder (getFieldKey sectionName' subSectionName' field) =
  sectionName' :: subSectionName' :: name field :: split_dunder (refOrOrder field).
Proof.
  intros H1 H2 H3. unfold split_dunder, getFieldKey.
  by rewrite !split_go_separable.
Qed.

End StringFacts.

(** ** The field key *)

Lemma getFieldKey_joinParts sectionName' subSectionName' field :
  getFieldKey sectionName' subSectionName' field =
  joinParts (keyParts sectionName' subSectionName' field).
Proof. reflexivity. Qed.

(** Two joins of separable names are equal only for equal parts. *)
Lemma joinParts_inj (p q : string * string * string * string) :
  separable p.1.1.1 = true -> separable p.1.1.2 = true -> separable p.1.2 = true ->
  separable q.1.1.1 = true -> separable q.1.1.2 = true -> separable q.1.2 = true ->
  joinParts p = joinParts q -> p = q.
Proof.
  destruct p as [[[a1 b1] c1] d1], q as [[[a2 b2] c2] d2]; simpl.
  intros Ha1 Hb1 Hc1 Ha2 Hb2 Hc2 Hkey. unfold joinParts in Hkey; cbn [fst snd] in Hkey.
  pose proof (f_equal split_dunder Hkey) as Hsplit.
  unfold split_dunder in Hsplit. rewrite !split_go_separable in Hsplit by done.
  cbn [String.append] in Hsplit. injection Hsplit as -> -> -> _.
  do 3 (apply append_cancel_l in Hkey; cbn [String.append] in Hkey;
        injection Hkey as Hkey).
  by subst.
Qed.

(** C5 fails on the code: [getFieldKey], which its comment introduces as
    generating unique field keys, gives one key to two different fields.
    The two fields of [collidingSchema] differ (in default value, order
    index and mandatory flag) and sit at different positions of one
    subsection, yet receive the same key, since the key joins only the
    section name, the subsection name, the field name and the reference id;
    and a field of subsection [B__C] of section [A] receives the key of the
    same field in subsection [C] of section [A__B], since the separator may
    occur in the names. *)
Theorem getFieldKey_collision :
  allFields collidingSchema =
    [(mkSection "A" false [mkSubSection "s" 0 0 false [nameField; nameFieldAgain]],
      mkSubSection "s" 0 0 false [nameField; nameFieldAgain], nameField);
     (mkSection "A" false [mkSubSection "s" 0 0 false [nameField; nameFieldAgain]],
      mkSubSection "s" 0 0 false [nameField; nameFieldAgain], nameFieldAgain)]
  /\ nameField <> nameFieldAgain
  /\ fieldKeys collidingSchema = ["A__s__Name__Name"; "A__s__Name__Name"]
  /\ ~ NoDup (fieldKeys collidingSchema)
  /\ getFieldKey "A" "B__C" nameField = getFieldKey "A__B" "C" nameField.
Proof.
  split; [reflexivity|]. split; [discriminate|]. split; [reflexivity|].
  split; [|reflexivity].
  intros H. change (fieldKeys collidingSchema)
    with ["A__s__Name__Name"; "A__s__Name__Name"] in H.
  apply NoDup_cons in H as [H _]. apply H. by left.
Qed.

(** X20: when the section, subsection and field names are separable (hold
    no separator and do not end in an underscore), two fields that differ
    in section name, subsection name, field name or
    reference-id-or-order receive different keys. *)
Theorem getFieldKey_distinct s1 ss1 f1 s2 ss2 f2 :
  separable s1 = true -> separable ss1 = true -> separable (name f1) = true ->
  separable s2 = true -> separable ss2 = true -> separable (name f2) = true ->
  keyParts s1 ss1 f1 <> keyParts s2 ss2 f2 ->
  getFieldKey s1 ss1 f1 <> getFieldKey s2 ss2 f2.
Proof.
  intros H1 H2 H3 H4 H5 H6 Hne Hkey. apply Hne.
  rewrite !getFieldKey_joinParts in Hkey.
  by apply joinParts_inj in Hkey.
Qed.

Lemma getFieldKey_distinct_witness :
  getFieldKey "A" "s" nameField <> getFieldKey "A" "s" genderField.
Proof.
  apply getFieldKey_distinct; try reflexivity. discriminate.
Defined.

(** Over a whole schema: separable names and pairwise different parts give
    pairwise different keys. *)
Lemma fieldKeys_NoDup fd :
  Forall separableNames (allFields fd) ->
  NoDup (map tripleParts (allFields fd)) ->
  NoDup (fieldKeys fd).
Proof.
  intros Hsep Hnd. unfold fieldKeys.
  assert (map tripleKey (allFields fd) = joinParts <$> (tripleParts <$> allFields fd)) as ->.
  { rewrite <- list_fmap_compose. reflexivity. }
  apply NoDup_fmap_2_strong; [|done].
  intros p q [t [-> Ht]]%list_elem_of_fmap [u [-> Hu]]%list_elem_of_fmap Hj.
  rewrite Forall_forall in Hsep.
  destruct (Hsep t Ht) as (?&?&?), (Hsep u Hu) as (?&?&?).
  by apply joinParts_inj.
Qed.

(** C6 fails on the code: the resolver takes the fourth part of the split
    key for the reference id (its comment says so), but [split] cuts at
    every separator.  The reference id of a Salesforce custom field ends in
    [__c]: for [Gender__c] the fourth part is [Gender], so the rule of
    [genderSchema], which names the field by its reference id, is not
    triggered by the field, and the section it should hide for the answer
    [Male] stays visible; a rule naming the cut text would be triggered.
    Likewise a section name ending in an underscore loses that underscore
    to the separator. *)
Theorem split_key_cuts_reference_id :
  (hasSeparator "Personal" = false /\ hasSeparator "Basic" = false
   /\ hasSeparator (name genderField) = false
   /\ sfField genderField = "Gender__c"
   /\ getFieldKey "Personal" "Basic" genderField = genderKey
   /\ split_dunder genderKey = ["Personal"; "Basic"; "Gender"; "Gender"; "c"]
   /\ split_dunder genderKey !! 3%nat = Some "Gender")
  /\ (dependentSectionsDetails genderSchema
        = [mkRule "Female" "Personal" "Gender__c" "Maternity"]
      /\ triggeredBy genderKey (mkRule "Female" "Personal" "Gender__c" "Maternity") = false
      /\ triggeredBy genderKey (mkRule "Female" "Personal" "Gender" "Maternity") = true
      /\ "Maternity" ∈ visibleSections
                         (handleFieldChange (Some genderSchema) genderKey (VStr "Male")
                            (initialize (Some genderSchema) initialState)))
  /\ (hasSeparator "Loan_" = false /\ hasSeparator "Basic" = false
      /\ hasSeparator (name nameField) = false
      /\ split_dunder (getFieldKey "Loan_" "Basic" nameField) !! 0%nat = Some "Loan").
Proof.
  split; [repeat split; reflexivity|]. split; [|repeat split; reflexivity].
  split; [reflexivity|]. split; [reflexivity|]. split; [reflexivity|].
  apply (bool_decide_unpack _). vm_compute. exact I.
Qed.

(** X21: when the section, subsection and field names are separable and
    the reference-id-or-order string holds no separator, splitting the key
    gives back the section name as the first part and the
    reference-id-or-order string as the fourth; this is the reference id
    itself whenever that is not empty. *)
Theorem split_key_roundtrip s ss f :
  separable s = true -> separable ss = true -> separable (name f) = true ->
  hasSeparator (refOrOrder f) = false ->
  split_dunder (getFieldKey s ss f) !! 0%nat = Some s
  /\ split_dunder (getFieldKey s ss f) !! 3%nat = Some (refOrOrder f)
  /\ (isEmpty (sfField f) = false ->
      split_dunder (getFieldKey s ss f) !! 3%nat = Some (sfField f)).
Proof.
  intros H1 H2 H3 H4. rewrite split_getFieldKey by done.
  unfold split_dunder. rewrite split_go_no_separator by done. simpl.
  split; [done|]. split; [done|].
  intros Hne. unfold refOrOrder. by rewrite Hne.
Qed.

Lemma split_key_roundtrip_witness :
  split_dunder (getFieldKey "Personal" "Basic" nameField) !! 0%nat = Some "Personal"
  /\ split_dunder (getFieldKey "Personal" "Basic" nameField) !! 3%nat = Some "Name".
Proof.
  destruct (split_key_roundtrip "Personal" "Basic" nameField
              eq_refl eq_refl eq_refl eq_refl) as (H0 & H3 & _).
  split; [exact H0 | exact H3].
Defined.

(** What the resolver makes of such a key: a rule matches exactly when it
    names the field's section and its reference-id-or-order string. *)
Lemma ruleMatches_getFieldKey s ss f rule :
  separable s = true -> separable ss = true -> separable (name f) = true ->
  hasSeparator (refOrOrder f) = false ->
  ruleMatches (split_dunder (getFieldKey s ss f) !! 0%nat)
              (split_dunder (getFieldKey s ss f) !! 3%nat) rule = true
  <-> sectionName rule = s /\ fieldName rule = refOrOrder f.
Proof.
  intros H1 H2 H3 H4. rewrite split_getFieldKey by done.
  unfold split_dunder. rewrite split_go_no_separator by done. simpl.
  unfold ruleMatches. rewrite andb_true_iff, !bool_decide_eq_true.
  split; [intros [[= ?] [= ?]] | intros [-> ->]]; done.
Qed.

(** ** Insertion-ordered objects *)

Section ObjFacts.

Context {A : Type}.
Implicit Types (k : string) (v : A) (o : list (string * A)).

Lemma get_set_eq k v o : Obj.get k (Obj.set k v o) = Some v.
Proof.
  induction o as [|[k' v'] o IH]; simpl.
  - by rewrite decide_True.
  - destruct (decide (k' = k)) as [->|Hne]; simpl.
    + by rewrite decide_True.
    + by rewrite decide_False.
Qed.

Lemma get_set_ne k k' v o : k <> k' -> Obj.get k' (Obj.set k v o) = Obj.get k' o.
Proof.
  intros Hne. induction o as [|[k0 v0] o IH]; simpl.
  - by rewrite decide_False.
  - destruct (decide (k0 = k)) as [->|Hne0]; simpl.
    + by rewrite !decide_False.
    + by rewrite IH.
Qed.

Lemma set_set k v1 v2 o : Obj.set k v2 (Obj.set k v1 o) = Obj.set k v2 o.
Proof.
  induction o as [|[k' v'] o IH]; simpl.
  - by rewrite decide_True.
  - destruct (decide (k' = k)) as [->|Hne]; simpl.
    + by rewrite decide_True.
    + by rewrite decide_False, IH.
Qed.

(** Assigning never moves the first key of a non-empty object. *)
Lemma head_keys_set k v o :
  head (Obj.keys (Obj.set k v o)) =
  match head (Obj.keys o) with
  | Some h => Some h
  | None => Some k
  end.
Proof.
  destruct o as [|[k' v'] o]; simpl; [done|].
  by destruct (decide (k' = k)) as [->|Hne].
Qed.

Lemma keys_set_mono k k' v o : k' ∈ Obj.keys o -> k' ∈ Obj.keys (Obj.set k v o).
Proof.
  unfold Obj.keys. induction o as [|[k0 v0] o IH]; simpl; [by intros ?%elem_of_nil|].
  intros [->|Hin]%elem_of_cons; destruct (decide (_ = k)) as [?|?]; simpl; subst.
  - by left.
  - by left.
  - by right.
  - right. by apply IH.
Qed.

Lemma keys_set_in k v o : k ∈ Obj.keys (Obj.set k v o).
Proof.
  unfold Obj.keys. induction o as [|[k0 v0] o IH]; simpl; [by left|].
  destruct (decide (k0 = k)); simpl; [by left | by right].
Qed.

Lemma get_delete_eq k o : Obj.get k (Obj.delete k o) = None.
Proof.
  induction o as [|[k' v'] o IH]; simpl; [done|].
  destruct (decide (k' = k)) as [->|Hne]; simpl; [done|]. by rewrite decide_False.
Qed.

Lemma get_delete_ne k k' o : k <> k' -> Obj.get k' (Obj.delete k o) = Obj.get k' o.
Proof.
  intros Hne. induction o as [|[k0 v0] o IH]; simpl; [done|].
  destruct (decide (k0 = k)) as [->|Hne0]; simpl.
  - by rewrite decide_False.
  - by rewrite IH.
Qed.

Lemma delete_absent k o : Obj.get k o = None -> Obj.delete k o = o.
Proof.
  induction o as [|[k' v'] o IH]; simpl; [done|].
  destruct (decide (k' = k)) as [->|Hne]; [done|]. intros H. by rewrite IH.
Qed.

Lemma keys_nil o : Obj.keys o = [] <-> o = [].
Proof. by destruct o. Qed.

End ObjFacts.

Lemma assign_assign key m1 m2 e :
  assign key m2 (assign key m1 e) =
  assign key (match m2 with Some _ => m2 | None => m1 end) e.
Proof. destruct m1, m2; simpl; by rewrite ?set_set. Qed.

Lemma get_assign_nil key m : Obj.get key (assign key m []) = m.
Proof. destruct m; simpl; [by rewrite decide_True | done]. Qed.

(** ** The checks of one field

    Every check either leaves the error object alone or assigns one message
    under the field's key; neither the choice nor the message depends on
    what the object already holds. *)

Section FieldChecks.

Variable dateParse : string -> option Z.
Variable now : Z.
Variable values : gmap string JsValue.

Implicit Types (field : FormField) (key : string) (v : JsValue).

Ltac assigns :=
  first [ by (exists None) | by (eexists (Some _); intros; rewrite ?set_set) ].

Lemma maxLengthCheck_assigns field key v : assignsOnly key (maxLengthCheck field key v).
Proof. unfold assignsOnly, maxLengthCheck. repeat case_match; assigns. Qed.

Lemma minLengthCheck_assigns field key v : assignsOnly key (minLengthCheck field key v).
Proof. unfold assignsOnly, minLengthCheck. repeat case_match; assigns. Qed.

Lemma numberCheck_assigns field key v : assignsOnly key (numberCheck field key v).
Proof. unfold assignsOnly, numberCheck. repeat case_match; assigns. Qed.

Lemma dateCheck_assigns field key v : assignsOnly key (dateCheck dateParse now field key v).
Proof.
  unfold assignsOnly, dateCheck.
  destruct (String.eqb _ _ && _); [|assigns].
  destruct (timeValue dateParse v); simpl; repeat case_match; assigns.
Qed.

Lemma imageCheck_assigns subSection field key v :
  assignsOnly key (imageCheck subSection field key v).
Proof.
  unfold assignsOnly, imageCheck.
  destruct (String.eqb _ _ && _); [|assigns].
  simpl. repeat case_match; assigns.
Qed.

Lemma videoCheck_assigns field key v : assignsOnly key (videoCheck field key v).
Proof. unfold assignsOnly, videoCheck. repeat case_match; assigns. Qed.

Ltac assignsM :=
  first [ by (left; eexists; intros; reflexivity)
        | by (right; exists None)
        | by (right; eexists (Some _); intros; rewrite ?set_set) ].

Lemma mandatoryCheck_assigns field key v : assignsOnlyM key (mandatoryCheck field key v).
Proof.
  unfold assignsOnlyM, mandatoryCheck.
  destruct (mandatory field); [|assignsM].
  destruct (Value.trim v); simpl; [|assignsM]. case_match; assignsM.
Qed.

Lemma emailCheck_assigns field key v : assignsOnlyM key (emailCheck field key v).
Proof.
  unfold assignsOnlyM, emailCheck.
  destruct (String.eqb _ _ && _); [|assignsM].
  destruct (Value.includesAt v); simpl; [|assignsM]. case_match; assignsM.
Qed.

Lemma phoneCheck_assigns field key v : assignsOnlyM key (phoneCheck field key v).
Proof.
  unfold assignsOnlyM, phoneCheck.
  destruct (String.eqb _ _ && _ && _); [|assignsM].
  destruct (Value.stripNonDigits v); simpl; [|assignsM]. case_match; assignsM.
Qed.

Lemma assignsOnly_compose key g1 g2 :
  assignsOnly key g1 -> assignsOnly key g2 -> assignsOnly key (fun e => g2 (g1 e)).
Proof.
  intros [m1 H1] [m2 H2]. eexists. intros e. rewrite H1, H2. apply assign_assign.
Qed.

Lemma assignsOnlyM_bind key g1 g2 :
  assignsOnlyM key g1 -> assignsOnlyM key g2 -> assignsOnlyM key (fun e => g1 e ≫= g2).
Proof.
  intros [[err H1]|[m1 H1]] H2.
  - left. exists err. intros e. by rewrite H1.
  - destruct H2 as [[err H2]|[m2 H2]].
    + left. exists err. intros e. by rewrite H1; simpl.
    + right. eexists. intros e. rewrite H1; simpl. rewrite H2. by rewrite assign_assign.
Qed.

Lemma assignsOnlyM_pure key g : assignsOnly key g -> assignsOnlyM key (fun e => Ok (g e)).
Proof. intros [m H]. right. exists m. intros e. by rewrite H. Qed.

Lemma validateField_assigns section subSection field :
  assignsOnlyM (getFieldKey (secName section) (subName subSection) field)
    (fun e => validateField dateParse now values section subSection e field).
Proof.
  unfold validateField. destruct (isHidden field); [by right; exists None|].
  set (key := getFieldKey _ _ _). set (v := Value.orEmpty _).
  apply (assignsOnlyM_bind key (mandatoryCheck field key v)
           (fun e1 => emailCheck field key v
                        (videoCheck field key v
                           (imageCheck subSection field key v
                              (dateCheck dateParse now field key v
                                 (numberCheck field key v
                                    (minLengthCheck field key v
                                       (maxLengthCheck field key v e1))))))
                      ≫= phoneCheck field key v));
    [apply mandatoryCheck_assigns|].
  apply (assignsOnlyM_bind key
           (fun e1 => emailCheck field key v
                        (videoCheck field key v
                           (imageCheck subSection field key v
                              (dateCheck dateParse now field key v
                                 (numberCheck field key v
                                    (minLengthCheck field key v
                                       (maxLengthCheck field key v e1)))))))
           (phoneCheck field key v)); [|apply phoneCheck_assigns].
  apply (assignsOnlyM_bind key
           (fun e1 => Ok (videoCheck field key v
                           (imageCheck subSection field key v
                              (dateCheck dateParse now field key v
                                 (numberCheck field key v
                                    (minLengthCheck field key v
                                       (maxLengthCheck field key v e1)))))))
           (emailCheck field key v)); [|apply emailCheck_assigns].
  apply assignsOnlyM_pure.
  apply (assignsOnly_compose key
           (fun e1 => imageCheck subSection field key v
                        (dateCheck dateParse now field key v
                           (numberCheck field key v
                              (minLengthCheck field key v
                                 (maxLengthCheck field key v e1)))))
           (videoCheck field key v)); [|apply videoCheck_assigns].
  apply (assignsOnly_compose key
           (fun e1 => dateCheck dateParse now field key v
                        (numberCheck field key v
                           (minLengthCheck field key v
                              (maxLengthCheck field key v e1))))
           (imageCheck subSection field key v)); [|apply imageCheck_assigns].
  apply (assignsOnly_compose key
           (fun e1 => numberCheck field key v
                        (minLengthCheck field key v (maxLengthCheck field key v e1)))
           (dateCheck dateParse now field key v)); [|apply dateCheck_assigns].
  apply (assignsOnly_compose key
           (fun e1 => minLengthCheck field key v (maxLengthCheck field key v e1))
           (numberCheck field key v)); [|apply numberCheck_assigns].
  apply (assignsOnly_compose key (maxLengthCheck field key v) (minLengthCheck field key v)).
  - apply maxLengthCheck_assigns.
  - apply minLengthCheck_assigns.
Qed.

(** One field's checks, read through [fieldMessage]. *)
Lemma validateField_fieldMessage (t : Triple) e :
  validateField dateParse now values t.1.1 t.1.2 e t.2 =
  (msg ← fieldMessage dateParse now values t; Ok (assign (tripleKey t) msg e)).
Proof.
  unfold fieldMessage, tripleKey.
  destruct (validateField_assigns t.1.1 t.1.2 t.2) as [[err H]|[m H]].
  - by rewrite !H.
  - rewrite !H. simpl. by rewrite get_assign_nil.
Qed.

End FieldChecks.

(** ** Loops *)

Section Loops.

Context {A S : Type}.
Implicit Types (f g : S -> A -> Result S) (l : list A) (s : S).

Lemma forEachM_app f l1 l2 s :
  forEachM f (l1 ++ l2) s = forEachM f l1 s ≫= forEachM f l2.
Proof.
  revert s. induction l1 as [|x l1 IH]; intros s; simpl; [done|].
  destruct (f s x); simpl; [apply IH | done].
Qed.

Lemma forEachM_ext f g l s :
  (forall x s, x ∈ l -> f s x = g s x) -> forEachM f l s = forEachM g l s.
Proof.
  revert s. induction l as [|x l IH]; intros s H; simpl; [done|].
  rewrite (H x s) by (by left). destruct (g s x); simpl; [|done].
  apply IH. intros y s' Hy. apply H. by right.
Qed.

(** Elements on which the body does nothing can be left out. *)
Lemma forEachM_filter (p : A -> bool) f l s :
  (forall x s, p x = false -> f s x = Ok s) ->
  forEachM f (filter (fun x => p x = true) l) s = forEachM f l s.
Proof.
  intros Hskip. revert s. induction l as [|x l IH]; intros s; [done|].
  rewrite filter_cons. destruct (decide (p x = true)) as [Hp|Hp]; simpl.
  - destruct (f s x); simpl; [apply IH | done].
  - apply not_true_is_false in Hp. rewrite (Hskip x s Hp). simpl. apply IH.
Qed.

End Loops.

Lemma forEachM_map {A B S} (f : S -> B -> Result S) (h : A -> B) l s :
  forEachM f (map h l) s = forEachM (fun s x => f s (h x)) l s.
Proof.
  revert s. induction l as [|x l IH]; intros s; simpl; [done|].
  destruct (f s (h x)); simpl; [apply IH | done].
Qed.

Lemma forEachM_bind {A B S} (f : S -> B -> Result S) (g : A -> list B) l s :
  forEachM f (l ≫= g) s = forEachM (fun s x => forEachM f (g x) s) l s.
Proof.
  revert s. induction l as [|x l IH]; intros s; [done|].
  rewrite bind_cons, forEachM_app. simpl.
  destruct (forEachM f (g x) s); simpl; [apply IH | done].
Qed.

(** ** The validation walk *)

Section Walk.

Variable dateParse : string -> option Z.
Variable now : Z.
Variable values : gmap string JsValue.
Variable visible : gset string.

Local Abbreviation step := (walkStep dateParse now values).

Lemma validateSubSection_triples section subSection e :
  validateSubSection dateParse now values section e subSection =
  forEachM step (subSectionTriples section subSection) e.
Proof.
  unfold validateSubSection, subSectionTriples. by rewrite forEachM_map.
Qed.

Lemma validateSection_triples section e :
  validateSection dateParse now values visible e section =
  if sectionVisible visible section
  then forEachM step (sectionTriples section) e
  else Ok e.
Proof.
  unfold validateSection, sectionVisible. case_bool_decide; [|done].
  unfold sectionTriples. rewrite forEachM_bind.
  apply forEachM_ext. intros sub e' _. apply validateSubSection_triples.
Qed.

Lemma validateSections_triples secs e :
  forEachM (validateSection dateParse now values visible) secs e =
  forEachM step
    (filter (fun s => sectionVisible visible s = true) secs ≫= sectionTriples) e.
Proof.
  revert e. induction secs as [|sec secs IH]; intros e; [done|].
  rewrite filter_cons. cbn [forEachM]. rewrite validateSection_triples.
  destruct (decide (sectionVisible visible sec = true)) as [Hv|Hv].
  - rewrite Hv, bind_cons, forEachM_app.
    destruct (forEachM step (sectionTriples sec) e); simpl; [apply IH | done].
  - apply not_true_is_false in Hv. rewrite Hv. simpl. apply IH.
Qed.

(** The three nested loops are one loop over the validation walk. *)
Lemma collectErrors_walk fd :
  collectErrors dateParse now values visible fd =
  forEachM step (validationWalk visible fd) [].
Proof.
  unfold collectErrors, validationWalk.
  rewrite (forEachM_filter notHidden step).
  - apply validateSections_triples.
  - intros [[sec sub] f] e Hh. unfold walkStep, validateField, notHidden in *; simpl in *.
    apply negb_false_iff in Hh. by rewrite Hh.
Qed.

(** The first key of the object built by a loop over walked fields: the one
    it started with, or else the key of the first field that fails. *)
Lemma forEachM_step_head l e e' :
  forEachM step l e = Ok e' ->
  head (Obj.keys e') =
  match head (Obj.keys e) with
  | Some h => Some h
  | None => tripleKey <$> find (fieldFails dateParse now values) l
  end.
Proof.
  revert e. induction l as [|t l IH]; intros e H.
  - injection H as <-. by destruct (head (Obj.keys e)).
  - cbn [forEachM] in H.
    change (step e t) with (validateField dateParse now values t.1.1 t.1.2 e t.2) in H.
    rewrite validateField_fieldMessage in H.
    cbn [find]. unfold fieldFails at 1.
    destruct (fieldMessage dateParse now values t) as [[m|]|err]; simpl in H; [| |done].
    + apply IH in H. rewrite H, head_keys_set. by destruct (head (Obj.keys e)).
    + by apply IH in H.
Qed.

(** A property of the error object that survives any assignment of a
    non-empty message survives the checks of a field, and so the walk. *)
Section Preserved.

Variable P : list (string * string) -> Prop.
Hypothesis P_set : forall k m e, isEmpty m = false -> P e -> P (Obj.set k m e).

Ltac preserved :=
  repeat case_match; try done;
  repeat (apply P_set; [by apply isEmpty_append_r|]); done.

Implicit Types (field : FormField) (key : string) (v : JsValue).

Lemma mandatoryCheck_preserves field key v e e' :
  P e -> mandatoryCheck field key v e = Ok e' -> P e'.
Proof.
  intros He H. unfold mandatoryCheck in H.
  destruct (mandatory field); [|by injection H as <-].
  destruct (Value.trim v); simpl in H; [|done].
  destruct (isEmpty a); injection H as <-; preserved.
Qed.

Lemma maxLengthCheck_preserves field key v e : P e -> P (maxLengthCheck field key v e).
Proof. intros He. unfold maxLengthCheck; preserved. Qed.

Lemma minLengthCheck_preserves field key v e : P e -> P (minLengthCheck field key v e).
Proof. intros He. unfold minLengthCheck; preserved. Qed.

Lemma numberCheck_preserves field key v e : P e -> P (numberCheck field key v e).
Proof. intros He. unfold numberCheck; preserved. Qed.

Lemma dateCheck_preserves field key v e : P e -> P (dateCheck dateParse now field key v e).
Proof. intros He. unfold dateCheck; preserved. Qed.

Lemma imageCheck_preserves subSection field key v e :
  P e -> P (imageCheck subSection field key v e).
Proof. intros He. unfold imageCheck; preserved. Qed.

Lemma videoCheck_preserves field key v e : P e -> P (videoCheck field key v e).
Proof. intros He. unfold videoCheck; preserved. Qed.

Lemma emailCheck_preserves field key v e e' :
  P e -> emailCheck field key v e = Ok e' -> P e'.
Proof.
  intros He H. unfold emailCheck in H.
  destruct (String.eqb _ _ && _); [|by injection H as <-].
  destruct (Value.includesAt v); simpl in H; [|done].
  destruct (_ && _); injection H as <-; preserved.
Qed.

Lemma phoneCheck_preserves field key v e e' :
  P e -> phoneCheck field key v e = Ok e' -> P e'.
Proof.
  intros He H. unfold phoneCheck in H.
  destruct (String.eqb _ _ && _ && _); [|by injection H as <-].
  destruct (Value.stripNonDigits v); simpl in H; [|done].
  destruct (negb _); injection H as <-; preserved.
Qed.

(** The checks that follow the image check *)
Lemma after_image_preserves field key v e e' :
  P e ->
  (e8 ← emailCheck field key v (videoCheck field key v e); phoneCheck field key v e8)
    = Ok e' ->
  P e'.
Proof.
  intros He H.
  destruct (emailCheck field key v (videoCheck field key v e)) as [e8|] eqn:H8;
    simpl in H; [|done].
  eapply phoneCheck_preserves; [|exact H].
  eapply emailCheck_preserves; [|exact H8]. by apply videoCheck_preserves.
Qed.

Lemma validateField_preserves section subSection field e e' :
  P e ->
  validateField dateParse now values section subSection e field = Ok e' ->
  P e'.
Proof.
  intros He. unfold validateField. destruct (isHidden field); [by intros [= <-]|].
  set (key := getFieldKey _ _ _). set (v := Value.orEmpty _).
  destruct (mandatoryCheck field key v e) as [e1|] eqn:H1; simpl; [|done].
  apply after_image_preserves.
  apply imageCheck_preserves, dateCheck_preserves, numberCheck_preserves,
    minLengthCheck_preserves, maxLengthCheck_preserves.
  by eapply mandatoryCheck_preserves.
Qed.

Lemma forEachM_step_preserves l e e' :
  P e -> forEachM step l e = Ok e' -> P e'.
Proof.
  revert e. induction l as [|t l IH]; intros e He H; simpl in H.
  - by injection H as <-.
  - destruct (step e t) as [e1|] eqn:H1; simpl in H; [|done].
    apply (IH e1); [|done]. by apply (validateField_preserves _ _ _ _ _ He H1).
Qed.

End Preserved.

End Walk.

(** ** [validateForm] and [handleSubmit] *)

Lemma tripleKey_nonempty t : isEmpty (tripleKey t) = false.
Proof. unfold tripleKey, getFieldKey. by apply isEmpty_append_r. Qed.

Lemma validateForm_Some dateParse now fd st st' r :
  validateForm dateParse now (Some fd) st = Ok (st', r) ->
  collectErrors dateParse now (formValues st) (visibleSections st) fd = Ok (resultErrors r)
  /\ st' = setErrors (fun _ => resultErrors r) st
  /\ isValid r = bool_decide (resultErrors r = []).
Proof.
  unfold validateForm.
  destruct (collectErrors _ _ _ _ _) as [e|]; simpl; [|done].
  intros [= <- <-]. simpl. split; [done|]. split; [done|].
  destruct e; [done|]. by rewrite !bool_decide_eq_false_2.
Qed.

(** C8 fails on the code.  The handler means to scroll to the first error
    (its comment says so), and the fields of a subsection are on screen in
    ascending order index; but [validateForm] walks them in list order and
    never sorts, so the first key of its error object need not belong to
    the first failing field on screen.  In [unorderedSchema] the field
    listed first has the larger order index: both fields fail, the screen
    shows [Second] above [First], the first failing field in the sorted
    walk is [Second], and the handler scrolls to [First]. *)
Theorem first_error_not_in_sorted_order :
  map widgetKey (renderForm (Some unorderedSchema) unorderedState)
    = ["A__s__Second__Second"; "A__s__First__First"]
  /\ returnedBy (validateForm isoDateParse 0 (Some unorderedSchema) unorderedState)
     = Ok (mkValidation false unorderedErrors)
  /\ Obj.keys unorderedErrors = ["A__s__First__First"; "A__s__Second__Second"]
  /\ tripleKey <$> find (fieldFails isoDateParse 0 (formValues unorderedState))
                     (sortedWalk (visibleSections unorderedState) unorderedSchema)
     = Some "A__s__Second__Second"
  /\ effectsOf (handleSubmit isoDateParse 0 (Some unorderedSchema) unorderedState)
     = Ok [ScrollIntoView "A__s__First__First"].
Proof. repeat split; vm_compute; reflexivity. Qed.

(** The callback of the timer never submits. *)
Lemma scrollToFirstError_not_submitted errors' elements :
  ~ submitted (scrollToFirstError errors' elements).
Proof.
  intros [vals Hin]. unfold scrollToFirstError in Hin.
  destruct (head _) as [k|]; [|by apply elem_of_nil in Hin].
  destruct (isEmpty k); [by apply elem_of_nil in Hin|].
  destruct (selectorSafe k).
  - case_bool_decide; [|by apply elem_of_nil in Hin].
    apply list_elem_of_singleton in Hin. discriminate.
  - apply list_elem_of_singleton in Hin. discriminate.
Qed.

(** The error object is empty exactly when the result is valid. *)
Lemma validateForm_valid_iff dateParse now fd st st' r :
  validateForm dateParse now (Some fd) st = Ok (st', r) ->
  isValid r = true <-> resultErrors r = [].
Proof.
  intros (_ & _ & ->)%validateForm_Some. apply bool_decide_eq_true.
Qed.

(** C7: on a submit of the rendered form (the [form] element exists only
    once a schema is loaded), [onSubmit] is invoked exactly when
    [validateForm] returns an empty error object, and then with the value
    store as it was; when some check fails, or the pass throws, it is not
    invoked; in no case is the value store changed. *)
Theorem submit_iff_valid dateParse now fd st :
  ((exists st' effs,
      handleSubmit dateParse now (Some fd) st = Ok (st', effs) /\ submitted effs)
   <-> (exists st' r,
          validateForm dateParse now (Some fd) st = Ok (st', r) /\ resultErrors r = []))
  /\ (forall st' r,
        validateForm dateParse now (Some fd) st = Ok (st', r) ->
        resultErrors r = [] ->
        handleSubmit dateParse now (Some fd) st = Ok (st', [OnSubmit (formValues st)]))
  /\ (forall st' r,
        validateForm dateParse now (Some fd) st = Ok (st', r) ->
        resultErrors r <> [] ->
        exists effs,
          handleSubmit dateParse now (Some fd) st = Ok (st', effs)
          /\ ~ submitted effs /\ formValues st' = formValues st)
  /\ (forall st' effs,
        handleSubmit dateParse now (Some fd) st = Ok (st', effs) ->
        formValues st' = formValues st).
Proof.
  assert (forall st' r,
            validateForm dateParse now (Some fd) st = Ok (st', r) ->
            formValues st' = formValues st) as Hframe.
  { intros st' r (_ & -> & _)%validateForm_Some. done. }
  assert (forall st' r,
            validateForm dateParse now (Some fd) st = Ok (st', r) ->
            resultErrors r = [] ->
            handleSubmit dateParse now (Some fd) st = Ok (st', [OnSubmit (formValues st)]))
    as Hvalid.
  { intros st' r Hv He. unfold handleSubmit. rewrite Hv. simpl.
    by rewrite (proj2 (validateForm_valid_iff _ _ _ _ _ _ Hv) He). }
  assert (forall st' r,
            validateForm dateParse now (Some fd) st = Ok (st', r) ->
            resultErrors r <> [] ->
            exists effs,
              handleSubmit dateParse now (Some fd) st = Ok (st', effs)
              /\ ~ submitted effs /\ formValues st' = formValues st) as Hinvalid.
  { intros st' r Hv He. unfold handleSubmit. rewrite Hv. simpl.
    destruct (isValid r) eqn:Hr.
    { by apply (validateForm_valid_iff _ _ _ _ _ _ Hv) in Hr. }
    eexists. split; [done|]. split; [|by eapply Hframe].
    apply scrollToFirstError_not_submitted. }
  split; [|split; [done|split; [done|]]].
  - split.
    + intros (st' & effs & Hs & Hsub).
      destruct (validateForm dateParse now (Some fd) st) as [[st'' r]|] eqn:Hv.
      * exists st'', r. split; [done|].
        destruct (resultErrors r) eqn:He; [done|].
        destruct (Hinvalid st'' r eq_refl) as (effs' & Hs' & Hno & _); [by rewrite He|].
        rewrite Hs in Hs'. injection Hs' as -> ->. done.
      * unfold handleSubmit in Hs. by rewrite Hv in Hs.
    + intros (st' & r & Hv & He). eexists _, _. split; [by eapply Hvalid|].
      eexists. by left.
  - intros st' effs Hs.
    destruct (validateForm dateParse now (Some fd) st) as [[st'' r]|] eqn:Hv.
    + unfold handleSubmit in Hs. rewrite Hv in Hs. simpl in Hs.
      destruct (isValid r); injection Hs as <- _; by eapply Hframe.
    + unfold handleSubmit in Hs. by rewrite Hv in Hs.
Qed.

Lemma submit_iff_valid_witness :
  handleSubmit isoDateParse 0 (Some unorderedSchema) filledState
    = Ok (setErrors (fun _ => []) filledState, [OnSubmit (formValues filledState)])
  /\ (exists effs,
        handleSubmit isoDateParse 0 (Some unorderedSchema) unorderedState
          = Ok (failedState, effs)
        /\ ~ submitted effs).
Proof.
  destruct (submit_iff_valid isoDateParse 0 unorderedSchema filledState)
    as (_ & Hvalid & _).
  destruct (submit_iff_valid isoDateParse 0 unorderedSchema unorderedState)
    as (_ & _ & Hinvalid & _).
  split.
  - apply (Hvalid (setErrors (fun _ => []) filledState) (mkValidation true []));
      [vm_compute; reflexivity | reflexivity].
  - destruct (Hinvalid failedState (mkValidation false unorderedErrors))
      as (effs & Hs & Hno & _); [vm_compute; reflexivity | discriminate |].
    exists effs. split; [exact Hs | exact Hno].
Defined.

(** Before a schema is loaded nothing is submitted either. *)
Lemma handleSubmit_no_schema dateParse now st :
  handleSubmit dateParse now None st = Ok (st, []).
Proof. reflexivity. Qed.

(** When the pass throws, so does the handler: nothing is submitted. *)
Lemma handleSubmit_throws dateParse now formData st err :
  validateForm dateParse now formData st = Throw err ->
  handleSubmit dateParse now formData st = Throw err.
Proof. intros H. unfold handleSubmit. by rewrite H. Qed.

(** *** Which value shapes make the pass throw *)

Lemma forEachM_total {A S} (f : S -> A -> Result S) (l : list A) (s : S) :
  (forall s x, exists s', f s x = Ok s') -> exists s', forEachM f l s = Ok s'.
Proof.
  intros Hf. revert s. induction l as [|x l IH]; intros s; [by eexists|].
  simpl. destruct (Hf s x) as [s1 ->]. simpl. apply IH.
Qed.

Lemma orEmpty_string values k :
  allStrings values -> exists s, Value.orEmpty (values !! k) = VStr s.
Proof.
  intros Hs. destruct (values !! k) as [v|] eqn:Hk; [|by eexists].
  destruct (Hs k v Hk) as [s ->]. simpl. destruct (negb (isEmpty s)); by eexists.
Qed.

Lemma validateField_total_on_strings dateParse now values section subSection e field :
  allStrings values ->
  exists e', validateField dateParse now values section subSection e field = Ok e'.
Proof.
  intros Hs. unfold validateField. destruct (isHidden field); [by eexists|].
  destruct (orEmpty_string values
              (getFieldKey (secName section) (subName subSection) field) Hs) as [s ->].
  unfold mandatoryCheck, emailCheck, phoneCheck. simpl.
  destruct (mandatory field); simpl;
    repeat (match goal with
            | |- context [if ?b then _ else _] => destruct b
            end; simpl); by eexists.
Qed.

(** On a store that holds only strings the pass always returns. *)
Lemma validateForm_total_on_strings dateParse now formData st :
  allStrings (formValues st) ->
  exists st' r, validateForm dateParse now formData st = Ok (st', r).
Proof.
  intros Hs. destruct formData as [fd|]; [|by eexists _, _].
  unfold validateForm, collectErrors.
  destruct (forEachM_total
              (validateSection dateParse now (formValues st) (visibleSections st))
              (sections fd) []) as [e ->]; [|by eexists _, _].
  intros e sec. unfold validateSection. case_bool_decide; [|by eexists].
  apply forEachM_total. intros e' sub. unfold validateSubSection.
  apply forEachM_total. intros e'' f. by apply validateField_total_on_strings.
Qed.

(** C4 fails on the code.  With two files stored under a mandatory image
    field (the value the image widget stores for two selected files), the
    mandatory check calls [value.trim()] on the array before the image
    check can coerce it, and the pass throws. A single stored [File] fares
    the same. *)
Theorem validateForm_throws_on_file_list :
  formValues twoPhotosState !! photoKey = Some twoPhotos
  /\ validateForm isoDateParse 0 (Some photoSchema) twoPhotosState
     = Throw "TypeError: value.trim is not a function"
  /\ validateForm isoDateParse 0 (Some photoSchema) onePhotoState
     = Throw "TypeError: value.trim is not a function"
  /\ effectsOf (handleSubmit isoDateParse 0 (Some photoSchema) twoPhotosState)
     = Throw "TypeError: value.trim is not a function".
Proof. repeat split; vm_compute; reflexivity. Qed.

(** ** Membership in the walks *)

Lemma elem_of_allFields fd section subSection field :
  (section, subSection, field) ∈ allFields fd
  <-> section ∈ sections fd /\ subSection ∈ subSections section
      /\ field ∈ fields subSection.
Proof.
  unfold allFields, sectionTriples, subSectionTriples. rewrite list_elem_of_bind.
  split.
  - intros (sec & Hin & Hsec). apply list_elem_of_bind in Hin as (sub & Hin & Hsub).
    apply list_elem_of_fmap in Hin as (f & [= -> -> ->] & Hf). done.
  - intros (Hsec & Hsub & Hf). exists section. split; [|done].
    apply list_elem_of_bind. exists subSection. split; [|done].
    apply list_elem_of_fmap. by exists field.
Qed.

Lemma elem_of_validationWalk visible fd t :
  t ∈ validationWalk visible fd
  <-> t ∈ allFields fd /\ secName t.1.1 ∈ visible /\ isHidden t.2 = false.
Proof.
  unfold validationWalk, allFields, notHidden, sectionVisible.
  rewrite list_elem_of_filter, !list_elem_of_bind, negb_true_iff.
  split.
  - intros (Hh & sec & Hin & [Hv Hsec]%list_elem_of_filter).
    apply bool_decide_eq_true in Hv.
    assert (t.1.1 = sec) as Ht.
    { unfold sectionTriples, subSectionTriples in Hin.
      apply list_elem_of_bind in Hin as (sub & Hin & _).
      by apply list_elem_of_fmap in Hin as (f & -> & _). }
    rewrite Ht. split; [by exists sec|done].
  - intros ((sec & Hin & Hsec) & Hv & Hh). split; [done|].
    exists sec. split; [done|]. apply list_elem_of_filter. split; [|done].
    apply bool_decide_eq_true.
    assert (t.1.1 = sec) as Ht.
    { unfold sectionTriples, subSectionTriples in Hin.
      apply list_elem_of_bind in Hin as (sub & Hin & _).
      by apply list_elem_of_fmap in Hin as (f & -> & _). }
    by rewrite <- Ht.
Qed.

(** ** The clock *)

Lemma dateCheck_clock dateParse now1 now2 field key v e :
  (String.eqb (inputType field) "DATE" = true -> isFutureDate field = true) ->
  dateCheck dateParse now1 field key v e = dateCheck dateParse now2 field key v e.
Proof.
  intros H. unfold dateCheck.
  destruct (String.eqb (inputType field) "DATE"); [|done].
  by rewrite H.
Qed.

Lemma validateField_clock dateParse now1 now2 values section subSection e field :
  (String.eqb (inputType field) "DATE" = true -> isFutureDate field = true) ->
  validateField dateParse now1 values section subSection e field =
  validateField dateParse now2 values section subSection e field.
Proof.
  intros H. unfold validateField. destruct (isHidden field); [done|].
  destruct (mandatoryCheck _ _ _ _); simpl; [|done].
  by rewrite (dateCheck_clock dateParse now1 now2).
Qed.

Lemma collectErrors_clock dateParse now1 now2 values visible fd :
  noFutureDateLimit fd ->
  collectErrors dateParse now1 values visible fd =
  collectErrors dateParse now2 values visible fd.
Proof.
  intros Hfd. unfold noFutureDateLimit in Hfd. rewrite Forall_forall in Hfd.
  unfold collectErrors. apply forEachM_ext. intros sec e Hsec.
  unfold validateSection. case_bool_decide; [|done].
  apply forEachM_ext. intros sub e' Hsub.
  unfold validateSubSection. apply forEachM_ext. intros f e'' Hf.
  apply validateField_clock.
  apply (Hfd (sec, sub, f)). by apply elem_of_allFields.
Qed.

(** C3, as stated, fails: the future-date check compares with [new Date()].
    The same schema, value store and visibility give one error object
    when validated in 2020 and another when validated in 2031. *)
Lemma validateForm_depends_on_clock :
  returnedBy (validateForm isoDateParse clock2020 (Some birthSchema) birthState)
    = Ok (mkValidation false [(birthKey, "Date of birth cannot be a future date")])
  /\ returnedBy (validateForm isoDateParse clock2031 (Some birthSchema) birthState)
     = Ok (mkValidation true [])
  /\ validateForm isoDateParse clock2020 (Some birthSchema) birthState
     <> validateForm isoDateParse clock2031 (Some birthSchema) birthState.
Proof.
  split; [vm_compute; reflexivity|]. split; [vm_compute; reflexivity|].
  intros H. apply (f_equal returnedBy) in H. vm_compute in H. discriminate H.
Qed.

(** C3, amended: [validateForm] is a function of the schema, the value
    store, the visibility set and the reading of the clock it takes.  Its
    result is the same at every reading when no date field of the schema
    forbids future dates; what it returns does not depend on the other
    state cells; and it leaves the value store, the visibility set and the
    expanded set as they were. *)
Theorem validateForm_deterministic dateParse formData st :
  (forall now1 now2,
     (forall fd, formData = Some fd -> noFutureDateLimit fd) ->
     validateForm dateParse now1 formData st = validateForm dateParse now2 formData st)
  /\ (forall now st2,
        formValues st2 = formValues st -> visibleSections st2 = visibleSections st ->
        returnedBy (validateForm dateParse now formData st2)
        = returnedBy (validateForm dateParse now formData st))
  /\ (forall now st' r,
        validateForm dateParse now formData st = Ok (st', r) ->
        formValues st' = formValues st /\ visibleSections st' = visibleSections st
        /\ expandedSections st' = expandedSections st).
Proof.
  split; [|split].
  - intros now1 now2 H. destruct formData as [fd|]; [|done].
    unfold validateForm.
    by rewrite (collectErrors_clock dateParse now1 now2) by (by apply H).
  - intros now st2 Hv Hs. destruct formData as [fd|]; [|done].
    unfold validateForm. rewrite Hv, Hs.
    by destruct (collectErrors _ _ _ _ _).
  - intros now st' r H. destruct formData as [fd|].
    + by apply validateForm_Some in H as (_ & -> & _).
    + by injection H as <- _.
Qed.

Lemma validateForm_deterministic_witness :
  noFutureDateLimit dueSchema
  /\ validateForm isoDateParse clock2020 (Some dueSchema) dueState
     = validateForm isoDateParse clock2031 (Some dueSchema) dueState
  /\ returnedBy (validateForm isoDateParse clock2020 (Some dueSchema) dueState)
     = Ok (mkValidation true [])
  /\ formValues (setErrors (fun _ => urlPhotoErrors) urlPhotoState) = formValues urlPhotoState.
Proof.
  assert (noFutureDateLimit dueSchema) as Hfd.
  { unfold noFutureDateLimit. by repeat constructor. }
  destruct (validateForm_deterministic isoDateParse (Some dueSchema) dueState)
    as (Hclock & _ & _).
  destruct (validateForm_deterministic isoDateParse (Some photoSchema) urlPhotoState)
    as (_ & _ & Hframe).
  split; [exact Hfd|]. split; [|split].
  - apply Hclock. intros fd [= <-]. exact Hfd.
  - vm_compute. reflexivity.
  - apply (Hframe 0 (setErrors (fun _ => urlPhotoErrors) urlPhotoState)
             (mkValidation false urlPhotoErrors)).
    vm_compute. reflexivity.
Defined.

(** ** Attachment counts *)

Section ImageCounts.

Variable dateParse : string -> option Z.
Variable now : Z.

Implicit Types (field : FormField) (subSection : SubSection) (key : string) (v : JsValue).

(** Without the mandatory flag the image check is skipped. *)
Lemma imageCheck_not_mandatory subSection field key v e :
  mandatory field = false -> imageCheck subSection field key v e = e.
Proof. intros H. unfold imageCheck. by rewrite H, andb_false_r. Qed.

(** A count out of bounds leaves the key in the object. *)
Lemma imageCheck_reports subSection field key v e :
  fieldType field = "IMAGE" -> mandatory field = true ->
  (0 < minImageCapture subSection /\ Value.coercedCount v < minImageCapture subSection)
  \/ (0 < maxImageCapture subSection /\ maxImageCapture subSection < Value.coercedCount v) ->
  key ∈ Obj.keys (imageCheck subSection field key v e).
Proof.
  intros Ht Hm Hc. unfold imageCheck. rewrite Ht, Hm. simpl.
  destruct (_ && (maxImageCapture subSection <? _)) eqn:Hmax; [apply keys_set_in|].
  destruct Hc as [[H0 H1]|[H0 H1]].
  - rewrite (proj2 (Z.ltb_lt _ _) H0), (proj2 (Z.ltb_lt _ _) H1). simpl. apply keys_set_in.
  - by rewrite (proj2 (Z.ltb_lt _ _) H0), (proj2 (Z.ltb_lt _ _) H1) in Hmax.
Qed.

Lemma keys_set_nonempty (k0 k m : string) (e : list (string * string)) :
  isEmpty m = false -> k0 ∈ Obj.keys e -> k0 ∈ Obj.keys (Obj.set k m e).
Proof. intros _. apply keys_set_mono. Qed.

(** Whenever the pass returns, a visible, non-hidden, mandatory image field
    whose count is out of bounds has an entry in the error object. *)
Lemma validateForm_image_reported fd st st' r (t : Triple) :
  validateForm dateParse now (Some fd) st = Ok (st', r) ->
  t ∈ allFields fd -> secName t.1.1 ∈ visibleSections st -> isHidden t.2 = false ->
  fieldType t.2 = "IMAGE" -> mandatory t.2 = true ->
  (0 < minImageCapture t.1.2
   /\ Value.coercedCount (storedValue (formValues st) t) < minImageCapture t.1.2)
  \/ (0 < maxImageCapture t.1.2
      /\ maxImageCapture t.1.2 < Value.coercedCount (storedValue (formValues st) t)) ->
  tripleKey t ∈ Obj.keys (resultErrors r) /\ isValid r = false.
Proof.
  intros Hv Hin Hvis Hh Ht Hm Hc.
  destruct (validateForm_Some _ _ _ _ _ _ Hv) as (Hcol & _ & Hvalid).
  assert (tripleKey t ∈ Obj.keys (resultErrors r)) as Hkey.
  { rewrite collectErrors_walk in Hcol.
    assert (t ∈ validationWalk (visibleSections st) fd) as Hw
      by (by apply elem_of_validationWalk).
    apply list_elem_of_split in Hw as (l1 & l2 & Hw). rewrite Hw in Hcol.
    rewrite forEachM_app in Hcol.
    destruct (forEachM _ l1 []) as [e1|]; simpl in Hcol; [|done].
    cbn [forEachM] in Hcol.
    destruct (walkStep dateParse now (formValues st) e1 t)
      as [e2|] eqn:Hf; simpl in Hcol; [|done].
    apply (forEachM_step_preserves dateParse now (formValues st)
             (fun e => tripleKey t ∈ Obj.keys e) (keys_set_nonempty (tripleKey t))
             l2 e2); [|exact Hcol].
    unfold walkStep, validateField in Hf. rewrite Hh in Hf.
    destruct (mandatoryCheck _ _ _ _) as [e3|]; simpl in Hf; [|done].
    eapply (after_image_preserves (fun e => tripleKey t ∈ Obj.keys e)
              (keys_set_nonempty (tripleKey t))); [|exact Hf].
    by apply imageCheck_reports. }
  split; [done|]. rewrite Hvalid. apply bool_decide_eq_false.
  intros He. rewrite He in Hkey. by apply elem_of_nil in Hkey.
Qed.

End ImageCounts.

(** C2, as stated, fails: the count checks sit inside the branch guarded by
    the mandatory flag.  A visible, non-hidden image field that is not
    mandatory, in a subsection asking for at least two images, holding one
    file: the pass returns an empty error object. *)
Lemma optional_image_count_unchecked :
  (fieldType optionalPhotoField = "IMAGE" /\ isHidden optionalPhotoField = false
   /\ mandatory optionalPhotoField = false)
  /\ formValues optionalOnePhotoState !! photoKey = Some (VFile (mkFile "front.png" 1024))
  /\ "KYC" ∈ visibleSections optionalOnePhotoState
  /\ returnedBy (validateForm isoDateParse 0 (Some optionalPhotoSchema) optionalOnePhotoState)
     = Ok (mkValidation true []).
Proof.
  split; [done|]. split; [vm_compute; reflexivity|]. split; [|vm_compute; reflexivity].
  apply (bool_decide_unpack _). vm_compute. exact I.
Qed.

(** ** Folds *)

Lemma foldl_bind {A B C} (f : A -> C -> A) (g : B -> list C) (l : list B) (a : A) :
  foldl f a (l ≫= g) = foldl (fun a x => foldl f a (g x)) a l.
Proof.
  revert a. induction l as [|x l IH]; intros a; [done|].
  rewrite bind_cons, foldl_app. apply IH.
Qed.

Lemma foldl_map {A B C} (f : A -> C -> A) (h : B -> C) (l : list B) (a : A) :
  foldl f a (map h l) = foldl (fun a x => f a (h x)) a l.
Proof. revert a. induction l as [|x l IH]; intros a; [done|]. apply IH. Qed.

Lemma foldl_ext_in {A B} (f g : A -> B -> A) (l : list B) (a : A) :
  (forall a x, x ∈ l -> f a x = g a x) -> foldl f a l = foldl g a l.
Proof.
  revert a. induction l as [|x l IH]; intros a H; [done|]. simpl.
  rewrite (H a x) by (by left). apply IH. intros a' y Hy. apply H. by right.
Qed.

(** ** The initialiser *)

Section Initialiser.

Implicit Types (acc : InitAcc) (section : Section) (subSection : SubSection).

Lemma initField_fold section subSection acc l :
  foldl (initField section subSection) acc l =
  mkInitAcc (foldl writeDefault (initialValues acc)
               (map (fun f => (section, subSection, f)) l))
            (initialVisible acc) (initialExpanded acc).
Proof.
  revert acc. induction l as [|f l IH]; intros acc; [by destruct acc|].
  simpl. by rewrite IH.
Qed.

Lemma initSubSection_eq section acc subSection :
  initSubSection section acc subSection =
  mkInitAcc (foldl writeDefault (initialValues acc) (subSectionTriples section subSection))
            (initialVisible acc)
            (list_to_set (expandedOfSubSection section subSection) ∪ initialExpanded acc).
Proof.
  unfold initSubSection, expandedOfSubSection, subSectionKey, subSectionTriples.
  rewrite initField_fold.
  destruct (subIsPrePopulateData subSection), acc; simpl; f_equal; set_solver.
Qed.

Lemma initSubSection_fold section acc l :
  foldl (initSubSection section) acc l =
  mkInitAcc (foldl writeDefault (initialValues acc) (l ≫= subSectionTriples section))
            (initialVisible acc)
            (list_to_set (l ≫= expandedOfSubSection section) ∪ initialExpanded acc).
Proof.
  revert acc. induction l as [|sub l IH]; intros acc.
  - destruct acc; simpl. f_equal. set_solver.
  - cbn [foldl]. rewrite IH, initSubSection_eq. cbn [initialValues initialVisible initialExpanded].
    rewrite !bind_cons, foldl_app, list_to_set_app_L. f_equal. set_solver.
Qed.

Lemma initSection_eq acc section :
  initSection acc section =
  mkInitAcc (foldl writeDefault (initialValues acc) (sectionTriples section))
            ({[secName section]} ∪ initialVisible acc)
            (list_to_set (expandedOfSection section) ∪ initialExpanded acc).
Proof.
  unfold initSection, expandedOfSection, sectionTriples.
  rewrite initSubSection_fold, list_to_set_app_L.
  destruct (secIsPrePopulateData section), acc; simpl; f_equal; set_solver.
Qed.

Lemma initSection_fold acc l :
  foldl initSection acc l =
  mkInitAcc (foldl writeDefault (initialValues acc) (l ≫= sectionTriples))
            (list_to_set (secName <$> l) ∪ initialVisible acc)
            (list_to_set (l ≫= expandedOfSection) ∪ initialExpanded acc).
Proof.
  revert acc. induction l as [|sec l IH]; intros acc.
  - destruct acc; simpl. f_equal; set_solver.
  - cbn [foldl]. rewrite IH, initSection_eq. cbn [initialValues initialVisible initialExpanded].
    rewrite !bind_cons, foldl_app, list_to_set_app_L. f_equal; set_solver.
Qed.

(** The state the effect leaves, in closed form *)
Lemma initialize_Some fd st :
  initialize (Some fd) st =
  mkState (foldl writeDefault ∅ (allFields fd)) (errors st)
          (list_to_set (secName <$> sections fd))
          (list_to_set (sections fd ≫= expandedOfSection)).
Proof.
  unfold initialize. rewrite initSection_fold. simpl. unfold allFields.
  f_equal; set_solver.
Qed.

(** A key written by no field of the list keeps its entry. *)
Lemma writeDefault_fold_other (l : list Triple) m k :
  fieldsWithKey k l = [] -> foldl writeDefault m l !! k = m !! k.
Proof.
  revert m. induction l as [|t l IH]; intros m H; [done|].
  unfold fieldsWithKey in H. rewrite filter_cons in H.
  destruct (decide (tripleKey t = k)) as [Heq|Hne]; [done|].
  simpl. rewrite IH by done. unfold writeDefault. by rewrite lookup_insert_ne.
Qed.

(** A key written by some field holds the default of the last such field. *)
Lemma writeDefault_fold_last (l : list Triple) m k :
  foldl writeDefault m l !! k =
  match last (fieldsWithKey k l) with
  | Some t => Some (VStr (defaultValue t.2))
  | None => m !! k
  end.
Proof.
  revert m. induction l as [|t l IH]; intros m; [done|].
  simpl. rewrite IH. unfold fieldsWithKey. rewrite filter_cons.
  destruct (decide (tripleKey t = k)) as [Heq|Hne].
  - rewrite last_cons. destruct (last (filter _ l)); [done|].
    unfold writeDefault. by rewrite Heq, lookup_insert_eq.
  - destruct (last (filter _ l)); [done|].
    unfold writeDefault. by rewrite lookup_insert_ne.
Qed.

(** With pairwise different keys, a field is the last one with its key. *)
Lemma fieldsWithKey_NoDup (l : list Triple) t :
  NoDup (map tripleKey l) -> t ∈ l -> last (fieldsWithKey (tripleKey t) l) = Some t.
Proof.
  induction l as [|u l IH]; intros Hnd Hin; [by apply elem_of_nil in Hin|].
  simpl in Hnd. apply NoDup_cons in Hnd as [Hu Hnd].
  unfold fieldsWithKey in *. rewrite filter_cons.
  apply elem_of_cons in Hin as [->|Hin].
  - rewrite decide_True by done. rewrite last_cons.
    destruct (filter (fun t => tripleKey t = tripleKey u) l) as [|w ws] eqn:Hf; [done|].
    assert (w ∈ filter (fun t => tripleKey t = tripleKey u) l) as Hw
      by (rewrite Hf; by left).
    apply list_elem_of_filter in Hw as [Heq Hw]. destruct Hu.
    rewrite <- Heq. apply list_elem_of_fmap. by exists w.
  - destruct (decide (tripleKey u = tripleKey t)) as [Heq|Hne].
    + destruct Hu. rewrite Heq. apply list_elem_of_fmap. by exists t.
    + by apply IH.
Qed.

End Initialiser.

(** C9 fails on the code in its last part.  The initialiser writes each
    field's default under the key [getFieldKey] gives the field, and that
    key, meant to be unique, is shared by the two fields of
    [collidingSchema]: the later write wins, so the first field declares
    ["x"] and finds ["y"] under its key. *)
Theorem initialize_shared_key :
  (mkSection "A" false [mkSubSection "s" 0 0 false [nameField; nameFieldAgain]],
   mkSubSection "s" 0 0 false [nameField; nameFieldAgain], nameField)
    ∈ allFields collidingSchema
  /\ defaultValue nameField = "x"
  /\ getFieldKey "A" "s" nameField = getFieldKey "A" "s" nameFieldAgain
  /\ formValues (initialize (Some collidingSchema) initialState)
       !! getFieldKey "A" "s" nameField = Some (VStr "y").
Proof.
  split; [by left|]. split; [reflexivity|]. split; [reflexivity|].
  vm_compute. reflexivity.
Qed.

(** X23: for every schema the initialising effect makes the visible set
    the set of all section names, whatever the dependency rules are; makes
    the expanded set the names of the pre-populated sections together with
    the composite keys of the pre-populated subsections; and maps every
    field's key to the declared default (or the empty string) of the last
    field in walk order that has this key, which is the field itself when
    the keys of the schema are pairwise different.  It maps no other key. *)
Theorem initialize_spec fd st :
  let st' := initialize (Some fd) st in
  (forall x, x ∈ visibleSections st' <-> exists sec, sec ∈ sections fd /\ x = secName sec)
  /\ (forall x,
        x ∈ expandedSections st' <->
        (exists sec, sec ∈ sections fd /\ secIsPrePopulateData sec = true /\ x = secName sec)
        \/ (exists sec sub,
              sec ∈ sections fd /\ sub ∈ subSections sec
              /\ subIsPrePopulateData sub = true /\ x = subSectionKey sec sub))
  /\ (forall t, t ∈ allFields fd ->
        exists u, last (fieldsWithKey (tripleKey t) (allFields fd)) = Some u
                  /\ formValues st' !! tripleKey t = Some (VStr (defaultValue u.2)))
  /\ (forall k, fieldsWithKey k (allFields fd) = [] -> formValues st' !! k = None)
  /\ (NoDup (fieldKeys fd) ->
      forall t, t ∈ allFields fd ->
        formValues st' !! tripleKey t = Some (VStr (defaultValue t.2)))
  /\ (forall rules, initialize (Some (mkFormData (sections fd) rules)) st = st').
Proof.
  intros st'. subst st'. rewrite initialize_Some. simpl.
  split; [|split; [|split; [|split; [|split]]]].
  - intros x. rewrite elem_of_list_to_set, list_elem_of_fmap. naive_solver.
  - intros x. rewrite elem_of_list_to_set, list_elem_of_bind. split.
    + intros (sec & Hx & Hsec). unfold expandedOfSection in Hx.
      apply elem_of_app in Hx as [Hx|Hx].
      * left. exists sec. destruct (secIsPrePopulateData sec); [|by apply elem_of_nil in Hx].
        apply list_elem_of_singleton in Hx. done.
      * right. apply list_elem_of_bind in Hx as (sub & Hx & Hsub).
        exists sec, sub. unfold expandedOfSubSection in Hx.
        destruct (subIsPrePopulateData sub); [|by apply elem_of_nil in Hx].
        apply list_elem_of_singleton in Hx. done.
    + intros [(sec & Hsec & Hp & ->)|(sec & sub & Hsec & Hsub & Hp & ->)];
        exists sec; (split; [|done]); unfold expandedOfSection; apply elem_of_app.
      * left. rewrite Hp. by left.
      * right. apply list_elem_of_bind. exists sub. split; [|done].
        unfold expandedOfSubSection. rewrite Hp. by left.
  - intros t Ht. rewrite writeDefault_fold_last.
    destruct (last (fieldsWithKey (tripleKey t) (allFields fd))) as [u|] eqn:Hl.
    + by exists u.
    + apply last_None in Hl.
      assert (t ∈ fieldsWithKey (tripleKey t) (allFields fd)) as Hin
        by (by apply list_elem_of_filter).
      rewrite Hl in Hin. by apply elem_of_nil in Hin.
  - intros k Hk. by rewrite writeDefault_fold_other.
  - intros Hnd t Ht. rewrite writeDefault_fold_last.
    by rewrite fieldsWithKey_NoDup.
  - intros rules. by rewrite <- (initialize_Some fd st).
Qed.

Lemma initialize_spec_witness :
  NoDup (fieldKeys unorderedSchema)
  /\ "A" ∈ visibleSections (initialize (Some unorderedSchema) initialState)
  /\ formValues (initialize (Some unorderedSchema) initialState)
       !! getFieldKey "A" "s" secondInList = Some (VStr "").
Proof.
  assert (NoDup (fieldKeys unorderedSchema)) as Hnd.
  { change (NoDup ["A__s__First__First"; "A__s__Second__Second"]).
    apply NoDup_cons. split.
    - intros H. apply list_elem_of_singleton in H. discriminate H.
    - apply NoDup_singleton. }
  destruct (initialize_spec unorderedSchema initialState) as (Hvis & _ & _ & _ & Hval & _).
  split; [exact Hnd|]. split.
  - apply Hvis. eexists. split; [by left | reflexivity].
  - apply (Hval Hnd (mkSection "A" true [mkSubSection "s" 0 0 true [firstInList; secondInList]],
                     mkSubSection "s" 0 0 true [firstInList; secondInList], secondInList)).
    right. by left.
Defined.

(** ** The dependency resolver *)

Section Resolver.

Variable fd : FormData.
Variable fieldKey : string.
Variable v : JsValue.

Local Abbreviation step := (ruleStep fd fieldKey v).

Lemma checkDependentSections_Some st :
  checkDependentSections (Some fd) fieldKey v st = foldl step st (dependentSectionsDetails fd).
Proof. reflexivity. Qed.

(** Clearing the sections of a name, as one loop over their fields *)
Lemma clearSection_triples dependent vals secs :
  foldl (clearSection dependent) vals secs =
  foldl clearTriple vals
    (filter (fun s => secName s = dependent) secs ≫= sectionTriples).
Proof.
  revert vals. induction secs as [|sec secs IH]; intros vals; [done|].
  rewrite filter_cons. cbn [foldl]. rewrite IH.
  assert (clearSection dependent vals sec =
          if decide (secName sec = dependent)
          then foldl (clearSubSection sec) vals (subSections sec) else vals) as ->
    by reflexivity.
  destruct (decide (secName sec = dependent)) as [Heq|Hne]; [|done].
  rewrite bind_cons, foldl_app. f_equal.
  unfold sectionTriples. rewrite foldl_bind. apply foldl_ext_in. intros m sub _.
  unfold clearSubSection, subSectionTriples. by rewrite foldl_map.
Qed.

Lemma clearTriple_fold_in (l : list Triple) m t :
  t ∈ l -> foldl clearTriple m l !! tripleKey t = Some (VStr "").
Proof.
  revert m. induction l as [|u l IH] using rev_ind; intros m Hin;
    [by apply elem_of_nil in Hin|].
  rewrite foldl_snoc. unfold clearTriple at 1.
  destruct (decide (tripleKey u = tripleKey t)) as [Heq|Hne].
  - by rewrite Heq, lookup_insert_eq.
  - rewrite lookup_insert_ne by done. apply IH.
    apply elem_of_app in Hin as [Hin|Hin]; [done|].
    apply list_elem_of_singleton in Hin. by subst.
Qed.

(** Clearing writes nothing but the empty string. *)
Lemma clearTriple_fold_keeps (l : list Triple) m k :
  m !! k = Some (VStr "") -> foldl clearTriple m l !! k = Some (VStr "").
Proof.
  revert m. induction l as [|u l IH]; intros m H; [done|].
  simpl. apply IH. unfold clearTriple.
  destruct (decide (tripleKey u = k)) as [<-|Hne].
  - by rewrite lookup_insert_eq.
  - by rewrite lookup_insert_ne.
Qed.

Lemma clearTriple_fold_other (l : list Triple) m k :
  k ∉ map tripleKey l -> foldl clearTriple m l !! k = m !! k.
Proof.
  revert m. induction l as [|u l IH]; intros m H; [done|].
  simpl in *. apply not_elem_of_cons in H as [Hne H].
  rewrite IH by done. unfold clearTriple. by rewrite lookup_insert_ne.
Qed.

Lemma elem_of_dependentTriples dependent (t : Triple) :
  t ∈ dependentTriples dependent fd <-> t ∈ allFields fd /\ secName t.1.1 = dependent.
Proof.
  unfold dependentTriples, allFields. rewrite !list_elem_of_bind. split.
  - intros (sec & Hin & [Hn Hsec]%list_elem_of_filter).
    assert (t.1.1 = sec) as Ht.
    { unfold sectionTriples, subSectionTriples in Hin.
      apply list_elem_of_bind in Hin as (sub & Hin & _).
      by apply list_elem_of_fmap in Hin as (f & -> & _). }
    rewrite Ht. split; [by exists sec|done].
  - intros ((sec & Hin & Hsec) & Hn). exists sec. split; [done|].
    apply list_elem_of_filter. split; [|done].
    assert (t.1.1 = sec) as Ht.
    { unfold sectionTriples, subSectionTriples in Hin.
      apply list_elem_of_bind in Hin as (sub & Hin & _).
      by apply list_elem_of_fmap in Hin as (f & -> & _). }
    by rewrite <- Ht.
Qed.

(** A rule that is not triggered does nothing. *)
Lemma step_not_triggered st rule :
  triggeredBy fieldKey rule = false -> step st rule = st.
Proof. intros H. unfold ruleStep, applyRule. unfold triggeredBy in H. by rewrite H. Qed.

(** A triggered rule whose value differs hides and clears its section. *)
Lemma step_hides st rule :
  triggeredBy fieldKey rule = true ->
  Value.strictEqStr v (ruleValue rule) = false ->
  step st rule =
  mkState (foldl clearTriple (formValues st)
             (dependentTriples (dependentSectionValue rule) fd))
          (errors st) (visibleSections st ∖ {[dependentSectionValue rule]})
          (expandedSections st).
Proof.
  intros Ht Hv. unfold ruleStep, applyRule. unfold triggeredBy in Ht. rewrite Ht, Hv.
  unfold setFormValues, setVisibleSections; simpl. by rewrite clearSection_triples.
Qed.

(** A triggered rule whose value agrees shows its section. *)
Lemma step_shows st rule :
  triggeredBy fieldKey rule = true ->
  Value.strictEqStr v (ruleValue rule) = true ->
  step st rule = setVisibleSections (fun prev => {[dependentSectionValue rule]} ∪ prev) st.
Proof.
  intros Ht Hv. unfold ruleStep, applyRule. unfold triggeredBy in Ht. by rewrite Ht, Hv.
Qed.

(** No rule touches the errors or the expanded set. *)
Lemma step_frame st rule :
  errors (step st rule) = errors st
  /\ expandedSections (step st rule) = expandedSections st.
Proof.
  unfold ruleStep, applyRule. destruct (ruleMatches _ _ _); [|done].
  by destruct (Value.strictEqStr _ _).
Qed.

(** A cleared entry stays cleared under any rule. *)
Lemma step_keeps_cleared st rule k :
  formValues st !! k = Some (VStr "") -> formValues (step st rule) !! k = Some (VStr "").
Proof.
  intros H. destruct (triggeredBy fieldKey rule) eqn:Ht;
    [|by rewrite step_not_triggered].
  destruct (Value.strictEqStr v (ruleValue rule)) eqn:Hv.
  - by rewrite step_shows.
  - rewrite step_hides by done. simpl. by apply clearTriple_fold_keeps.
Qed.

Lemma fold_keeps_cleared rules st k :
  formValues st !! k = Some (VStr "") ->
  formValues (foldl step st rules) !! k = Some (VStr "").
Proof.
  revert st. induction rules as [|rule rules IH]; intros st H; [done|].
  simpl. by apply IH, step_keeps_cleared.
Qed.

(** A hidden section stays hidden unless some rule shows it. *)
Lemma fold_keeps_hidden rules st dependent :
  Forall (fun rule => ~ shows fieldKey v dependent rule) rules ->
  dependent ∉ visibleSections st ->
  dependent ∉ visibleSections (foldl step st rules).
Proof.
  revert st. induction rules as [|rule rules IH]; intros st Hr H; [done|].
  apply Forall_cons in Hr as [Hrule Hr]. simpl. apply IH; [done|].
  destruct (triggeredBy fieldKey rule) eqn:Ht;
    [|by rewrite step_not_triggered].
  destruct (Value.strictEqStr v (ruleValue rule)) eqn:Hv.
  - rewrite step_shows by done. simpl.
    intros [Hin|Hin]%elem_of_union; [|done].
    apply elem_of_singleton in Hin. by destruct Hrule.
  - rewrite step_hides by done. simpl. set_solver.
Qed.

(** With no rule triggered the resolver changes nothing. *)
Lemma checkDependentSections_untriggered st :
  noRuleMatches fd fieldKey -> checkDependentSections (Some fd) fieldKey v st = st.
Proof.
  rewrite checkDependentSections_Some. unfold noRuleMatches.
  generalize (dependentSectionsDetails fd). intros rules.
  revert st. induction rules as [|rule rules IH]; intros st Hr; [done|].
  apply Forall_cons in Hr as [Hrule Hr]. simpl.
  rewrite step_not_triggered by done. by apply IH.
Qed.

(** The resolver after a rule that hides: the section's fields are cleared
    and stay so; the section is hidden and stays so unless a later rule
    shows it. *)
Lemma checkDependentSections_hides st (l1 l2 : list DependentSectionDetail) rule :
  dependentSectionsDetails fd = (l1 ++ rule :: l2)%list ->
  triggeredBy fieldKey rule = true ->
  Value.strictEqStr v (ruleValue rule) = false ->
  (forall t : Triple,
     t ∈ allFields fd -> secName t.1.1 = dependentSectionValue rule ->
     formValues (checkDependentSections (Some fd) fieldKey v st) !! tripleKey t
     = Some (VStr ""))
  /\ (Forall (fun later => ~ shows fieldKey v (dependentSectionValue rule) later) l2 ->
      dependentSectionValue rule
        ∉ visibleSections (checkDependentSections (Some fd) fieldKey v st)).
Proof.
  intros Hrules Ht Hv. rewrite checkDependentSections_Some, Hrules.
  rewrite foldl_app. cbn [foldl]. rewrite (step_hides _ rule Ht Hv). split.
  - intros t Hin Hsec. apply fold_keeps_cleared. simpl.
    apply clearTriple_fold_in. by apply elem_of_dependentTriples.
  - intros Hl2. apply fold_keeps_hidden; [done|]. simpl. set_solver.
Qed.

End Resolver.

Lemma handleFieldChange_resolver fd fieldKey v st :
  exists st2, handleFieldChange (Some fd) fieldKey v st
              = checkDependentSections (Some fd) fieldKey v st2.
Proof. unfold handleFieldChange. by eexists. Qed.

(** C1, as stated, fails: rules are applied in order to the one new value,
    and a later rule for the same field and the same section whose value
    does agree shows the section again.  In [twoRuleSchema] the new value
    ["Maybe"] differs from the trigger value ["Yes"] of the first rule, and
    section B is visible after the call. *)
Lemma hidden_section_shown_again :
  dependentSectionsDetails twoRuleSchema
    = [mkRule "Yes" "A" "HasLoan" "B"; mkRule "Maybe" "A" "HasLoan" "B"]
  /\ triggeredBy loanKey (mkRule "Yes" "A" "HasLoan" "B") = true
  /\ Value.strictEqStr (VStr "Maybe") "Yes" = false
  /\ "B" ∈ visibleSections
             (checkDependentSections (Some twoRuleSchema) loanKey (VStr "Maybe")
                (loanState twoRuleSchema))
  /\ "B" ∈ visibleSections
             (handleFieldChange (Some twoRuleSchema) loanKey (VStr "Maybe")
                (loanState twoRuleSchema)).
Proof.
  split; [reflexivity|]. split; [reflexivity|]. split; [reflexivity|].
  split; apply (bool_decide_unpack _); vm_compute; exact I.
Qed.

(** C1, amended: when the resolver is invoked with a new value that differs
    from the trigger value of a rule matching the changed field, then after
    the call every field key of the rule's dependent section is mapped to
    the empty string; and the dependent section is absent from the visible
    set provided no later rule matching the same field and naming the same
    section has the new value as its trigger value.  The same holds after
    the whole field-change handler. *)
Theorem dependent_section_hidden fd fieldKey v st
    (l1 l2 : list DependentSectionDetail) rule :
  dependentSectionsDetails fd = (l1 ++ rule :: l2)%list ->
  triggeredBy fieldKey rule = true ->
  Value.strictEqStr v (ruleValue rule) = false ->
  let st' := checkDependentSections (Some fd) fieldKey v st in
  let st'' := handleFieldChange (Some fd) fieldKey v st in
  (forall t : Triple,
     t ∈ allFields fd -> secName t.1.1 = dependentSectionValue rule ->
     formValues st' !! tripleKey t = Some (VStr "")
     /\ formValues st'' !! tripleKey t = Some (VStr ""))
  /\ (Forall (fun later => ~ shows fieldKey v (dependentSectionValue rule) later) l2 ->
      (dependentSectionValue rule ∉ visibleSections st')
      /\ (dependentSectionValue rule ∉ visibleSections st'')).
Proof.
  intros Hrules Ht Hv st' st''. subst st' st''.
  destruct (handleFieldChange_resolver fd fieldKey v st) as [st2 ->].
  destruct (checkDependentSections_hides fd fieldKey v st l1 l2 rule Hrules Ht Hv)
    as [Hvals Hvis].
  destruct (checkDependentSections_hides fd fieldKey v st2 l1 l2 rule Hrules Ht Hv)
    as [Hvals2 Hvis2].
  split.
  - intros t Hin Hsec. split; [by apply Hvals | by apply Hvals2].
  - intros Hl2. split; [by apply Hvis | by apply Hvis2].
Qed.

Lemma dependent_section_hidden_witness :
  formValues (loanState oneRuleSchema) !! amountKey = Some (VStr "1000")
  /\ "B" ∈ visibleSections (loanState oneRuleSchema)
  /\ formValues (handleFieldChange (Some oneRuleSchema) loanKey (VStr "No")
                   (loanState oneRuleSchema)) !! amountKey = Some (VStr "")
  /\ "B" ∉ visibleSections (handleFieldChange (Some oneRuleSchema) loanKey (VStr "No")
                              (loanState oneRuleSchema)).
Proof.
  destruct (dependent_section_hidden oneRuleSchema loanKey (VStr "No")
              (loanState oneRuleSchema) [] [] (mkRule "Yes" "A" "HasLoan" "B")
              eq_refl eq_refl eq_refl) as [Hvals Hvis].
  split; [vm_compute; reflexivity|].
  split; [apply (bool_decide_unpack _); vm_compute; exact I|].
  split.
  - apply (Hvals (mkSection "B" true [mkSubSection "t" 0 0 true [amountField]],
                  mkSubSection "t" 0 0 true [amountField], amountField)).
    + right. by left.
    + reflexivity.
  - apply Hvis. constructor.
Defined.

(** ** The field-change handler *)

Lemma messagesNonEmpty_get e k m :
  messagesNonEmpty e -> Obj.get k e = Some m -> isEmpty m = false.
Proof.
  unfold messagesNonEmpty. induction e as [|[k' m'] e IH]; simpl; [done|].
  intros [Hm He]%Forall_cons. destruct (decide (k' = k)); [by intros [= <-]|].
  by apply IH.
Qed.

Lemma messagesNonEmpty_delete e k :
  messagesNonEmpty e -> messagesNonEmpty (Obj.delete k e).
Proof.
  unfold messagesNonEmpty. induction e as [|[k' m'] e IH]; simpl; [done|].
  intros [Hm He]%Forall_cons. destruct (decide (k' = k)); [by apply IH|].
  apply Forall_cons. split; [done | by apply IH].
Qed.

Lemma messagesNonEmpty_set k m e :
  isEmpty m = false -> messagesNonEmpty e -> messagesNonEmpty (Obj.set k m e).
Proof.
  unfold messagesNonEmpty. intros Hm. induction e as [|[k' m'] e IH]; simpl.
  - intros _. by apply Forall_cons.
  - intros [Hm' He]%Forall_cons. destruct (decide (k' = k)).
    + by apply Forall_cons.
    + apply Forall_cons. split; [done | by apply IH].
Qed.

Lemma handleFieldChange_errors formData fieldKey v st :
  messagesNonEmpty (errors st) ->
  errors (handleFieldChange formData fieldKey v st) = Obj.delete fieldKey (errors st).
Proof.
  intros Hne. unfold handleFieldChange.
  assert (errors
            match Obj.get fieldKey (errors st) with
            | Some msg =>
                if isEmpty msg
                then setFormValues (fun prev => <[fieldKey:=v]> prev) st
                else setErrors (fun prev => Obj.delete fieldKey prev)
                       (setFormValues (fun prev => <[fieldKey:=v]> prev) st)
            | None => setFormValues (fun prev => <[fieldKey:=v]> prev) st
            end = Obj.delete fieldKey (errors st)) as Herr.
  { destruct (Obj.get fieldKey (errors st)) as [msg|] eqn:Hg.
    - by rewrite (messagesNonEmpty_get _ _ _ Hne Hg).
    - simpl. by rewrite delete_absent. }
  destruct formData as [fd|]; [|done].
  rewrite checkDependentSections_Some. rewrite <- Herr.
  generalize (dependentSectionsDetails fd). intros rules.
  match goal with |- errors (foldl _ ?s _) = _ => generalize s end.
  induction rules as [|rule rules IH]; intros s; [done|].
  simpl. rewrite IH. apply step_frame.
Qed.

(** The messages of the error cell are non-empty in every state the
    component reaches: initially, and after each operation. *)
Lemma messagesNonEmpty_invariant :
  messagesNonEmpty (errors initialState)
  /\ (forall formData st,
        messagesNonEmpty (errors st) -> messagesNonEmpty (errors (initialize formData st)))
  /\ (forall formData fieldKey v st,
        messagesNonEmpty (errors st) ->
        messagesNonEmpty (errors (handleFieldChange formData fieldKey v st)))
  /\ (forall dateParse now formData st st' r,
        messagesNonEmpty (errors st) ->
        validateForm dateParse now formData st = Ok (st', r) ->
        messagesNonEmpty (errors st')).
Proof.
  split; [constructor|]. split; [|split].
  - intros [fd|] st H; [|done]. by rewrite initialize_Some.
  - intros formData fieldKey v st H. rewrite handleFieldChange_errors by done.
    by apply messagesNonEmpty_delete.
  - intros dateParse now [fd|] st st' r H Hv.
    + apply validateForm_Some in Hv as (Hc & -> & _). simpl.
      rewrite collectErrors_walk in Hc.
      apply (forEachM_step_preserves dateParse now (formValues st) messagesNonEmpty
               messagesNonEmpty_set _ [] _) in Hc; [done|constructor].
    + by injection Hv as <- _.
Qed.

(** C10: when the key of the changed field triggers no rule, the handler
    overwrites that key's entry of the value store with the new value and
    removes that key's entry from the errors; every other value and error
    entry, the visible set and the expanded set are unchanged. *)
Theorem field_change_frame formData fieldKey v st :
  (forall fd, formData = Some fd -> noRuleMatches fd fieldKey) ->
  messagesNonEmpty (errors st) ->
  let st' := handleFieldChange formData fieldKey v st in
  formValues st' = <[fieldKey := v]> (formValues st)
  /\ errors st' = Obj.delete fieldKey (errors st)
  /\ formValues st' !! fieldKey = Some v
  /\ Obj.get fieldKey (errors st') = None
  /\ (forall k, k <> fieldKey ->
        formValues st' !! k = formValues st !! k
        /\ Obj.get k (errors st') = Obj.get k (errors st))
  /\ visibleSections st' = visibleSections st
  /\ expandedSections st' = expandedSections st.
Proof.
  intros Hrules Hne st'.
  assert (errors st' = Obj.delete fieldKey (errors st)) as Herr
    by (by apply handleFieldChange_errors).
  assert (formValues st' = <[fieldKey := v]> (formValues st)
          /\ visibleSections st' = visibleSections st
          /\ expandedSections st' = expandedSections st) as (Hval & Hvis & Hexp).
  { subst st'. unfold handleFieldChange. destruct formData as [fd|].
    - rewrite checkDependentSections_untriggered by (by apply Hrules).
      by destruct (Obj.get _ _) as [msg|]; [destruct (isEmpty msg)|].
    - by destruct (Obj.get _ _) as [msg|]; [destruct (isEmpty msg)|]. }
  rewrite Herr, Hval. repeat split; try done.
  - by rewrite lookup_insert_eq.
  - apply get_delete_eq.
  - by rewrite lookup_insert_ne.
  - by apply get_delete_ne.
Qed.

Lemma field_change_frame_witness :
  noRuleMatches unorderedSchema "A__s__First__First"
  /\ messagesNonEmpty (errors failedState)
  /\ Obj.get "A__s__First__First" (errors failedState) = Some "First is required"
  /\ errors (handleFieldChange (Some unorderedSchema) "A__s__First__First" (VStr "x")
               failedState)
     = [("A__s__Second__Second", "Second is required")]
  /\ visibleSections (handleFieldChange (Some unorderedSchema) "A__s__First__First"
                        (VStr "x") failedState)
     = visibleSections failedState.
Proof.
  assert (noRuleMatches unorderedSchema "A__s__First__First") as Hr by constructor.
  assert (messagesNonEmpty (errors failedState)) as Hm by (by repeat constructor).
  destruct (field_change_frame (Some unorderedSchema) "A__s__First__First" (VStr "x")
              failedState) as (_ & Herr & _ & _ & _ & Hvis & _).
  - intros fd [= <-]. exact Hr.
  - exact Hm.
  - split; [exact Hr|]. split; [exact Hm|]. split; [reflexivity|].
    split; [rewrite Herr; reflexivity | exact Hvis].
Defined.

(** * Further properties of the engine *)

(** ** More on insertion-ordered objects *)

Section ObjMore.

Context {A : Type}.
Implicit Types (k : string) (v : A) (o : list (string * A)).

Lemma elem_of_keys_set k k' v o :
  k' ∈ Obj.keys (Obj.set k v o) <-> k' = k \/ k' ∈ Obj.keys o.
Proof.
  unfold Obj.keys. induction o as [|[k0 v0] o IH]; simpl.
  - rewrite list_elem_of_singleton. split; [by left | intros [?|?%elem_of_nil]; done].
  - destruct (decide (k0 = k)) as [->|Hne]; simpl; rewrite !elem_of_cons.
    + tauto.
    + rewrite IH. tauto.
Qed.

Lemma NoDup_keys_set k v o : NoDup (Obj.keys o) -> NoDup (Obj.keys (Obj.set k v o)).
Proof.
  induction o as [|[k0 v0] o IH]; simpl.
  - intros _. apply NoDup_singleton.
  - intros [Hk0 Hnd]%NoDup_cons. destruct (decide (k0 = k)) as [->|Hne]; simpl.
    + by apply NoDup_cons.
    + apply NoDup_cons. split; [|by apply IH].
      fold (Obj.keys (Obj.set k v o)). rewrite elem_of_keys_set. intros [?|?]; done.
Qed.

(** Assigning under a key that is absent appends the entry. *)
Lemma set_absent k v o : k ∉ Obj.keys o -> Obj.set k v o = (o ++ [(k, v)])%list.
Proof.
  induction o as [|[k0 v0] o IH]; simpl; [done|].
  intros [Hne Hk]%not_elem_of_cons. rewrite decide_False by done. by rewrite IH.
Qed.

Lemma get_None_keys k o : Obj.get k o = None <-> k ∉ Obj.keys o.
Proof.
  induction o as [|[k0 v0] o IH]; simpl.
  - split; [intros _; apply not_elem_of_nil | done].
  - rewrite not_elem_of_cons. destruct (decide (k0 = k)) as [->|Hne].
    + split; [done | intros [? _]; done].
    + rewrite IH. split; [by split | by intros [_ ?]].
Qed.

Lemma keys_app o1 o2 : Obj.keys (o1 ++ o2)%list = (Obj.keys o1 ++ Obj.keys o2)%list.
Proof. unfold Obj.keys. apply map_app. Qed.

End ObjMore.

(** ** A whole pass, read off the walk *)

Section Pass.

Variable dateParse : string -> option Z.
Variable now : Z.
Variable values : gmap string JsValue.

Local Abbreviation step := (walkStep dateParse now values).
Local Abbreviation message := (fieldMessage dateParse now values).
Local Abbreviation fails := (fieldFails dateParse now values).
Local Abbreviation entry := (fieldEntry dateParse now values).

Lemma step_message e (t : Triple) :
  step e t = (msg ← message t; Ok (assign (tripleKey t) msg e)).
Proof. apply validateField_fieldMessage. Qed.

(** A pass that returns ran the checks of each field to their end. *)
Lemma pass_messages l e e' (t : Triple) :
  forEachM step l e = Ok e' -> t ∈ l -> exists msg, message t = Ok msg.
Proof.
  revert e. induction l as [|u l IH]; intros e H Hin; [by apply elem_of_nil in Hin|].
  cbn [forEachM] in H. rewrite step_message in H.
  destruct (message u) as [m|] eqn:Hu; simpl in H; [|done].
  apply elem_of_cons in Hin as [->|Hin]; [by exists m | by eapply IH].
Qed.

Lemma pass_keys l e e' k :
  forEachM step l e = Ok e' ->
  k ∈ Obj.keys e' <->
  k ∈ Obj.keys e \/ exists t : Triple, t ∈ l /\ tripleKey t = k /\ fails t = true.
Proof.
  revert e. induction l as [|u l IH]; intros e H.
  - injection H as <-. split; [by left|]. intros [?|(t & Hin & _)]; [done|].
    by apply elem_of_nil in Hin.
  - cbn [forEachM] in H. rewrite step_message in H.
    destruct (message u) as [[m|]|] eqn:Hu; simpl in H; [| |done].
    + rewrite (IH _ H), elem_of_keys_set. split.
      * intros [[->|?]|(t & Hin & Hk & Hf)].
        -- right. exists u. split; [by left|]. split; [done|].
           unfold fieldFails. by rewrite Hu.
        -- by left.
        -- right. exists t. split; [by right | done].
      * intros [?|(t & Hin & Hk & Hf)]; [by left; right|].
        apply elem_of_cons in Hin as [->|Hin]; [by left; left|].
        right. by exists t.
    + rewrite (IH _ H). split.
      * intros [?|(t & Hin & Hk & Hf)]; [by left|].
        right. exists t. split; [by right | done].
      * intros [?|(t & Hin & Hk & Hf)]; [by left|].
        apply elem_of_cons in Hin as [->|Hin].
        -- unfold fieldFails in Hf. by rewrite Hu in Hf.
        -- right. by exists t.
Qed.

Lemma pass_NoDup l e e' :
  forEachM step l e = Ok e' -> NoDup (Obj.keys e) -> NoDup (Obj.keys e').
Proof.
  revert e. induction l as [|u l IH]; intros e H Hnd; [by injection H as <-|].
  cbn [forEachM] in H. rewrite step_message in H.
  destruct (message u) as [[m|]|]; simpl in H; [| |done].
  - apply (IH _ H). by apply NoDup_keys_set.
  - by apply (IH _ H).
Qed.

(** With pairwise different keys every assignment is a first one, so the
    object grows by the entries of the failing fields, in walk order. *)
Lemma pass_entries l e e' :
  forEachM step l e = Ok e' ->
  NoDup (map tripleKey l) ->
  (forall t : Triple, t ∈ l -> tripleKey t ∉ Obj.keys e) ->
  e' = (e ++ omap entry l)%list.
Proof.
  revert e. induction l as [|u l IH]; intros e H Hnd Hfresh.
  - injection H as <-. by rewrite app_nil_r.
  - cbn [forEachM] in H. rewrite step_message in H. simpl in Hnd.
    apply NoDup_cons in Hnd as [Hu Hnd]. cbn [omap list_omap]. unfold fieldEntry at 1.
    destruct (message u) as [[m|]|] eqn:Hm; simpl in H; [| |done].
    + rewrite (IH _ H Hnd).
      * rewrite set_absent by (apply Hfresh; by left). by rewrite <- app_assoc.
      * intros t Ht. rewrite elem_of_keys_set. intros [Heq|Hin].
        -- apply Hu. rewrite <- Heq. apply list_elem_of_fmap. by exists t.
        -- revert Hin. apply Hfresh. by right.
    + apply (IH _ H Hnd). intros t Ht. apply Hfresh. by right.
Qed.

End Pass.

(** X1: the keys of the error object a pass returns are exactly the keys of
    the fields that fail among the non-hidden fields of the visible
    sections, and no key occurs twice. *)
Theorem error_keys_are_failing_fields dateParse now fd st st' r :
  validateForm dateParse now (Some fd) st = Ok (st', r) ->
  (forall k,
     k ∈ Obj.keys (resultErrors r) <->
     exists t : Triple,
       t ∈ validationWalk (visibleSections st) fd /\ tripleKey t = k
       /\ fieldFails dateParse now (formValues st) t = true)
  /\ NoDup (Obj.keys (resultErrors r)).
Proof.
  intros (Hc & _ & _)%validateForm_Some. rewrite collectErrors_walk in Hc. split.
  - intros k. rewrite (pass_keys _ _ _ _ _ _ k Hc). simpl.
    split; [intros [?%elem_of_nil|?]; done | by right].
  - apply (pass_NoDup _ _ _ _ _ _ Hc). constructor.
Qed.

Lemma error_keys_are_failing_fields_witness :
  validateForm isoDateParse 0 (Some unorderedSchema) unorderedState
    = Ok (failedState, mkValidation false unorderedErrors)
  /\ NoDup (Obj.keys unorderedErrors)
  /\ exists t : Triple,
       t ∈ validationWalk (visibleSections unorderedState) unorderedSchema
       /\ tripleKey t = "A__s__Second__Second".
Proof.
  assert (validateForm isoDateParse 0 (Some unorderedSchema) unorderedState
          = Ok (failedState, mkValidation false unorderedErrors)) as H
    by (vm_compute; reflexivity).
  destruct (error_keys_are_failing_fields _ _ _ _ _ _ H) as [Hkeys Hnd].
  split; [exact H|]. split; [exact Hnd|].
  destruct (proj1 (Hkeys "A__s__Second__Second")) as (t & Hin & Hk & _).
  - right. by left.
  - by exists t.
Defined.

(** X2: when the keys of the checked fields are pairwise different, the
    error object lists the failing fields in walk order, each under its key
    with the message its own checks leave, and holds nothing else. *)
Theorem errors_in_walk_order dateParse now fd st st' r :
  validateForm dateParse now (Some fd) st = Ok (st', r) ->
  NoDup (map tripleKey (validationWalk (visibleSections st) fd)) ->
  resultErrors r =
  omap (fieldEntry dateParse now (formValues st)) (validationWalk (visibleSections st) fd).
Proof.
  intros (Hc & _ & _)%validateForm_Some Hnd. rewrite collectErrors_walk in Hc.
  apply (pass_entries _ _ _ _ _ _ Hc Hnd). intros t _. apply not_elem_of_nil.
Qed.

Lemma errors_in_walk_order_witness :
  NoDup (map tripleKey (validationWalk (visibleSections unorderedState) unorderedSchema))
  /\ unorderedErrors =
     omap (fieldEntry isoDateParse 0 (formValues unorderedState))
       (validationWalk (visibleSections unorderedState) unorderedSchema).
Proof.
  assert (NoDup (map tripleKey
                   (validationWalk (visibleSections unorderedState) unorderedSchema)))
    as Hnd.
  { assert (map tripleKey
              (validationWalk (visibleSections unorderedState) unorderedSchema)
            = ["A__s__First__First"; "A__s__Second__Second"]) as ->
      by (vm_compute; reflexivity).
    apply NoDup_cons. split.
    - intros H. apply list_elem_of_singleton in H. discriminate H.
    - apply NoDup_singleton. }
  split; [exact Hnd|].
  apply (errors_in_walk_order isoDateParse 0 unorderedSchema unorderedState failedState
           (mkValidation false unorderedErrors)); [vm_compute; reflexivity | exact Hnd].
Defined.

(** ** The outcome of one field's checks, by kind of value *)

(** From here on objects and messages are handled through their lemmas. *)
#[local] Arguments Obj.set {A} k v o : simpl never.
#[local] Arguments Obj.get {A} k o : simpl never.
#[local] Arguments String.append : simpl never.

Section Outcomes.

Variable dateParse : string -> option Z.
Variable now : Z.
Variable values : gmap string JsValue.

Local Abbreviation message := (fieldMessage dateParse now values).

Lemma get_set_nil (k m : string) : Obj.get k (Obj.set k m []) = Some m.
Proof. apply get_set_eq. Qed.

(** An absent or empty value: only the mandatory flag and the attachment
    checks can fire. *)
Lemma message_of_empty (t : Triple) :
  isHidden t.2 = false ->
  storedValue values t = VStr "" ->
  message t =
  Ok (if mandatory t.2 then
        Some (if String.eqb (fieldType t.2) "IMAGE" then
                if 0 <? minImageCapture t.1.2 then minCountMessage t.1.2 t.2
                else requiredImageMessage t.2
              else if String.eqb (fieldType t.2) "VIDEO" then requiredVideoMessage t.2
              else requiredMessage t.2)
      else None).
Proof.
  intros Hh Hv. unfold fieldMessage, validateField. rewrite Hh.
  unfold storedValue, tripleKey in Hv. rewrite Hv.
  unfold mandatoryCheck, maxLengthCheck, minLengthCheck, numberCheck, dateCheck,
    imageCheck, videoCheck, emailCheck, phoneCheck.
  simpl. rewrite !andb_false_r. simpl.
  destruct (mandatory t.2); simpl; [|by rewrite !andb_false_r].
  rewrite !andb_true_r.
  destruct (String.eqb (fieldType t.2) "IMAGE") eqn:Hi.
  - apply String.eqb_eq in Hi. rewrite Hi. simpl.
    destruct (0 <? minImageCapture t.1.2) eqn:Hmin; simpl.
    + assert ((0 <? maxImageCapture t.1.2) && (maxImageCapture t.1.2 <? 0) = false) as ->.
      { apply andb_false_iff. destruct (0 <? maxImageCapture t.1.2) eqn:Hm; [|by left].
        right. apply Z.ltb_lt in Hm. apply Z.ltb_ge. lia. }
      by rewrite !set_set, get_set_eq.
    + assert ((0 <? maxImageCapture t.1.2) && (maxImageCapture t.1.2 <? 0) = false) as ->.
      { apply andb_false_iff. destruct (0 <? maxImageCapture t.1.2) eqn:Hm; [|by left].
        right. apply Z.ltb_lt in Hm. apply Z.ltb_ge. lia. }
      by rewrite !set_set, get_set_eq.
  - destruct (String.eqb (fieldType t.2) "VIDEO") eqn:Hvid; simpl.
    + by rewrite !set_set, get_set_eq.
    + by rewrite get_set_eq.
Qed.

Lemma get_assign key msg (e : list (string * string)) :
  Obj.get key (assign key msg e) =
  match msg with Some m => Some m | None => Obj.get key e end.
Proof. destruct msg; simpl; [apply get_set_eq | done]. Qed.

(** Each check on a non-empty string, as one assignment *)
Section OnString.

Variables (subSection : SubSection) (field : FormField) (key s : string).
Hypothesis s_nonempty : isEmpty s = false.
Implicit Type e : list (string * string).

Lemma mandatoryCheck_string e :
  mandatoryCheck field key (VStr s) e =
  Ok (assign key (if mandatory field && isEmpty (trim s)
                  then Some (requiredMessage field) else None) e).
Proof. unfold mandatoryCheck. destruct (mandatory field); simpl; [|done]. by case_match. Qed.

Lemma maxLengthCheck_string e :
  maxLengthCheck field key (VStr s) e =
  assign key (if tooLong field s then Some (maxLengthMessage field) else None) e.
Proof.
  unfold maxLengthCheck, tooLong. simpl. rewrite s_nonempty. simpl.
  destruct (truthyStr (valueLength field)); simpl; [|done]. by case_match.
Qed.

Lemma minLengthCheck_string e :
  minLengthCheck field key (VStr s) e =
  assign key (if tooShort field s then Some (minLengthMessage field) else None) e.
Proof.
  unfold minLengthCheck, tooShort. simpl. rewrite s_nonempty. simpl.
  destruct (truthyStr (valueMinLength field)); simpl; [|done]. by case_match.
Qed.

Lemma numberCheck_string e :
  numberCheck field key (VStr s) e =
  assign key (if String.eqb (inputType field) "NUMBER" && stringIsNaN s
              then Some (numberMessage field) else None) e.
Proof.
  unfold numberCheck. simpl. rewrite s_nonempty. simpl. rewrite andb_true_r.
  destruct (String.eqb (inputType field) "NUMBER"); simpl; [|done]. by case_match.
Qed.

Lemma dateCheck_string e :
  dateCheck dateParse now field key (VStr s) e =
  assign key
    (if String.eqb (inputType field) "DATE" then
       match dateParse s with
       | None => Some (invalidDateMessage field)
       | Some d =>
           if negb (isFutureDate field) && (now <? d)
           then Some (futureDateMessage field) else None
       end
     else None) e.
Proof.
  unfold dateCheck. simpl. rewrite s_nonempty. simpl. rewrite andb_true_r.
  destruct (String.eqb (inputType field) "DATE"); simpl; [|done].
  destruct (dateParse s); simpl.
  - by case_match.
  - by rewrite andb_false_r.
Qed.

Lemma imageCheck_string e :
  imageCheck subSection field key (VStr s) e =
  assign key (if mandatoryImage field && (1 <? minImageCapture subSection)
              then Some (minCountMessage subSection field) else None) e.
Proof.
  unfold imageCheck, mandatoryImage. simpl. rewrite s_nonempty. simpl.
  destruct (String.eqb (fieldType field) "IMAGE" && mandatory field); simpl; [|done].
  assert ((0 <? maxImageCapture subSection) && (maxImageCapture subSection <? 1) = false)
    as ->.
  { apply andb_false_iff. destruct (0 <? maxImageCapture subSection) eqn:Hm; [|by left].
    right. apply Z.ltb_lt in Hm. apply Z.ltb_ge. lia. }
  destruct (1 <? minImageCapture subSection) eqn:H1.
  - assert ((0 <? minImageCapture subSection) = true) as ->; [|done].
    apply Z.ltb_lt in H1. apply Z.ltb_lt. lia.
  - by rewrite andb_false_r.
Qed.

Lemma videoCheck_string e : videoCheck field key (VStr s) e = e.
Proof.
  unfold videoCheck. simpl. rewrite s_nonempty. simpl.
  by destruct (String.eqb (fieldType field) "VIDEO" && mandatory field).
Qed.

Lemma emailCheck_string e :
  emailCheck field key (VStr s) e =
  Ok (assign key (if String.eqb (inputType field) "TEXT" && includes "@" s
                     && negb (emailRegexTest s)
                  then Some (emailMessage field) else None) e).
Proof.
  unfold emailCheck. simpl. rewrite s_nonempty. simpl. rewrite andb_true_r.
  destruct (String.eqb (inputType field) "TEXT"); simpl; [|done]. by case_match.
Qed.

Lemma phoneCheck_string e :
  phoneCheck field key (VStr s) e =
  Ok (assign key (if String.eqb (inputType field) "NUMBER" && nameSuggestsPhone field
                     && negb (phoneRegexTest (stripNonDigits s))
                  then Some (phoneMessage field) else None) e).
Proof.
  unfold phoneCheck. simpl. rewrite s_nonempty. simpl. rewrite andb_true_r.
  destruct (String.eqb (inputType field) "NUMBER" && nameSuggestsPhone field);
    simpl; [|done].
  by case_match.
Qed.

End OnString.

(** A non-empty string: no check throws, and the last one that fires wins. *)
Lemma message_of_string (t : Triple) (s : string) :
  isHidden t.2 = false ->
  storedValue values t = VStr s ->
  isEmpty s = false ->
  message t = Ok (stringOutcome dateParse now t.1.2 t.2 s).
Proof.
  intros Hh Hv Hs. unfold fieldMessage, validateField. rewrite Hh.
  unfold storedValue, tripleKey in Hv. rewrite Hv. fold (tripleKey t).
  rewrite mandatoryCheck_string. simpl.
  rewrite (maxLengthCheck_string _ _ _ Hs), (minLengthCheck_string _ _ _ Hs),
    (numberCheck_string _ _ _ Hs), (dateCheck_string _ _ _ Hs),
    (imageCheck_string _ _ _ _ Hs), (videoCheck_string _ _ _ Hs),
    (emailCheck_string _ _ _ Hs).
  simpl. rewrite (phoneCheck_string _ _ _ Hs). simpl.
  rewrite !get_assign. unfold stringOutcome, lengthOutcome.
  destruct (String.eqb (inputType t.2) "NUMBER") eqn:Hn;
    destruct (String.eqb (inputType t.2) "TEXT") eqn:Ht;
    destruct (String.eqb (inputType t.2) "DATE") eqn:Hd;
    try (apply String.eqb_eq in Hn; rewrite Hn in Ht, Hd; discriminate);
    try (apply String.eqb_eq in Ht; rewrite Ht in Hd; discriminate);
    simpl; repeat case_match; simplify_eq; try done.
Qed.

(** What [formValues[fieldKey] || ''] can be *)
Lemma orEmpty_cases (o : option JsValue) :
  (exists s, Value.orEmpty o = VStr s) \/ Value.orEmpty o = VBool true
  \/ (exists f, Value.orEmpty o = VFile f) \/ (exists l, Value.orEmpty o = VList l).
Proof.
  destruct o as [[s|[]|f|l]|]; simpl; eauto.
  destruct (negb (isEmpty s)); eauto.
Qed.

Lemma fieldThrows_string field s : fieldThrows field (VStr s) = false.
Proof. unfold fieldThrows. simpl. by rewrite !andb_false_r. Qed.

(** The checks of a field throw exactly on the value shapes of
    [fieldThrows]. *)
Lemma message_throws_iff (t : Triple) :
  (exists err, message t = Throw err) <->
  isHidden t.2 = false /\ fieldThrows t.2 (storedValue values t) = true.
Proof.
  destruct (isHidden t.2) eqn:Hh.
  { unfold fieldMessage, validateField. rewrite Hh. simpl.
    split; [intros [err [=]] | intros [[=] _]]. }
  destruct (orEmpty_cases (values !! tripleKey t)) as [[s Hv]|Hv].
  - fold (storedValue values t) in Hv. rewrite Hv, fieldThrows_string.
    destruct (isEmpty s) eqn:Hs.
    + destruct s; [|done]. rewrite (message_of_empty t Hh Hv).
      split; [intros [err [=]] | intros [_ [=]]].
    + rewrite (message_of_string t s Hh Hv Hs).
      split; [intros [err [=]] | intros [_ [=]]].
  - fold (storedValue values t) in Hv.
    unfold fieldMessage, validateField. rewrite Hh.
    fold (tripleKey t). fold (storedValue values t).
    unfold fieldThrows, mandatoryCheck, emailCheck, phoneCheck.
    destruct Hv as [->|[[f ->]|[l ->]]]; simpl;
      destruct (mandatory t.2); simpl;
      try (split; [by intros _ | by intros _; eexists]);
      destruct (String.eqb (inputType t.2) "TEXT") eqn:Ht; simpl;
      try (split; [by intros _ | by intros _; eexists]);
      destruct (String.eqb (inputType t.2) "NUMBER") eqn:Hn; simpl;
      try (split; [by intros _ | by intros _; eexists]);
      try (destruct (nameSuggestsPhone t.2); simpl;
           try (split; [by intros _ | by intros _; eexists]));
      (split; [intros [err [=]] | intros [_ [=]]]).
Qed.

End Outcomes.

(** ** Passes: throwing, and the entry of one field *)

Section PassMore.

Variable dateParse : string -> option Z.
Variable now : Z.
Variable values : gmap string JsValue.

Local Abbreviation step := (walkStep dateParse now values).
Local Abbreviation message := (fieldMessage dateParse now values).

(** A pass throws exactly when the checks of one of its fields do. *)
Lemma pass_throws_iff l e :
  (exists err, forEachM step l e = Throw err) <->
  exists t : Triple, t ∈ l /\ exists err, message t = Throw err.
Proof.
  revert e. induction l as [|u l IH]; intros e.
  - split; [intros [err [=]] | intros (t & Hin & _); by apply elem_of_nil in Hin].
  - cbn [forEachM]. rewrite step_message.
    destruct (message u) as [m|err] eqn:Hu; simpl.
    + rewrite IH. split.
      * intros (t & Hin & Ht). exists t. split; [by right | done].
      * intros (t & Hin & err & Ht). apply elem_of_cons in Hin as [->|Hin].
        -- rewrite Hu in Ht. discriminate.
        -- exists t. split; [done | by exists err].
    + split; [|by exists err]. intros _. exists u. split; [by left | by exists err].
Qed.

(** A pass leaves alone the keys of fields it does not visit. *)
Lemma pass_get_other l e e' k :
  forEachM step l e = Ok e' -> k ∉ map tripleKey l -> Obj.get k e' = Obj.get k e.
Proof.
  revert e. induction l as [|u l IH]; intros e H Hk; [by injection H as <-|].
  cbn [forEachM] in H. rewrite step_message in H. simpl in Hk.
  apply not_elem_of_cons in Hk as [Hne Hk].
  destruct (message u) as [[m|]|]; simpl in H; [| |done].
  - rewrite (IH _ H Hk). by apply get_set_ne.
  - by apply (IH _ H Hk).
Qed.

(** With pairwise different keys, a field finds under its key what its own
    checks leave. *)
Lemma pass_lookup l e e' (t : Triple) msg :
  forEachM step l e = Ok e' ->
  NoDup (map tripleKey l) -> t ∈ l -> message t = Ok msg ->
  Obj.get (tripleKey t) e' =
  match msg with Some m => Some m | None => Obj.get (tripleKey t) e end.
Proof.
  revert e. induction l as [|u l IH]; intros e H Hnd Hin Hm;
    [by apply elem_of_nil in Hin|].
  cbn [forEachM] in H. rewrite step_message in H. simpl in Hnd.
  apply NoDup_cons in Hnd as [Hu Hnd].
  apply elem_of_cons in Hin as [->|Hin].
  - rewrite Hm in H. simpl in H. rewrite (pass_get_other _ _ _ _ H Hu).
    apply get_assign.
  - assert (tripleKey u <> tripleKey t) as Hne.
    { intros Heq. apply Hu. rewrite Heq. apply list_elem_of_fmap. by exists t. }
    destruct (message u) as [[m|]|]; simpl in H; [| |done].
    + rewrite (IH _ H Hnd Hin Hm). by rewrite get_set_ne.
    + by rewrite (IH _ H Hnd Hin Hm).
Qed.

End PassMore.

Lemma validateForm_lookup dateParse now fd st st' r (t : Triple) msg :
  validateForm dateParse now (Some fd) st = Ok (st', r) ->
  NoDup (map tripleKey (validationWalk (visibleSections st) fd)) ->
  t ∈ validationWalk (visibleSections st) fd ->
  fieldMessage dateParse now (formValues st) t = Ok msg ->
  Obj.get (tripleKey t) (resultErrors r) = msg.
Proof.
  intros (Hc & _ & _)%validateForm_Some Hnd Hin Hm. rewrite collectErrors_walk in Hc.
  rewrite (pass_lookup _ _ _ _ _ _ _ _ Hc Hnd Hin Hm). by destruct msg.
Qed.

(** A pass throws as soon as one walked field holds a value its checks
    cannot handle. *)
Lemma validateForm_throws_at dateParse now fd st (t : Triple) :
  t ∈ validationWalk (visibleSections st) fd ->
  fieldThrows t.2 (storedValue (formValues st) t) = true ->
  exists err, validateForm dateParse now (Some fd) st = Throw err.
Proof.
  intros Hin Ht. unfold validateForm. rewrite collectErrors_walk.
  assert (exists err,
            forEachM (walkStep dateParse now (formValues st))
              (validationWalk (visibleSections st) fd) [] = Throw err)
    as [err Herr].
  { apply pass_throws_iff. exists t. split; [done|].
    apply message_throws_iff. split; [|done].
    by apply elem_of_validationWalk in Hin as (_ & _ & ?). }
  rewrite Herr. by exists err.
Qed.

(** When the pass returns, every mandatory field it walks holds a string:
    anything else would have made [trim] throw. *)
Lemma returned_mandatory_string dateParse now fd st st' r (t : Triple) :
  validateForm dateParse now (Some fd) st = Ok (st', r) ->
  t ∈ validationWalk (visibleSections st) fd ->
  mandatory t.2 = true ->
  exists s, storedValue (formValues st) t = VStr s.
Proof.
  intros Hv Hin Hm.
  destruct (storedValue (formValues st) t) as [s|b|f|l] eqn:Hs; [by exists s| | |];
    (destruct (validateForm_throws_at dateParse now fd st t Hin) as [err Herr];
     [rewrite Hs; unfold fieldThrows; by rewrite Hm | by rewrite Herr in Hv]).
Qed.

(** C2, amended: the count checks apply to image fields whose mandatory flag
    is set; without the flag the image check assigns nothing.  For a
    visible, non-hidden, mandatory image field whose subsection asks for a
    positive minimum and whose list-coerced count is below it, a pass that
    returns reports the field: its key is in the error object and the
    result is invalid; the entry is the minimum-count message when the keys
    of the checked fields are pairwise different and the field is not a
    text or number input (whose e-mail and phone checks come later).  On a
    store of strings the pass does return.  A stored file or list of files
    is left out, and with it the maximum count, which only a list can
    exceed. *)
Theorem image_count_checks dateParse now fd st (t : Triple) :
  t ∈ validationWalk (visibleSections st) fd ->
  fieldType t.2 = "IMAGE" ->
  (mandatory t.2 = false ->
   forall e, imageCheck t.1.2 t.2 (tripleKey t) (storedValue (formValues st) t) e = e)
  /\ (mandatory t.2 = true ->
      0 < minImageCapture t.1.2 ->
      Value.coercedCount (storedValue (formValues st) t) < minImageCapture t.1.2 ->
      (forall st' r,
         validateForm dateParse now (Some fd) st = Ok (st', r) ->
         tripleKey t ∈ Obj.keys (resultErrors r) /\ isValid r = false
         /\ (NoDup (map tripleKey (validationWalk (visibleSections st) fd)) ->
             String.eqb (inputType t.2) "TEXT" = false ->
             String.eqb (inputType t.2) "NUMBER" = false ->
             Obj.get (tripleKey t) (resultErrors r) = Some (minCountMessage t.1.2 t.2)))
      /\ (allStrings (formValues st) ->
          exists st' r, validateForm dateParse now (Some fd) st = Ok (st', r))).
Proof.
  intros Hin Ht. split.
  - intros Hm e. by apply imageCheck_not_mandatory.
  - intros Hm H0 Hc. split; [|apply validateForm_total_on_strings].
    intros st' r Hv.
    pose proof Hin as (Hall & Hvis & Hh)%elem_of_validationWalk.
    destruct (validateForm_image_reported dateParse now fd st st' r t Hv Hall Hvis Hh Ht Hm)
      as [Hkey Hinvalid]; [by left|].
    split; [done|]. split; [done|].
    intros Hnd Htext Hnumber.
    destruct (returned_mandatory_string _ _ _ _ _ _ t Hv Hin Hm) as [s Hs].
    apply (validateForm_lookup _ _ _ _ _ _ _ _ Hv Hnd Hin).
    destruct (isEmpty s) eqn:Hempty.
    + destruct s; [|done]. rewrite (message_of_empty _ _ _ t Hh Hs), Hm, Ht.
      by rewrite String.eqb_refl, (proj2 (Z.ltb_lt _ _) H0).
    + rewrite (message_of_string _ _ _ t s Hh Hs Hempty).
      unfold stringOutcome, mandatoryImage. rewrite Htext, Hnumber, Ht, Hm. simpl.
      rewrite Hs in Hc. simpl in Hc. rewrite Hempty in Hc. simpl in Hc.
      by rewrite (proj2 (Z.ltb_lt _ _) Hc).
Qed.

Lemma image_count_checks_witness :
  storedValue (formValues urlPhotoState) photoTriple = VStr "https://cdn.example/front.png"
  /\ returnedBy (validateForm isoDateParse 0 (Some photoSchema) urlPhotoState)
     = Ok (mkValidation false urlPhotoErrors)
  /\ photoKey ∈ Obj.keys urlPhotoErrors
  /\ Obj.get photoKey urlPhotoErrors = Some "Photo requires at least 2 image(s).".
Proof.
  assert (photoTriple ∈ validationWalk (visibleSections urlPhotoState) photoSchema) as Hin.
  { change (photoTriple ∈ [photoTriple]). by left. }
  assert (validateForm isoDateParse 0 (Some photoSchema) urlPhotoState
          = Ok (setErrors (fun _ => urlPhotoErrors) urlPhotoState,
                mkValidation false urlPhotoErrors)) as Hv
    by (vm_compute; reflexivity).
  destruct (image_count_checks isoDateParse 0 photoSchema urlPhotoState photoTriple
              Hin eq_refl) as [_ Hmin].
  destruct (Hmin eq_refl) as [Hpass _]; [reflexivity | vm_compute; reflexivity |].
  destruct (Hpass _ _ Hv) as (Hkey & _ & Hmsg).
  split; [vm_compute; reflexivity|]. split; [by rewrite Hv|]. split; [exact Hkey|].
  apply Hmsg; [|reflexivity|reflexivity].
  change (NoDup [tripleKey photoTriple]). apply NoDup_singleton.
Defined.

(** X3: in a pass over fields with pairwise different keys, a checked field
    whose stored value is absent or empty has an entry in the error object
    exactly when it is mandatory, whatever its type and constraints (the
    length, number, date, email and phone checks are skipped on an empty
    value).  The message is the plain required message, or the attachment
    one for an image or a video field (the minimum-count one when the
    subsection asks for at least one image). *)
Theorem empty_value_entry dateParse now fd st st' r (t : Triple) :
  validateForm dateParse now (Some fd) st = Ok (st', r) ->
  NoDup (map tripleKey (validationWalk (visibleSections st) fd)) ->
  t ∈ validationWalk (visibleSections st) fd ->
  storedValue (formValues st) t = VStr "" ->
  Obj.get (tripleKey t) (resultErrors r) =
  if mandatory t.2 then
    Some (if String.eqb (fieldType t.2) "IMAGE" then
            if 0 <? minImageCapture t.1.2 then minCountMessage t.1.2 t.2
            else requiredImageMessage t.2
          else if String.eqb (fieldType t.2) "VIDEO" then requiredVideoMessage t.2
          else requiredMessage t.2)
  else None.
Proof.
  intros Hv Hnd Hin Hs.
  apply (validateForm_lookup _ _ _ _ _ _ _ _ Hv Hnd Hin).
  apply message_of_empty; [|done].
  by apply elem_of_validationWalk in Hin as (_ & _ & ?).
Qed.

(** X4: in a pass over fields with pairwise different keys, the entry of a
    checked field holding a non-empty string is decided by the last check
    that fires: phone, then email, then the image minimum, then the date
    checks (the future-date one only for a date that parses, and only for a
    date strictly after the clock), then the number check, then minimum
    length, maximum length and, for white space only, the mandatory flag.
    The text of the entry is that of the source when the bounds the
    messages show are integers that a number holds exactly. *)
Theorem string_value_entry dateParse now fd st st' r (t : Triple) (s : string) :
  validateForm dateParse now (Some fd) st = Ok (st', r) ->
  NoDup (map tripleKey (validationWalk (visibleSections st) fd)) ->
  t ∈ validationWalk (visibleSections st) fd ->
  printsExactly t.1.2 t.2 ->
  storedValue (formValues st) t = VStr s ->
  isEmpty s = false ->
  Obj.get (tripleKey t) (resultErrors r) = stringOutcome dateParse now t.1.2 t.2 s.
Proof.
  intros Hv Hnd Hin _ Hs Hne.
  apply (validateForm_lookup _ _ _ _ _ _ _ _ Hv Hnd Hin).
  apply message_of_string; [|done|done].
  by apply elem_of_validationWalk in Hin as (_ & _ & ?).
Qed.

(** X5: a pass throws exactly when some non-hidden field of a visible
    section is mandatory and holds something that is not a string, or is a
    text input holding a [File] or [true], or is a numeric input named like
    a phone number holding something that is not a string. *)
Theorem validateForm_throws_iff dateParse now fd st :
  (exists err, validateForm dateParse now (Some fd) st = Throw err) <->
  exists t : Triple,
    t ∈ validationWalk (visibleSections st) fd
    /\ fieldThrows t.2 (storedValue (formValues st) t) = true.
Proof.
  unfold validateForm. rewrite collectErrors_walk.
  assert ((exists err,
             forEachM (walkStep dateParse now (formValues st))
               (validationWalk (visibleSections st) fd) [] = Throw err)
          <-> exists t : Triple,
                t ∈ validationWalk (visibleSections st) fd
                /\ fieldThrows t.2 (storedValue (formValues st) t) = true) as <-.
  { rewrite pass_throws_iff. split.
    - intros (t & Hin & Ht). exists t. split; [done|].
      by apply message_throws_iff in Ht as [_ ?].
    - intros (t & Hin & Ht). exists t. split; [done|].
      apply message_throws_iff. split; [|done].
      by apply elem_of_validationWalk in Hin as (_ & _ & ?). }
  destruct (forEachM _ _ _) as [e|err]; simpl.
  - split; intros [err [=]].
  - split; intros _; by exists err.
Qed.

(** ** What a submission presupposes *)

Lemma handleSubmit_submitted dateParse now fd st st' effs :
  handleSubmit dateParse now (Some fd) st = Ok (st', effs) ->
  submitted effs ->
  exists r, validateForm dateParse now (Some fd) st = Ok (st', r) /\ resultErrors r = [].
Proof.
  unfold handleSubmit. intros H [vals Hin].
  destruct (validateForm dateParse now (Some fd) st) as [[st1 r]|] eqn:Hv; [|done].
  simpl in H. destruct (isValid r) eqn:Hr.
  - injection H as <- _. exists r. split; [done|].
    by apply (validateForm_valid_iff _ _ _ _ _ _ Hv).
  - injection H as _ <-.
    destruct (scrollToFirstError_not_submitted _ _ (ex_intro _ vals Hin)).
Qed.

Lemma stringOutcome_None dateParse now subSection field s :
  stringOutcome dateParse now subSection field s = None ->
  mandatory field && isEmpty (trim s) = false.
Proof.
  unfold stringOutcome, lengthOutcome. intros H.
  destruct (mandatory field && isEmpty (trim s)); [|done].
  repeat case_match; done.
Qed.

(** A mandatory field whose checks pass holds a string with content. *)
Lemma mandatory_passes_filled dateParse now values (t : Triple) :
  isHidden t.2 = false -> mandatory t.2 = true ->
  fieldMessage dateParse now values t = Ok None ->
  filledIn (storedValue values t).
Proof.
  intros Hh Hm Hmsg.
  destruct (storedValue values t) as [s|b|f|l] eqn:Hv.
  - destruct (isEmpty s) eqn:Hs.
    + destruct s; [|done]. rewrite (message_of_empty _ _ _ t Hh Hv), Hm in Hmsg. done.
    + rewrite (message_of_string _ _ _ t s Hh Hv Hs) in Hmsg. injection Hmsg as Hmsg.
      apply stringOutcome_None in Hmsg. rewrite Hm in Hmsg. simpl in Hmsg.
      exists s. done.
  - assert (exists err, fieldMessage dateParse now values t = Throw err) as [err Herr].
    { apply message_throws_iff. split; [done|]. rewrite Hv. unfold fieldThrows.
      by rewrite Hm. }
    rewrite Herr in Hmsg. done.
  - assert (exists err, fieldMessage dateParse now values t = Throw err) as [err Herr].
    { apply message_throws_iff. split; [done|]. rewrite Hv. unfold fieldThrows.
      by rewrite Hm. }
    rewrite Herr in Hmsg. done.
  - assert (exists err, fieldMessage dateParse now values t = Throw err) as [err Herr].
    { apply message_throws_iff. split; [done|]. rewrite Hv. unfold fieldThrows.
      by rewrite Hm. }
    rewrite Herr in Hmsg. done.
Qed.

(** X6: whenever a submit reaches [onSubmit], every mandatory field that
    is not hidden and lies in a visible section holds a string with
    something other than white space; a ticked mandatory checkbox, a stored
    file or a file list never gets through. *)
Theorem submit_requires_filled_mandatory dateParse now fd st st' effs (t : Triple) :
  handleSubmit dateParse now (Some fd) st = Ok (st', effs) ->
  submitted effs ->
  t ∈ validationWalk (visibleSections st) fd ->
  mandatory t.2 = true ->
  filledIn (storedValue (formValues st) t).
Proof.
  intros Hs Hsub Hin Hm.
  destruct (handleSubmit_submitted _ _ _ _ _ _ Hs Hsub) as (r & Hv & He).
  apply validateForm_Some in Hv as (Hc & _ & _). rewrite He, collectErrors_walk in Hc.
  destruct (pass_messages _ _ _ _ _ _ t Hc Hin) as [msg Hmsg].
  apply (mandatory_passes_filled dateParse now); [|done|].
  - by apply elem_of_validationWalk in Hin as (_ & _ & ?).
  - destruct msg as [m|]; [|done].
    assert (tripleKey t ∈ Obj.keys ([] : list (string * string))) as Hk.
    { apply (pass_keys _ _ _ _ _ _ (tripleKey t) Hc). right. exists t.
      split; [done|]. split; [done|]. unfold fieldFails. by rewrite Hmsg. }
    by apply elem_of_nil in Hk.
Qed.

(** ** Stores of strings *)

Lemma allStrings_insert values k s :
  allStrings values -> allStrings (<[k := VStr s]> values).
Proof.
  intros H k' v. destruct (decide (k = k')) as [->|Hne].
  - rewrite lookup_insert_eq. intros [= <-]. by eexists.
  - rewrite lookup_insert_ne by done. apply H.
Qed.

Lemma allStrings_writeDefault (l : list Triple) values :
  allStrings values -> allStrings (foldl writeDefault values l).
Proof.
  revert values. induction l as [|t l IH]; intros values H; [done|].
  simpl. apply IH. by apply allStrings_insert.
Qed.

Lemma allStrings_clearTriple (l : list Triple) values :
  allStrings values -> allStrings (foldl clearTriple values l).
Proof.
  revert values. induction l as [|t l IH]; intros values H; [done|].
  simpl. apply IH. by apply allStrings_insert.
Qed.

Lemma allStrings_ruleStep fd fieldKey v st rule :
  allStrings (formValues st) -> allStrings (formValues (ruleStep fd fieldKey v st rule)).
Proof.
  intros H. destruct (triggeredBy fieldKey rule) eqn:Ht;
    [|by rewrite step_not_triggered].
  destruct (Value.strictEqStr v (ruleValue rule)) eqn:Hv.
  - by rewrite step_shows.
  - rewrite step_hides by done. simpl. by apply allStrings_clearTriple.
Qed.

Lemma allStrings_handleFieldChange fd fieldKey s st :
  allStrings (formValues st) ->
  allStrings (formValues (handleFieldChange (Some fd) fieldKey (VStr s) st)).
Proof.
  intros H. destruct (handleFieldChange_resolver fd fieldKey (VStr s) st) as [st2 Hst2].
  unfold handleFieldChange in *.
  rewrite checkDependentSections_Some.
  generalize (dependentSectionsDetails fd). intros rules.
  match goal with |- allStrings (formValues (foldl _ ?s0 _)) =>
    assert (allStrings (formValues s0)) as H0;
      [|revert H0; generalize s0] end.
  { destruct (Obj.get fieldKey (errors st)) as [msg|]; [destruct (isEmpty msg)|];
      simpl; by apply allStrings_insert. }
  induction rules as [|rule rules IH]; intros s0 H0; [done|].
  simpl. apply IH. by apply allStrings_ruleStep.
Qed.

Lemma allStrings_initialize fd st : allStrings (formValues (initialize (Some fd) st)).
Proof.
  rewrite initialize_Some. simpl. apply allStrings_writeDefault.
  intros k v. by rewrite lookup_empty.
Qed.

Lemma allStrings_typeAll fd edits st :
  allStrings (formValues st) -> allStrings (formValues (typeAll fd edits st)).
Proof.
  unfold typeAll. revert st. induction edits as [|[k s] edits IH]; intros st H; [done|].
  simpl. apply IH. by apply allStrings_handleFieldChange.
Qed.

(** X7: a form that was initialised from its schema and then changed only
    by edits that store strings never throws on submit, whatever the
    schema, the rules, the keys and the strings are. *)
Theorem typed_form_submit_returns dateParse now fd st edits :
  exists out,
    handleSubmit dateParse now (Some fd) (typeAll fd edits (initialize (Some fd) st))
    = Ok out.
Proof.
  destruct (validateForm_total_on_strings dateParse now (Some fd)
              (typeAll fd edits (initialize (Some fd) st))) as (st' & r & Hv).
  { apply allStrings_typeAll, allStrings_initialize. }
  unfold handleSubmit. rewrite Hv. simpl. destruct (isValid r); by eexists.
Qed.

(** *** The theorems above at concrete forms *)

Lemma unordered_walk :
  validationWalk (visibleSections unorderedState) unorderedSchema
  = [firstTriple; secondTriple].
Proof. vm_compute. reflexivity. Qed.

Lemma unordered_walk_NoDup :
  NoDup (map tripleKey (validationWalk (visibleSections unorderedState) unorderedSchema)).
Proof.
  rewrite unordered_walk.
  change (NoDup ["A__s__First__First"; "A__s__Second__Second"]).
  apply NoDup_cons. split.
  - intros H. apply list_elem_of_singleton in H. discriminate H.
  - apply NoDup_singleton.
Qed.

Lemma empty_value_entry_witness :
  storedValue (formValues unorderedState) firstTriple = VStr ""
  /\ Obj.get "A__s__First__First" unorderedErrors = Some "First is required".
Proof.
  assert (storedValue (formValues unorderedState) firstTriple = VStr "") as Hs
    by (vm_compute; reflexivity).
  split; [exact Hs|].
  apply (empty_value_entry isoDateParse 0 unorderedSchema unorderedState failedState
           (mkValidation false unorderedErrors) firstTriple).
  - vm_compute. reflexivity.
  - exact unordered_walk_NoDup.
  - rewrite unordered_walk. by left.
  - exact Hs.
Defined.

Lemma mobile_walk st :
  visibleSections st = visibleSections (initialize (Some mobileSchema) initialState) ->
  validationWalk (visibleSections st) mobileSchema = [mobileTriple].
Proof. intros ->. vm_compute. reflexivity. Qed.

Lemma string_value_entry_witness :
  storedValue (formValues (mobileState "12345")) mobileTriple = VStr "12345"
  /\ Obj.get mobileKey mobileErrors
     = Some "Mobile Number must be a valid 10-digit phone number"
  /\ stringOutcome isoDateParse 0 mobileTriple.1.2 mobileTriple.2 "9876543210" = None.
Proof.
  assert (storedValue (formValues (mobileState "12345")) mobileTriple = VStr "12345")
    as Hs by (vm_compute; reflexivity).
  split; [exact Hs|]. split; [|vm_compute; reflexivity].
  refine (string_value_entry isoDateParse 0 mobileSchema (mobileState "12345")
            (setErrors (fun _ => mobileErrors) (mobileState "12345"))
            (mkValidation false mobileErrors) mobileTriple "12345" _ _ _ _ Hs eq_refl).
  - vm_compute. reflexivity.
  - rewrite mobile_walk by (vm_compute; reflexivity). apply NoDup_singleton.
  - rewrite mobile_walk by (vm_compute; reflexivity). by left.
  - unfold printsExactly. repeat split; vm_compute; reflexivity.
Defined.

Lemma validateForm_throws_iff_witness :
  storedValue (formValues consentState) consentTriple = VBool true
  /\ exists err, validateForm isoDateParse 0 (Some consentSchema) consentState = Throw err.
Proof.
  split; [vm_compute; reflexivity|].
  apply (proj2 (validateForm_throws_iff isoDateParse 0 consentSchema consentState)).
  exists consentTriple. split; [|vm_compute; reflexivity].
  assert (validationWalk (visibleSections consentState) consentSchema = [consentTriple])
    as -> by (vm_compute; reflexivity).
  by left.
Defined.

Lemma submit_requires_filled_mandatory_witness :
  handleSubmit isoDateParse 0 (Some unorderedSchema) filledState
    = Ok (setErrors (fun _ => []) filledState, [OnSubmit (formValues filledState)])
  /\ filledIn (storedValue (formValues filledState) firstTriple).
Proof.
  assert (handleSubmit isoDateParse 0 (Some unorderedSchema) filledState
          = Ok (setErrors (fun _ => []) filledState, [OnSubmit (formValues filledState)]))
    as Hs by (vm_compute; reflexivity).
  split; [exact Hs|].
  apply (submit_requires_filled_mandatory isoDateParse 0 unorderedSchema filledState
           _ _ firstTriple Hs).
  - eexists. by left.
  - assert (validationWalk (visibleSections filledState) unorderedSchema
            = [firstTriple; secondTriple]) as -> by (vm_compute; reflexivity).
    by left.
  - reflexivity.
Defined.

(** ** The resolver: what it leaves alone, and which rule decides *)

Section ResolverMore.

Variable fd : FormData.
Variable fieldKey : string.
Variable v : JsValue.

Local Abbreviation step := (ruleStep fd fieldKey v).

Lemma step_values st rule k :
  formValues (step st rule) !! k = formValues st !! k
  \/ (formValues (step st rule) !! k = Some (VStr "")
      /\ hides fieldKey v rule
      /\ exists t : Triple,
           t ∈ allFields fd /\ secName t.1.1 = dependentSectionValue rule
           /\ tripleKey t = k).
Proof.
  destruct (triggeredBy fieldKey rule) eqn:Ht;
    [|left; by rewrite step_not_triggered].
  destruct (Value.strictEqStr v (ruleValue rule)) eqn:Hv;
    [left; by rewrite step_shows|].
  rewrite step_hides by done. simpl.
  destruct (decide (k ∈ map tripleKey (dependentTriples (dependentSectionValue rule) fd)))
    as [Hin|Hout].
  - right. apply list_elem_of_fmap in Hin as (t & -> & Hin).
    split; [by apply clearTriple_fold_in|]. split; [done|].
    apply elem_of_dependentTriples in Hin as [? ?]. by exists t.
  - left. by apply clearTriple_fold_other.
Qed.

Lemma step_visible st rule x :
  ~ (triggeredBy fieldKey rule = true /\ dependentSectionValue rule = x) ->
  x ∈ visibleSections (step st rule) <-> x ∈ visibleSections st.
Proof.
  intros Hx. destruct (triggeredBy fieldKey rule) eqn:Ht;
    [|by rewrite step_not_triggered].
  assert (dependentSectionValue rule <> x) as Hne by (intros ?; by apply Hx).
  destruct (Value.strictEqStr v (ruleValue rule)) eqn:Hv.
  - rewrite step_shows by done. simpl. set_solver.
  - rewrite step_hides by done. simpl. set_solver.
Qed.

Lemma fold_frame rules st :
  errors (foldl step st rules) = errors st
  /\ expandedSections (foldl step st rules) = expandedSections st.
Proof.
  revert st. induction rules as [|rule rules IH]; intros st; [done|].
  simpl. destruct (IH (step st rule)) as [-> ->]. apply step_frame.
Qed.

Lemma fold_values rules st k :
  formValues (foldl step st rules) !! k = formValues st !! k
  \/ (formValues (foldl step st rules) !! k = Some (VStr "")
      /\ exists rule (t : Triple),
           rule ∈ rules /\ hides fieldKey v rule
           /\ t ∈ allFields fd /\ secName t.1.1 = dependentSectionValue rule
           /\ tripleKey t = k).
Proof.
  revert st. induction rules as [|rule rules IH]; intros st; [by left|].
  simpl. destruct (IH (step st rule)) as [Heq|(Hc & r & t & Hr & Hrest)].
  - rewrite Heq. destruct (step_values st rule k) as [?|(Hc & Hh & t & Ht)]; [by left|].
    right. split; [done|]. exists rule, t. split; [by left | done].
  - right. split; [done|]. exists r, t. split; [by right | done].
Qed.

Lemma fold_visible rules st x :
  ~ namedByTriggered fieldKey x rules ->
  x ∈ visibleSections (foldl step st rules) <-> x ∈ visibleSections st.
Proof.
  revert st. induction rules as [|rule rules IH]; intros st Hx; [done|].
  simpl. rewrite IH.
  - apply step_visible. intros [Ht Hd]. apply Hx. exists rule. split; [by left | done].
  - intros (r & Hr & Ht & Hd). apply Hx. exists r. split; [by right | done].
Qed.

(** After a triggered rule, and with no later triggered rule for the same
    section, the section is visible exactly when the rule's value agrees. *)
Lemma fold_last_decides (l1 l2 : list DependentSectionDetail) rule st :
  triggeredBy fieldKey rule = true ->
  ~ namedByTriggered fieldKey (dependentSectionValue rule) l2 ->
  dependentSectionValue rule ∈ visibleSections (foldl step st (l1 ++ rule :: l2)%list)
  <-> Value.strictEqStr v (ruleValue rule) = true.
Proof.
  intros Ht Hl2. rewrite foldl_app. cbn [foldl]. rewrite fold_visible by done.
  destruct (Value.strictEqStr v (ruleValue rule)) eqn:Hv.
  - rewrite step_shows by done. simpl. split; [done|]. intros _. set_solver.
  - rewrite step_hides by done. simpl. split; [|done]. set_solver.
Qed.

End ResolverMore.

(** X8: the resolver never touches the errors or the expanded set; it
    changes a value-store entry only by clearing it to the empty string,
    and only under the key of a field of a section that a triggered rule
    with a differing value names; and it changes the visibility only of
    sections named by triggered rules.  Without a schema it does nothing. *)
Theorem checkDependentSections_frame formData fieldKey v st :
  let st' := checkDependentSections formData fieldKey v st in
  errors st' = errors st
  /\ expandedSections st' = expandedSections st
  /\ (formData = None -> st' = st)
  /\ (forall fd, formData = Some fd ->
      (forall k,
         formValues st' !! k = formValues st !! k
         \/ (formValues st' !! k = Some (VStr "")
             /\ exists rule (t : Triple),
                  rule ∈ dependentSectionsDetails fd /\ hides fieldKey v rule
                  /\ t ∈ allFields fd /\ secName t.1.1 = dependentSectionValue rule
                  /\ tripleKey t = k))
      /\ (forall x,
            ~ namedByTriggered fieldKey x (dependentSectionsDetails fd) ->
            x ∈ visibleSections st' <-> x ∈ visibleSections st)).
Proof.
  intros st'. subst st'. destruct formData as [fd|]; [|by repeat split].
  rewrite checkDependentSections_Some.
  destruct (fold_frame fd fieldKey v (dependentSectionsDetails fd) st) as [He Hx].
  split; [done|]. split; [done|]. split; [done|].
  intros fd' [= <-]. split.
  - intros k. apply fold_values.
  - intros x Hx'. by apply fold_visible.
Qed.

(** X9: the last triggered rule that names a section decides: after the
    field-change handler (and after the resolver alone) the section is
    visible exactly when the new value is that rule's trigger value,
    whatever earlier rules did and whether the section was visible before. *)
Theorem last_triggered_rule_decides fd fieldKey v st
    (l1 l2 : list DependentSectionDetail) rule :
  dependentSectionsDetails fd = (l1 ++ rule :: l2)%list ->
  triggeredBy fieldKey rule = true ->
  ~ namedByTriggered fieldKey (dependentSectionValue rule) l2 ->
  (dependentSectionValue rule ∈ visibleSections (handleFieldChange (Some fd) fieldKey v st)
   <-> v = VStr (ruleValue rule))
  /\ (dependentSectionValue rule
        ∈ visibleSections (checkDependentSections (Some fd) fieldKey v st)
      <-> v = VStr (ruleValue rule)).
Proof.
  intros Hrules Ht Hl2.
  assert (Value.strictEqStr v (ruleValue rule) = true <-> v = VStr (ruleValue rule)) as Heq.
  { destruct v as [s| | |]; simpl; try (split; [done | intros [=]]).
    rewrite String.eqb_eq. split; [by intros -> | by intros [= ->]]. }
  rewrite <- Heq.
  destruct (handleFieldChange_resolver fd fieldKey v st) as [st2 ->].
  rewrite !checkDependentSections_Some, Hrules.
  split; by apply fold_last_decides.
Qed.

Lemma last_triggered_rule_decides_witness :
  ("B" ∈ visibleSections
           (handleFieldChange (Some twoRuleSchema) loanKey (VStr "Maybe")
              (loanState twoRuleSchema))
   <-> VStr "Maybe" = VStr "Maybe")
  /\ ("B" ∈ visibleSections
              (handleFieldChange (Some twoRuleSchema) loanKey (VStr "Yes")
                 (loanState twoRuleSchema))
      <-> VStr "Yes" = VStr "Maybe").
Proof.
  assert (~ namedByTriggered loanKey "B" []) as Hnil.
  { intros (r & Hr & _). by apply elem_of_nil in Hr. }
  split.
  - apply (last_triggered_rule_decides twoRuleSchema loanKey (VStr "Maybe")
             (loanState twoRuleSchema) [mkRule "Yes" "A" "HasLoan" "B"] []
             (mkRule "Maybe" "A" "HasLoan" "B") eq_refl eq_refl Hnil).
  - apply (last_triggered_rule_decides twoRuleSchema loanKey (VStr "Yes")
             (loanState twoRuleSchema) [mkRule "Yes" "A" "HasLoan" "B"] []
             (mkRule "Maybe" "A" "HasLoan" "B") eq_refl eq_refl Hnil).
Defined.

(** ** [toggleSection] and the initialising effect *)

(** X10: toggling a key flips its membership in the expanded set and
    nothing else: other keys, the values, the errors and the visible set
    stay, and toggling twice gives back the state. *)
Theorem toggleSection_flips k st :
  toggleSection k (toggleSection k st) = st
  /\ (k ∈ expandedSections (toggleSection k st) <-> k ∉ expandedSections st)
  /\ (forall k', k' <> k ->
        k' ∈ expandedSections (toggleSection k st) <-> k' ∈ expandedSections st)
  /\ formValues (toggleSection k st) = formValues st
  /\ errors (toggleSection k st) = errors st
  /\ visibleSections (toggleSection k st) = visibleSections st.
Proof.
  unfold toggleSection, setExpandedSections. destruct st as [vals errs vis exp]. simpl.
  split; [|split; [|split; [|done]]].
  - f_equal. destruct (bool_decide (k ∈ exp)) eqn:Hk.
    + apply bool_decide_eq_true in Hk.
      rewrite bool_decide_eq_false_2 by set_solver.
      apply set_eq. intros x. destruct (decide (x = k)) as [->|?]; set_solver.
    + apply bool_decide_eq_false in Hk.
      rewrite bool_decide_eq_true_2 by set_solver. set_solver.
  - case_bool_decide; set_solver.
  - intros k' Hne. case_bool_decide; set_solver.
Qed.

(** X11: the initialising effect is idempotent and forgets the state it
    starts from, except for the errors, which it keeps: loading a schema
    undoes every edit and every toggle but leaves stale error entries in
    place.  Without a schema it leaves the state as it is. *)
Theorem initialize_resets formData st :
  initialize formData (initialize formData st) = initialize formData st
  /\ errors (initialize formData st) = errors st
  /\ initialize None st = st
  /\ (forall fd st2,
        formData = Some fd -> errors st2 = errors st ->
        initialize formData st2 = initialize formData st).
Proof.
  destruct formData as [fd|]; [|by repeat split].
  split; [by rewrite !initialize_Some|]. split; [by rewrite initialize_Some|].
  split; [done|].
  intros fd' st2 _ He. by rewrite !initialize_Some, He.
Qed.

Lemma initialize_resets_witness :
  initialize (Some unorderedSchema)
    (toggleSection "A"
       (handleFieldChange (Some unorderedSchema) "A__s__First__First" (VStr "x")
          unorderedState))
  = initialize (Some unorderedSchema) unorderedState
  /\ errors (initialize (Some unorderedSchema) failedState) = unorderedErrors.
Proof.
  destruct (initialize_resets (Some unorderedSchema) unorderedState) as (_ & _ & _ & Hst).
  destruct (initialize_resets (Some unorderedSchema) failedState) as (_ & He & _).
  split; [|exact He].
  apply (Hst unorderedSchema); [reflexivity|]. vm_compute. reflexivity.
Defined.

(** ** The order of the fields on screen *)

Section SortByOrder.

Implicit Types (x y : FormField) (l : list FormField).

Lemma insertByOrder_perm x l : insertByOrder x l ≡ₚ x :: l.
Proof.
  induction l as [|y l IH]; simpl; [done|].
  destruct (orderOrZero x <=? orderOrZero y); [done|].
  rewrite IH. apply Permutation_swap.
Qed.

Lemma sortByOrder_perm l : sortByOrder l ≡ₚ l.
Proof.
  unfold sortByOrder. induction l as [|x l IH]; simpl; [done|].
  by rewrite insertByOrder_perm, IH.
Qed.

Lemma insertByOrder_sorted x l :
  StronglySorted byOrder l -> StronglySorted byOrder (insertByOrder x l).
Proof.
  induction 1 as [|y l Hs IH Hy]; simpl; [by repeat constructor|].
  destruct (orderOrZero x <=? orderOrZero y) eqn:Hxy.
  - apply Z.leb_le in Hxy. constructor; [by constructor|].
    constructor; [done|]. eapply Forall_impl; [exact Hy|].
    unfold byOrder. intros z Hz. lia.
  - apply Z.leb_gt in Hxy. constructor; [done|].
    rewrite insertByOrder_perm. constructor; [unfold byOrder; lia | done].
Qed.

Lemma sortByOrder_sorted l : StronglySorted byOrder (sortByOrder l).
Proof.
  unfold sortByOrder. induction l as [|x l IH]; simpl; [constructor|].
  by apply insertByOrder_sorted.
Qed.

(** The fields of one order index keep their relative order. *)
Lemma insertByOrder_stable c x l :
  filter (fun f => orderOrZero f = c) (insertByOrder x l)
  = filter (fun f => orderOrZero f = c) (x :: l).
Proof.
  induction l as [|y l IH]; simpl; [done|].
  destruct (orderOrZero x <=? orderOrZero y) eqn:Hxy; [done|].
  apply Z.leb_gt in Hxy. rewrite (filter_cons _ y), IH, !filter_cons.
  destruct (decide (orderOrZero y = c)), (decide (orderOrZero x = c)); try done. lia.
Qed.

Lemma sortByOrder_stable c l :
  filter (fun f => orderOrZero f = c) (sortByOrder l)
  = filter (fun f => orderOrZero f = c) l.
Proof.
  unfold sortByOrder. induction l as [|x l IH]; simpl; [done|].
  by rewrite insertByOrder_stable, !filter_cons, IH.
Qed.

End SortByOrder.

(** ** What is on screen *)

Section Rendering.

Variable st : State.

Lemma renderField_visible section subSection field :
  field ∈ visibleFields subSection ->
  renderField (widgetOf st section subSection field)
  = Some (widgetOf st section subSection field).
Proof.
  intros [Hh _]%list_elem_of_filter. unfold renderField. simpl. by rewrite Hh.
Qed.

Lemma renderSubSection_expanded section subSection :
  subSectionKey section subSection ∈ expandedSections st ->
  renderSubSection st (secName section) subSection
  = map (widgetOf st section subSection) (sortByOrder (visibleFields subSection)).
Proof.
  intros He. unfold renderSubSection. fold (subSectionKey section subSection).
  rewrite bool_decide_eq_true_2 by done.
  assert (forall l : list FormField,
            (forall f, f ∈ l -> f ∈ visibleFields subSection) ->
            omap (fun field => renderField (widgetOf st section subSection field)) l
            = map (widgetOf st section subSection) l) as Hmap.
  { induction l as [|f l IH]; intros Hl; [done|].
    cbn [omap list_omap]. rewrite renderField_visible by (apply Hl; by left).
    simpl. f_equal. apply IH. intros g Hg. apply Hl. by right. }
  destruct (List.length (visibleFields subSection) =? 0)%nat eqn:Hlen.
  - apply Nat.eqb_eq, nil_length_inv in Hlen. by rewrite Hlen.
  - apply Hmap. intros g Hg. by rewrite sortByOrder_perm in Hg.
Qed.

Lemma renderSubSection_collapsed section subSection :
  subSectionKey section subSection ∉ expandedSections st ->
  renderSubSection st (secName section) subSection = [].
Proof.
  intros He. unfold renderSubSection. fold (subSectionKey section subSection).
  rewrite bool_decide_eq_false_2 by done. by case_match.
Qed.

Lemma elem_of_renderSubSection section subSection w :
  w ∈ renderSubSection st (secName section) subSection <->
  subSectionKey section subSection ∈ expandedSections st
  /\ exists field, field ∈ fields subSection /\ isHidden field = false
                   /\ w = widgetOf st section subSection field.
Proof.
  destruct (decide (subSectionKey section subSection ∈ expandedSections st)) as [He|He].
  - rewrite renderSubSection_expanded by done. rewrite list_elem_of_fmap. split.
    + intros (f & -> & Hf). split; [done|]. rewrite sortByOrder_perm in Hf.
      apply list_elem_of_filter in Hf as [? ?]. by exists f.
    + intros (_ & f & Hf & Hh & ->). exists f. split; [done|].
      rewrite sortByOrder_perm. by apply list_elem_of_filter.
  - rewrite renderSubSection_collapsed by done.
    split; [by intros ?%elem_of_nil | by intros [? _]].
Qed.

Lemma elem_of_renderForm fd w :
  w ∈ renderForm (Some fd) st <->
  exists section subSection field,
    section ∈ sections fd /\ subSection ∈ subSections section
    /\ field ∈ fields subSection /\ isHidden field = false
    /\ secName section ∈ visibleSections st
    /\ secName section ∈ expandedSections st
    /\ subSectionKey section subSection ∈ expandedSections st
    /\ w = widgetOf st section subSection field.
Proof.
  unfold renderForm. rewrite list_elem_of_bind. split.
  - intros (sec & Hw & [Hv Hsec]%list_elem_of_filter). unfold renderSection in Hw.
    case_bool_decide as Hexp; [|by apply elem_of_nil in Hw].
    apply list_elem_of_bind in Hw as (sub & Hw & Hsub).
    apply elem_of_renderSubSection in Hw as (He & f & Hf & Hh & ->).
    by exists sec, sub, f.
  - intros (sec & sub & f & Hsec & Hsub & Hf & Hh & Hv & Hexp & He & ->).
    exists sec. split; [|by apply list_elem_of_filter].
    unfold renderSection. rewrite bool_decide_eq_true_2 by done.
    apply list_elem_of_bind. exists sub. split; [|done].
    apply elem_of_renderSubSection. split; [done|]. by exists f.
Qed.

End Rendering.

(** X12: a field's widget is on screen exactly when the field is not
    hidden, its section is visible and expanded, and its subsection is
    expanded; the widget carries the field's key, the stored value (the
    empty string for a missing or falsy one) and the error under the key.
    Every field on screen is among the fields that validation checks, so
    nothing shown escapes validation, while a collapsed section is validated
    without being shown.  Without a schema nothing is on screen. *)
Theorem rendered_iff st :
  renderForm None st = []
  /\ (forall fd w,
        w ∈ renderForm (Some fd) st <->
        exists section subSection field,
          section ∈ sections fd /\ subSection ∈ subSections section
          /\ field ∈ fields subSection /\ isHidden field = false
          /\ secName section ∈ visibleSections st
          /\ secName section ∈ expandedSections st
          /\ subSectionKey section subSection ∈ expandedSections st
          /\ w = widgetOf st section subSection field)
  /\ (forall fd w,
        w ∈ renderForm (Some fd) st ->
        exists t : Triple,
          t ∈ validationWalk (visibleSections st) fd
          /\ t.2 = widgetField w /\ tripleKey t = widgetKey w
          /\ storedValue (formValues st) t = widgetValue w).
Proof.
  split; [done|]. split; [apply elem_of_renderForm|].
  intros fd w (sec & sub & f & Hsec & Hsub & Hf & Hh & Hv & _ & _ & ->)%elem_of_renderForm.
  exists (sec, sub, f). split; [|done].
  apply elem_of_validationWalk. split; [by apply elem_of_allFields | done].
Qed.

(** X13: the fields of an expanded subsection are shown in ascending order
    index (a missing index counting as zero), fields of equal index in
    their list order, each non-hidden field once and no other; a collapsed
    subsection shows none. *)
Theorem rendered_order st section subSection :
  (subSectionKey section subSection ∈ expandedSections st ->
   let shown := map widgetField (renderSubSection st (secName section) subSection) in
   shown ≡ₚ visibleFields subSection
   /\ StronglySorted byOrder shown
   /\ forall c, filter (fun f => orderOrZero f = c) shown
                = filter (fun f => orderOrZero f = c) (visibleFields subSection))
  /\ (subSectionKey section subSection ∉ expandedSections st ->
      renderSubSection st (secName section) subSection = []).
Proof.
  split; [|apply renderSubSection_collapsed].
  intros He shown. subst shown. rewrite renderSubSection_expanded by done.
  assert (map widgetField
            (map (widgetOf st section subSection) (sortByOrder (visibleFields subSection)))
          = sortByOrder (visibleFields subSection)) as ->.
  { rewrite map_map. simpl. apply map_id. }
  split; [apply sortByOrder_perm|]. split; [apply sortByOrder_sorted|].
  intros c. apply sortByOrder_stable.
Qed.

Lemma rendered_order_witness :
  "A-s" ∈ expandedSections unorderedState
  /\ map widgetField
       (renderSubSection unorderedState "A"
          (mkSubSection "s" 0 0 true [firstInList; secondInList]))
     = [secondInList; firstInList]
  /\ StronglySorted byOrder [secondInList; firstInList].
Proof.
  assert ("A-s" ∈ expandedSections unorderedState) as He
    by (apply (bool_decide_unpack _); vm_compute; exact I).
  destruct (rendered_order unorderedState
              (mkSection "A" true [mkSubSection "s" 0 0 true [firstInList; secondInList]])
              (mkSubSection "s" 0 0 true [firstInList; secondInList])) as [Hshown _].
  destruct (Hshown He) as (_ & Hsorted & _).
  assert (map widgetField
            (renderSubSection unorderedState "A"
               (mkSubSection "s" 0 0 true [firstInList; secondInList]))
          = [secondInList; firstInList]) as Heq by (vm_compute; reflexivity).
  split; [exact He|]. split; [exact Heq|].
  simpl in Hsorted. rewrite Heq in Hsorted. exact Hsorted.
Defined.

(** ** The first screen *)

Lemma expandedOfSection_nothing section :
  secIsPrePopulateData section = false ->
  Forall (fun subSection => subIsPrePopulateData subSection = false) (subSections section) ->
  expandedOfSection section = [].
Proof.
  intros Hs Hsub. unfold expandedOfSection. rewrite Hs. simpl.
  induction Hsub as [|sub l Hp _ IH]; [done|].
  rewrite bind_cons, IH. unfold expandedOfSubSection. by rewrite Hp.
Qed.

(** X14: right after a schema is loaded, every non-hidden field of a
    section and subsection that are both flagged as pre-populated is on
    screen, with the value the initialiser stored under its key; and a
    schema with no such flag at all starts with every section collapsed,
    so with no field on screen. *)
Theorem first_screen fd st :
  (forall section subSection field,
     section ∈ sections fd -> subSection ∈ subSections section ->
     field ∈ fields subSection -> isHidden field = false ->
     secIsPrePopulateData section = true -> subIsPrePopulateData subSection = true ->
     widgetOf (initialize (Some fd) st) section subSection field
       ∈ renderForm (Some fd) (initialize (Some fd) st))
  /\ (nothingPrePopulated fd -> renderForm (Some fd) (initialize (Some fd) st) = []).
Proof.
  split.
  - intros sec sub f Hsec Hsub Hf Hh Hps Hpsub.
    apply elem_of_renderForm. exists sec, sub, f.
    rewrite initialize_Some. simpl.
    repeat (split; [done|]). split; [|split; [|split; [|done]]].
    + apply elem_of_list_to_set, list_elem_of_fmap. by exists sec.
    + apply elem_of_list_to_set, list_elem_of_bind. exists sec. split; [|done].
      unfold expandedOfSection. rewrite Hps. apply elem_of_app. left. by left.
    + apply elem_of_list_to_set, list_elem_of_bind. exists sec. split; [|done].
      unfold expandedOfSection. apply elem_of_app. right.
      apply list_elem_of_bind. exists sub. split; [|done].
      unfold expandedOfSubSection. rewrite Hpsub. by left.
  - intros Hnone. unfold nothingPrePopulated in Hnone.
    assert (expandedSections (initialize (Some fd) st) = ∅) as Hexp.
    { rewrite initialize_Some. simpl.
      assert (sections fd ≫= expandedOfSection = []) as ->; [|done].
      induction Hnone as [|sec l [Hs Hsub] _ IH]; [done|].
      by rewrite bind_cons, IH, expandedOfSection_nothing. }
    destruct (renderForm (Some fd) (initialize (Some fd) st)) as [|w ws] eqn:Hr; [done|].
    assert (w ∈ renderForm (Some fd) (initialize (Some fd) st)) as Hw
      by (rewrite Hr; by left).
    apply elem_of_renderForm in Hw as (sec & sub & f & _ & _ & _ & _ & _ & He & _).
    rewrite Hexp in He. by apply not_elem_of_empty in He.
Qed.

Lemma first_screen_witness :
  nothingPrePopulated collidingSchema
  /\ renderForm (Some collidingSchema) (initialize (Some collidingSchema) initialState) = []
  /\ widgetOf unorderedState
       (mkSection "A" true [mkSubSection "s" 0 0 true [firstInList; secondInList]])
       (mkSubSection "s" 0 0 true [firstInList; secondInList]) firstInList
     ∈ renderForm (Some unorderedSchema) unorderedState.
Proof.
  assert (nothingPrePopulated collidingSchema) as Hnone by (by repeat constructor).
  destruct (first_screen collidingSchema initialState) as [_ Hempty].
  destruct (first_screen unorderedSchema initialState) as [Hshown _].
  split; [exact Hnone|]. split; [exact (Hempty Hnone)|].
  apply (Hshown (mkSection "A" true [mkSubSection "s" 0 0 true [firstInList; secondInList]])
           (mkSubSection "s" 0 0 true [firstInList; secondInList]) firstInList);
    try reflexivity.
  - by left.
  - by left.
  - by left.
Defined.

(** ** The scroll to the first error *)

(** Which keys are carried by an element of the document *)
Lemma elem_of_keyedElements fd st k :
  k ∈ keyedElements (Some fd) st <->
  exists section subSection field,
    section ∈ sections fd /\ subSection ∈ subSections section
    /\ field ∈ fields subSection /\ isHidden field = false
    /\ secName section ∈ visibleSections st
    /\ secName section ∈ expandedSections st
    /\ subSectionKey section subSection ∈ expandedSections st
    /\ k = getFieldKey (secName section) (subName subSection) field
    /\ (fieldType field = "RADIO" -> radioChoices field <> []).
Proof.
  unfold keyedElements. rewrite list_elem_of_bind. split.
  - intros (w & Hk & Hw).
    apply elem_of_renderForm in Hw
      as (sec & sub & f & Hsec & Hsub & Hf & Hh & Hv & He & Hes & ->).
    exists sec, sub, f. repeat (split; [done|]). simpl in Hk.
    destruct (String.eqb (fieldType f) "RADIO") eqn:Hr.
    + apply list_elem_of_fmap in Hk as (o & -> & Ho). split; [done|].
      intros _ Hnil. rewrite Hnil in Ho. by apply elem_of_nil in Ho.
    + apply list_elem_of_singleton in Hk as ->. split; [done|].
      intros Hradio. rewrite Hradio in Hr. discriminate Hr.
  - intros (sec & sub & f & Hsec & Hsub & Hf & Hh & Hv & He & Hes & -> & Hradio).
    exists (widgetOf st sec sub f). split.
    + simpl. destruct (String.eqb (fieldType f) "RADIO") eqn:Hr; [|by left].
      apply String.eqb_eq in Hr. specialize (Hradio Hr).
      destruct (radioChoices f) as [|o os]; [done|]. by left.
    + apply elem_of_renderForm. by exists sec, sub, f.
Qed.

(** Validation changes the error object only, so the document keeps its
    keyed elements. *)
Lemma keyedElements_setErrors fd st upd k :
  k ∈ keyedElements (Some fd) (setErrors upd st) <-> k ∈ keyedElements (Some fd) st.
Proof. by rewrite !elem_of_keyedElements. Qed.

Lemma NoDup_fmap_eq {A B} (f : A -> B) (l : list A) x y :
  NoDup (map f l) -> x ∈ l -> y ∈ l -> f x = f y -> x = y.
Proof.
  induction l as [|z l IH]; intros Hnd Hx Hy Hxy; [by apply elem_of_nil in Hx|].
  cbn [map] in Hnd. apply NoDup_cons in Hnd as [Hz Hnd].
  apply elem_of_cons in Hx as [->|Hx], Hy as [->|Hy].
  - done.
  - destruct Hz. rewrite Hxy. apply list_elem_of_fmap. by exists y.
  - destruct Hz. rewrite <- Hxy. apply list_elem_of_fmap. by exists x.
  - by apply IH.
Qed.

(** X22: after a failed validation the first key of the returned error
    object is the key of the first failing field in the order of the
    validation walk: visible sections, subsections and non-hidden fields,
    each in list order.  When that key can stand in the selector as it is,
    the handler scrolls to it if an element of the document carries the
    key, and leaves the document alone if none does.  An element carries
    it when the section and the subsection of the failing field are
    expanded (and the field is not a radio group without options); none
    does, the keys of the schema being pairwise different, when the
    section or the subsection is collapsed. *)
Theorem first_error_key dateParse now fd st st' r :
  validateForm dateParse now (Some fd) st = Ok (st', r) ->
  isValid r = false ->
  exists t,
    find (fieldFails dateParse now (formValues st))
         (validationWalk (visibleSections st) fd) = Some t
    /\ head (Obj.keys (resultErrors r)) = Some (tripleKey t)
    /\ (selectorSafe (tripleKey t) = true ->
        (tripleKey t ∈ keyedElements (Some fd) st ->
         handleSubmit dateParse now (Some fd) st
         = Ok (st', [ScrollIntoView (tripleKey t)]))
        /\ (tripleKey t ∉ keyedElements (Some fd) st ->
            handleSubmit dateParse now (Some fd) st = Ok (st', [])))
    /\ (secName t.1.1 ∈ expandedSections st ->
        subSectionKey t.1.1 t.1.2 ∈ expandedSections st ->
        (fieldType t.2 = "RADIO" -> radioChoices t.2 <> []) ->
        tripleKey t ∈ keyedElements (Some fd) st)
    /\ (NoDup (fieldKeys fd) ->
        secName t.1.1 ∉ expandedSections st
        \/ subSectionKey t.1.1 t.1.2 ∉ expandedSections st ->
        tripleKey t ∉ keyedElements (Some fd) st).
Proof.
  intros Hv Hinvalid.
  destruct (validateForm_Some _ _ _ _ _ _ Hv) as (Hc & Hst & Hvalid).
  rewrite collectErrors_walk in Hc. apply forEachM_step_head in Hc. simpl in Hc.
  destruct (find _ _) as [t|] eqn:Hfind; simpl in Hc.
  - exists t. split; [done|]. split; [done|].
    apply find_some in Hfind as [Hin _]. apply list_elem_of_In in Hin.
    apply elem_of_validationWalk in Hin as (Hall & Hvis & Hh).
    destruct t as [[sec sub] f]. apply elem_of_allFields in Hall as (Hsec & Hsub & Hf).
    split; [|split].
    + intros Hsafe. unfold handleSubmit. rewrite Hv. simpl.
      rewrite Hinvalid. unfold scrollToFirstError.
      rewrite Hc, tripleKey_nonempty, Hsafe.
      split; intros Hel.
      * rewrite bool_decide_eq_true_2; [done|].
        rewrite Hst. by apply keyedElements_setErrors.
      * rewrite bool_decide_eq_false_2; [done|].
        rewrite Hst. by rewrite keyedElements_setErrors.
    + intros He Hes Hradio. apply elem_of_keyedElements.
      by exists sec, sub, f.
    + intros Hnd Hcollapsed Hel.
      apply elem_of_keyedElements in Hel
        as (sec' & sub' & f' & Hsec' & Hsub' & Hf' & _ & _ & He & Hes & Hkey & _).
      assert ((sec, sub, f) = (sec', sub', f')) as [= <- <- <-].
      { apply (NoDup_fmap_eq tripleKey (allFields fd)); [done| | |done];
          by apply elem_of_allFields. }
      by destruct Hcollapsed.
  - rewrite Hinvalid in Hvalid. symmetry in Hvalid.
    apply bool_decide_eq_false in Hvalid. by destruct (resultErrors r).
Qed.

Lemma first_error_key_witness :
  handleSubmit isoDateParse 0 (Some unorderedSchema) unorderedState
    = Ok (failedState, [ScrollIntoView "A__s__First__First"])
  /\ handleSubmit isoDateParse 0 (Some unorderedSchema) (toggleSection "A" unorderedState)
     = Ok (setErrors (fun _ => unorderedErrors) (toggleSection "A" unorderedState), []).
Proof.
  assert (validateForm isoDateParse 0 (Some unorderedSchema) unorderedState
          = Ok (failedState, mkValidation false unorderedErrors)) as Hopen
    by (vm_compute; reflexivity).
  assert (validateForm isoDateParse 0 (Some unorderedSchema) (toggleSection "A" unorderedState)
          = Ok (setErrors (fun _ => unorderedErrors) (toggleSection "A" unorderedState),
                mkValidation false unorderedErrors)) as Hshut
    by (vm_compute; reflexivity).
  split.
  - destruct (first_error_key _ _ _ _ _ _ Hopen eq_refl)
      as (t & Hfind & _ & Hscroll & Hmounted & _).
    assert (firstTriple = t) as <- by (vm_compute in Hfind; by injection Hfind).
    apply (Hscroll eq_refl). apply Hmounted.
    + apply (bool_decide_unpack _). vm_compute. exact I.
    + apply (bool_decide_unpack _). vm_compute. exact I.
    + discriminate.
  - destruct (first_error_key _ _ _ _ _ _ Hshut eq_refl)
      as (t & Hfind & _ & Hscroll & _ & Hcollapsed).
    assert (firstTriple = t) as <- by (vm_compute in Hfind; by injection Hfind).
    apply (Hscroll eq_refl). apply Hcollapsed.
    + change (NoDup ["A__s__First__First"; "A__s__Second__Second"]).
      apply NoDup_cons. split; [|apply NoDup_singleton].
      intros H. apply list_elem_of_singleton in H. discriminate H.
    + left. apply (bool_decide_unpack _). vm_compute. exact I.
Defined.

(** ** The attachment widgets *)

Section Attachments.

Variable kind : AttachmentKind.

Lemma checkFile_step p acc :
  checkFile kind acc p
  = if validPick kind p then ((acc.1 ++ [p])%list, acc.2)
    else (acc.1, (checkFile kind acc p).2).
Proof.
  unfold checkFile, validPick.
  by destruct (typeAccepted kind p), (sizeAccepted kind p).
Qed.

Lemma checkFile_fold files valid errs :
  (foldl (checkFile kind) (valid, errs) files).1
  = (valid ++ filter (fun p => validPick kind p = true) files)%list.
Proof.
  revert valid errs. induction files as [|p files IH]; intros valid errs.
  - simpl. by rewrite app_nil_r.
  - cbn [foldl]. rewrite filter_cons, checkFile_step. cbn [fst snd].
    destruct (validPick kind p) eqn:Hp.
    + rewrite IH, decide_True by done. by rewrite <- app_assoc.
    + rewrite IH, decide_False by done. done.
Qed.

Lemma checkFile_fold_errors files valid errs :
  (foldl (checkFile kind) (valid, errs) files).2 = []
  <-> errs = [] /\ Forall (fun p => validPick kind p = true) files.
Proof.
  revert valid errs. induction files as [|p files IH]; intros valid errs.
  - simpl. split; [by intros -> | by intros [-> _]].
  - cbn [foldl]. rewrite Forall_cons. unfold checkFile at 2, validPick at 1.
    cbn [fst snd].
    destruct (typeAccepted kind p); cbn [negb andb].
    + destruct (sizeAccepted kind p); cbn [negb]; rewrite IH.
      * tauto.
      * split; [intros [H _]; by destruct errs | intros [_ [[=] _]]].
    + rewrite IH. split; [intros [H _]; by destruct errs | intros [_ [[=] _]]].
Qed.

Lemma fileList_shape (l : list Item) : noEmptyUrl l -> fileList (shape l) = l.
Proof.
  unfold noEmptyUrl. intros Hl. destruct l as [|[s|p] [|j l]]; simpl; try done.
  destruct s; [|done]. destruct Hl. by left.
Qed.

Lemma noEmptyUrl_files (l : list Item) (ps : list Picked) :
  noEmptyUrl l -> noEmptyUrl (l ++ map IFile ps).
Proof.
  unfold noEmptyUrl. intros Hl [Hin|Hin]%elem_of_app; [done|].
  apply list_elem_of_fmap in Hin as (p & [=] & _).
Qed.

Lemma fileList_handleFileChange field value files :
  noEmptyUrl (fileList value) ->
  fileList (handleFileChange kind field value files).2
  = (fileList value ++ map IFile (filter (fun p => validPick kind p = true) files))%list.
Proof.
  intros Hv. unfold handleFileChange. cbn [snd]. rewrite checkFile_fold. simpl.
  apply fileList_shape. by apply noEmptyUrl_files.
Qed.

Lemma removeFile_fileList value index :
  noEmptyUrl (fileList value) -> (index < List.length (fileList value))%nat ->
  fileList (removeFile value index) = delete index (fileList value).
Proof.
  intros Hv Hi. unfold removeFile.
  assert (match value with
          | HStr s => [IUrl s]
          | HFile p => [IFile p]
          | HList l => l
          end = fileList value) as ->.
  { destruct value as [s| |]; simpl in *; try done. destruct s; [simpl in Hi; lia | done]. }
  assert (noEmptyUrl (delete index (fileList value))) as Hd.
  { unfold noEmptyUrl in *. intros Hin. apply Hv.
    by apply list_elem_of_delete_inv in Hin. }
  destruct (delete index (fileList value)) as [|i rest] eqn:Hdel; [done|].
  by apply fileList_shape.
Qed.

End Attachments.

(** X15: a file selection appends to the attachments already held exactly
    the picked files of an accepted type and within the size limit, in the
    order picked; nothing held is dropped or moved, and nothing is refused
    for exceeding the declared maximum number of files, which only adds a
    line to the alert.  No alert is raised exactly when every picked file
    is valid and the maximum is not exceeded. *)
Theorem file_selection kind field value files :
  noEmptyUrl (fileList value) ->
  let out := handleFileChange kind field value files in
  let added := filter (fun p => validPick kind p = true) files in
  fileList out.2 = (fileList value ++ map IFile added)%list
  /\ noEmptyUrl (fileList out.2)
  /\ (out.1 = None <->
      Forall (fun p => validPick kind p = true) files
      /\ forall m, maxFiles kind field = Some m ->
                   ~ m < Z.of_nat (List.length (fileList value) + List.length added)).
Proof.
  intros Hv out added. subst out added.
  rewrite (fileList_handleFileChange kind field value files Hv).
  split; [done|]. split; [by apply noEmptyUrl_files|].
  unfold handleFileChange. cbn [fst]. rewrite checkFile_fold. simpl.
  pose proof (checkFile_fold_errors kind files [] []) as Herr.
  destruct (maxFiles kind field) as [m|].
  - destruct (m <? _) eqn:Hm.
    + apply Z.ltb_lt in Hm. split.
      * destruct (foldl _ _ _).2; done.
      * intros [_ H]. by destruct (H m eq_refl).
    + apply Z.ltb_ge in Hm. split.
      * intros H. split.
        -- apply Herr. by destruct (foldl _ _ _).2.
        -- intros m' [= <-]. lia.
      * intros [Hall _]. by rewrite (proj2 Herr (conj eq_refl Hall)).
  - split.
    + intros H. split; [|by intros m [=]]. apply Herr. by destruct (foldl _ _ _).2.
    + intros [Hall _]. by rewrite (proj2 Herr (conj eq_refl Hall)).
Qed.

Lemma file_selection_witness :
  fileList (handleFileChange imageKind photoField (HFile frontPng)
              [notesPdf; frontPng; hugePng]).2
  = [IFile frontPng; IFile frontPng]
  /\ (handleFileChange imageKind photoField (HStr "") [frontPng]).1 = None.
Proof.
  assert (noEmptyUrl (fileList (HFile frontPng))) as H1.
  { intros H. apply list_elem_of_singleton in H. discriminate H. }
  assert (noEmptyUrl (fileList (HStr ""))) as H2 by apply not_elem_of_nil.
  destruct (file_selection imageKind photoField (HFile frontPng)
              [notesPdf; frontPng; hugePng] H1) as (Hlist & _ & _).
  destruct (file_selection imageKind photoField (HStr "") [frontPng] H2)
    as (_ & _ & Halert).
  split; [exact Hlist|].
  apply Halert. split.
  - by repeat constructor.
  - intros m [= <-]. simpl. lia.
Defined.

(** X16: removing the attachment at an index of the list held leaves the
    others in their order; removing the only one stores the empty string;
    and removing the file a selection has just appended gives back the
    list held before the selection. *)
Theorem removeFile_undoes_selection kind field value :
  noEmptyUrl (fileList value) ->
  (forall index,
     (index < List.length (fileList value))%nat ->
     fileList (removeFile value index) = delete index (fileList value)
     /\ (List.length (fileList value) = 1%nat -> removeFile value index = HStr ""))
  /\ (forall p,
        validPick kind p = true ->
        fileList (removeFile (handleFileChange kind field value [p]).2
                    (List.length (fileList value)))
        = fileList value).
Proof.
  intros Hv. split.
  - intros index Hi. split; [by apply removeFile_fileList|].
    intros Hone. unfold removeFile.
    destruct value as [s|p|l]; simpl in *.
    + destruct index; [done | destruct (isEmpty s); simpl in Hi; lia].
    + destruct index; [done | lia].
    + destruct l as [|i [|j l]]; simpl in *; try done.
      destruct index; [done | lia].
  - intros p Hp.
    assert (fileList (handleFileChange kind field value [p]).2
            = (fileList value ++ [IFile p])%list) as Hsel.
    { rewrite fileList_handleFileChange by done.
      by rewrite filter_cons, decide_True by done. }
    rewrite removeFile_fileList.
    + rewrite Hsel. rewrite delete_middle. by rewrite app_nil_r.
    + rewrite Hsel. by apply (noEmptyUrl_files _ [p]).
    + rewrite Hsel, length_app. simpl. lia.
Qed.

Lemma removeFile_undoes_selection_witness :
  removeFile (HFile frontPng) 0 = HStr ""
  /\ fileList (removeFile (handleFileChange imageKind photoField (HFile frontPng)
                             [frontPng]).2 1)
     = [IFile frontPng].
Proof.
  assert (noEmptyUrl (fileList (HFile frontPng))) as H1.
  { intros H. apply list_elem_of_singleton in H. discriminate H. }
  destruct (removeFile_undoes_selection imageKind photoField (HFile frontPng) H1)
    as [Hrem Hundo].
  split.
  - apply (Hrem 0%nat); simpl; [lia | reflexivity].
  - apply (Hundo frontPng). reflexivity.
Defined.

(** What the widget hands over when nothing held is an address: an empty
    list, one file or a list of files, never a string. *)
Lemma toJsValue_files kind field value files :
  holdsFilesOnly value ->
  exists v, toJsValue (handleFileChange kind field value files).2 = Some v
            /\ isString v = false /\ Value.truthy v = true.
Proof.
  intros Hv. unfold handleFileChange. cbn [snd].
  assert (exists ps : list Picked, fileList value = map IFile ps) as [ps ->].
  { destruct Hv as [->|[[p ->]| [ps ->]]];
      [by exists [] | by exists [p] | by exists ps]. }
  rewrite <- map_app.
  generalize (ps ++ (foldl (checkFile kind) ([], []) files).1)%list. clear.
  intros ps.
  assert (forall qs : list Picked,
            mapM itemFile (map IFile qs) = Some (map pickedFile qs)) as Hmap.
  { induction qs as [|q qs IH]; [done|].
    change (map IFile (q :: qs)) with (IFile q :: map IFile qs).
    cbn [mapM]. rewrite IH. done. }
  destruct ps as [|p [|q ps]].
  - by exists (VList []).
  - by exists (VFile (pickedFile p)).
  - exists (VList (map pickedFile (p :: q :: ps))).
    change (shape (map IFile (p :: q :: ps))) with (HList (map IFile (p :: q :: ps))).
    unfold toJsValue. by rewrite Hmap.
Qed.

(** X17: a file selection on a mandatory attachment field that is walked by
    the engine and triggers no rule leaves the form unable to validate:
    whatever is picked, valid or not, the widget stores an array or a file
    under the field's key, and the next validation throws instead of
    returning. *)
Theorem selection_blocks_validation dateParse now fd st kind files value (t : Triple) :
  t ∈ validationWalk (visibleSections st) fd ->
  mandatory t.2 = true ->
  noRuleMatches fd (tripleKey t) ->
  holdsFilesOnly value ->
  exists v,
    toJsValue (handleFileChange kind t.2 value files).2 = Some v
    /\ exists err,
         validateForm dateParse now (Some fd)
           (handleFieldChange (Some fd) (tripleKey t) v st) = Throw err.
Proof.
  intros Hin Hm Hrules Hv.
  destruct (toJsValue_files kind t.2 value files Hv) as (v & Hjs & Hstr & Htruthy).
  exists v. split; [done|].
  assert (formValues (handleFieldChange (Some fd) (tripleKey t) v st)
          = <[tripleKey t := v]> (formValues st)
          /\ visibleSections (handleFieldChange (Some fd) (tripleKey t) v st)
             = visibleSections st) as [Hvalues Hvisible].
  { unfold handleFieldChange.
    rewrite checkDependentSections_untriggered by done.
    destruct (Obj.get _ _) as [msg|]; [destruct (isEmpty msg)|]; done. }
  apply (validateForm_throws_at _ _ _ _ t).
  - by rewrite Hvisible.
  - rewrite Hvalues. unfold storedValue. rewrite lookup_insert_eq.
    unfold Value.orEmpty. rewrite Htruthy.
    unfold fieldThrows. by rewrite Hm, Hstr.
Qed.

Lemma selection_blocks_validation_witness :
  exists v,
    toJsValue (handleFileChange imageKind photoField (HStr "") [notesPdf]).2 = Some v
    /\ exists err,
         validateForm isoDateParse 0 (Some photoSchema)
           (handleFieldChange (Some photoSchema) photoKey v
              (initialize (Some photoSchema) initialState)) = Throw err.
Proof.
  apply (selection_blocks_validation isoDateParse 0 photoSchema
           (initialize (Some photoSchema) initialState) imageKind [notesPdf]
           (HStr "") photoTriple).
  - change (photoTriple ∈ [photoTriple]). by left.
  - reflexivity.
  - constructor.
  - by left.
Defined.

(** ** Dropdown and radio options *)

Lemma trimStart_head s :
  trimStart s = "" \/ exists a t, trimStart s = String a t /\ isWhiteSpace a = false.
Proof.
  induction s as [|a s IH]; [by left|]. cbn [trimStart].
  destruct (isWhiteSpace a) eqn:Ha; [done|]. right. by exists a, s.
Qed.

Lemma trimEnd_idem s : trimEnd (trimEnd s) = trimEnd s.
Proof.
  induction s as [|a s IH]; [done|]. cbn [trimEnd].
  destruct (trimEnd s) as [|b r] eqn:Hr.
  - destruct (isWhiteSpace a) eqn:Ha; [done|]. cbn [trimEnd]. by rewrite Ha.
  - cbn [trimEnd] in *. by rewrite IH.
Qed.

Lemma trimEnd_head a t :
  isWhiteSpace a = false -> exists u, trimEnd (String a t) = String a u.
Proof.
  intros Ha. cbn [trimEnd]. destruct (trimEnd t); [rewrite Ha|]; by eexists.
Qed.

Lemma trim_idem s : trim (trim s) = trim s.
Proof.
  unfold trim. destruct (trimStart_head s) as [->|(a & t & -> & Ha)]; [done|].
  destruct (trimEnd_head a t Ha) as [u Hu]. rewrite Hu at 1.
  cbn [trimStart]. rewrite Ha, <- Hu. apply trimEnd_idem.
Qed.

Lemma trimStart_space s : trim (String " " s) = trim s.
Proof. done. Qed.

Lemma forall_chars_trimStart p s :
  forall_chars p s = true -> forall_chars p (trimStart s) = true.
Proof.
  induction s as [|a s IH]; [done|]. cbn [trimStart]. intros H.
  destruct (isWhiteSpace a); [|done].
  apply IH. simpl in H. by apply andb_prop in H as [_ ?].
Qed.

Lemma forall_chars_trimEnd p s :
  forall_chars p s = true -> forall_chars p (trimEnd s) = true.
Proof.
  induction s as [|a s IH]; [done|]. cbn [trimEnd forall_chars].
  intros [Ha Hs]%andb_prop. specialize (IH Hs).
  destruct (trimEnd s).
  - destruct (isWhiteSpace a); [done|]. simpl. by rewrite Ha.
  - change (p a && forall_chars p (String a0 s0) = true). by rewrite Ha, IH.
Qed.

Lemma splitComma_no_comma s :
  Forall (fun p => forall_chars (fun a => negb (isComma a)) p = true) (splitComma s).
Proof.
  induction s as [|a s IH]; [by repeat constructor|]. cbn [splitComma].
  destruct (isComma a) eqn:Ha.
  - by constructor.
  - destruct (splitComma s) as [|p ps].
    { constructor; [|constructor]. cbn [forall_chars]. by rewrite Ha. }
    apply Forall_cons in IH as [Hp Hps]. constructor; [|done].
    simpl. by rewrite Ha, Hp.
Qed.

Lemma splitComma_cons x rest :
  forall_chars (fun a => negb (isComma a)) x = true ->
  splitComma (x +++ String "," rest) = x :: splitComma rest.
Proof.
  induction x as [|a x IH]; [done|]. cbn [forall_chars].
  intros [Ha Hx]%andb_prop. apply negb_true_iff in Ha.
  change (String a x +++ String "," rest) with (String a (x +++ String "," rest)).
  cbn [splitComma]. by rewrite Ha, (IH Hx).
Qed.

Lemma splitComma_single x :
  forall_chars (fun a => negb (isComma a)) x = true -> splitComma x = [x].
Proof.
  induction x as [|a x IH]; [done|]. cbn [forall_chars].
  intros [Ha Hx]%andb_prop. apply negb_true_iff in Ha.
  cbn [splitComma]. by rewrite Ha, (IH Hx).
Qed.

Lemma cleanOption_spec o :
  cleanOption o = true
  <-> isEmpty o = false /\ trim o = o
      /\ forall_chars (fun a => negb (isComma a)) o = true.
Proof.
  unfold cleanOption. rewrite !andb_true_iff, negb_true_iff, String.eqb_eq. tauto.
Qed.

Lemma splitComma_join x (l : list string) :
  Forall (fun o => cleanOption o = true) (x :: l) ->
  splitComma (join ", " (x :: l)) = x :: map (String " ") l.
Proof.
  revert x. induction l as [|y l IH]; intros x Hl.
  - apply Forall_cons in Hl as [Hx _]. apply cleanOption_spec in Hx as (_ & _ & Hx).
    by apply splitComma_single.
  - apply Forall_cons in Hl as [Hx Hl]. apply cleanOption_spec in Hx as (_ & _ & Hx).
    change (join ", " (x :: y :: l))
      with (x +++ String "," (String " " (join ", " (y :: l)))).
    rewrite (splitComma_cons _ _ Hx). f_equal.
    cbn [splitComma]. change (isComma " ") with false. cbn iota.
    by rewrite (IH y Hl).
Qed.

(** X18: every option read from the list of values a schema declares is a
    non-empty string without white space around it and without a comma.
    So are all the buttons of a radio group; of the entries of a dropdown
    all but the first, which is the empty placeholder. *)
Theorem options_clean dropDownValues' field :
  Forall (fun o => cleanOption o = true) (options dropDownValues')
  /\ Forall (fun o => cleanOption o = true) (radioChoices field)
  /\ head (dropdownChoices field) = Some ""
  /\ Forall (fun o => cleanOption o = true) (tail (dropdownChoices field)).
Proof.
  assert (forall d, Forall (fun o => cleanOption o = true) (options d)) as Hclean.
  { intros d. unfold options. destruct (truthyStr d); [|constructor].
    apply Forall_forall. intros o [Ho Hin]%list_elem_of_filter.
    apply list_elem_of_fmap in Hin as (p & -> & Hp).
    apply cleanOption_spec. split; [done|]. split; [apply trim_idem|].
    pose proof (splitComma_no_comma (default "" d)) as Hall.
    rewrite Forall_forall in Hall. specialize (Hall p Hp).
    unfold trim. by apply forall_chars_trimEnd, forall_chars_trimStart. }
  split; [apply Hclean|]. split; [apply Hclean|]. split; [done|]. apply Hclean.
Qed.

Lemma trim_space_clean (l : list string) :
  Forall (fun o => cleanOption o = true) l ->
  map (fun o => trim (String " " o)) l = l.
Proof.
  induction 1 as [|o l Ho Hl IH]; [done|].
  apply cleanOption_spec in Ho as (_ & Ho & _).
  cbn [map]. by rewrite trimStart_space, Ho, IH.
Qed.

Lemma filter_clean (l : list string) :
  Forall (fun o => cleanOption o = true) l ->
  filter (fun o => isEmpty o = false) l = l.
Proof.
  induction 1 as [|o l Ho Hl IH]; [done|].
  apply cleanOption_spec in Ho as (Ho & _).
  by rewrite filter_cons, decide_True, IH.
Qed.

(** X19: a list of clean options written out with a comma and a space
    between them is read back as the same options in the same order. *)
Theorem options_roundtrip (l : list string) :
  Forall (fun o => cleanOption o = true) l ->
  options (Some (join ", " l)) = l.
Proof.
  intros Hl. destruct l as [|x l]; [done|].
  unfold options.
  assert (truthyStr (Some (join ", " (x :: l))) = true) as ->.
  { pose proof Hl as [Hx _]%Forall_cons. apply cleanOption_spec in Hx as (Hx & _).
    destruct x; [done|]. by destruct l. }
  change (default "" (Some ?s)) with s.
  rewrite (splitComma_join x l Hl).
  change (map trim (x :: map (String " ") l)) with (trim x :: map trim (map (String " ") l)).
  rewrite map_map.
  pose proof Hl as [Hx Hrest]%Forall_cons.
  apply cleanOption_spec in Hx as (_ & -> & _).
  rewrite (trim_space_clean l Hrest).
  by apply filter_clean.
Qed.

Lemma options_roundtrip_witness :
  options (Some "Savings, Current, Fixed Deposit") = ["Savings"; "Current"; "Fixed Deposit"].
Proof.
  apply (options_roundtrip ["Savings"; "Current"; "Fixed Deposit"]).
  repeat constructor.
Defined.
